(** * MISP DDoS automation: the ingestion, compilation, filtering and
      metrics pipeline of the web frontend, embedded in Rocq.

    Sources embedded here:
    - [webapp/frontend/src/services/mispApi.ts]        (MISPApiService)
    - [webapp/frontend/src/services/fileProcessing.ts] (FileProcessingService,
      EventMetricsService)
    - the AI-enhanced upload service                    (AIEnhancedFileProcessingService)
    - the frontend type declarations                    (DDoSEvent, MISPEvent)

    Conventions.  A JavaScript string is a Rocq [string]; case mapping and
    trimming follow JavaScript on the ASCII range and leave other code units
    alone.  A JavaScript number is a [JS.Number]: a rational, one of the two
    infinities, or NaN.  The quality score of the assessor and the event
    velocity are computed as the program computes them, every operation
    rounded to the nearest double ([JS.toDouble]); the posture score is
    kept as the exact value of its formula.  What [JSON.parse] and
    [response.json()] return is a [JSON.t], a value without types.
    String-literal union types of the TypeScript declarations are inductive
    types. *)

From Stdlib Require Import List String Ascii Bool Arith PeanoNat NArith ZArith.
From Stdlib Require Import QArith Qround Qminmax Qabs Qpower Lia Lqa.
From Stdlib Require Import DecimalString Sorted.
Import ListNotations.

Local Close Scope Q_scope.
Local Open Scope nat_scope.
Local Open Scope list_scope.
Local Open Scope string_scope.

(* ------------------------------------------------------------------ *)
(** ** JavaScript primitives used by the services                      *)
(* ------------------------------------------------------------------ *)

Module JS.

(** *** Strings *)

Definition dquote : string := String "034"%char EmptyString.
Definition newline : ascii := "010"%char.

Definition isUpper (c : ascii) : bool :=
  Nat.leb 65 (nat_of_ascii c) && Nat.leb (nat_of_ascii c) 90.

Definition isLower (c : ascii) : bool :=
  Nat.leb 97 (nat_of_ascii c) && Nat.leb (nat_of_ascii c) 122.

Definition toLowerChar (c : ascii) : ascii :=
  if isUpper c then ascii_of_nat (nat_of_ascii c + 32) else c.

Definition toUpperChar (c : ascii) : ascii :=
  if isLower c then ascii_of_nat (nat_of_ascii c - 32) else c.

Fixpoint mapChars (f : ascii -> ascii) (s : string) : string :=
  match s with
  | EmptyString => EmptyString
  | String c rest => String (f c) (mapChars f rest)
  end.

(** [s.toLowerCase()] and [s.toUpperCase()]. *)
Definition toLowerCase : string -> string := mapChars toLowerChar.
Definition toUpperCase : string -> string := mapChars toUpperChar.

(** [s.startsWith(p)]. *)
Fixpoint startsWith (s p : string) {struct p} : bool :=
  match p with
  | EmptyString => true
  | String c p' =>
      match s with
      | EmptyString => false
      | String d s' => Ascii.eqb d c && startsWith s' p'
      end
  end.

(** [s.includes(sub)]: [sub] occurs somewhere in [s]. *)
Fixpoint includes (s sub : string) : bool :=
  startsWith s sub ||
  match s with
  | EmptyString => false
  | String _ s' => includes s' sub
  end.

(** [s.endsWith(suffix)]. *)
Definition endsWith (s suffix : string) : bool :=
  Nat.leb (String.length suffix) (String.length s) &&
  String.eqb
    (substring (String.length s - String.length suffix)
               (String.length suffix) s)
    suffix.

Fixpoint drop (n : nat) (s : string) : string :=
  match n with
  | O => s
  | S n' => match s with
            | EmptyString => EmptyString
            | String _ s' => drop n' s'
            end
  end.

(** [s.replace(pat, rep)] with a string pattern: the first occurrence
    only; [rep] holds no dollar sign. *)
Fixpoint replace (s pat rep : string) : string :=
  if startsWith s pat then rep ++ drop (String.length pat) s
  else match s with
       | EmptyString => EmptyString
       | String c s' => String c (replace s' pat rep)
       end.

(** [s.split(sep)] for a one-character separator. *)
Fixpoint split (sep : ascii) (s : string) : list string :=
  match s with
  | EmptyString => [EmptyString]
  | String c rest =>
      if Ascii.eqb c sep then EmptyString :: split sep rest
      else match split sep rest with
           | [] => [String c EmptyString]
           | h :: t => String c h :: t
           end
  end.

(** [parts.join(sep)]. *)
Fixpoint join (sep : string) (parts : list string) : string :=
  match parts with
  | [] => EmptyString
  | [p] => p
  | p :: rest => p ++ sep ++ join sep rest
  end.

Definition isWhiteSpace (c : ascii) : bool :=
  let n := nat_of_ascii c in
  (Nat.leb 9 n && Nat.leb n 13) || Nat.eqb n 32.

Fixpoint trimStart (s : string) : string :=
  match s with
  | EmptyString => EmptyString
  | String c rest => if isWhiteSpace c then trimStart rest else s
  end.

Fixpoint trimEnd (s : string) : string :=
  match s with
  | EmptyString => EmptyString
  | String c rest =>
      match trimEnd rest with
      | EmptyString => if isWhiteSpace c then EmptyString
                       else String c EmptyString
      | t => String c t
      end
  end.

(** [s.trim()]. *)
Definition trim (s : string) : string := trimEnd (trimStart s).

(** [xs.push(x)], and one push per element of [ys] in order. *)
Definition push {A : Type} (xs : list A) (x : A) : list A := app xs [x].
Definition push_all {A : Type} (xs ys : list A) : list A :=
  fold_left push ys xs.

(** Truthiness of a string: only the empty string is falsy. *)
Definition truthy (s : string) : bool :=
  match s with EmptyString => false | _ => true end.

(** The decimal text of a count, as a template literal prints it. *)
Definition ofNat (n : nat) : string :=
  NilEmpty.string_of_uint (Nat.to_uint n).

(** *** Objects used as dictionaries

    [obj[key]] on an object literal looks first at the object's own
    properties and then at [Object.prototype]. *)

Inductive Value : Type :=
| Undefined
| Str (s : string)
| Inherited (key : string).   (* a member of Object.prototype: truthy *)

Definition objectPrototypeKeys : list string :=
  [ "constructor"; "__defineGetter__"; "__defineSetter__";
    "hasOwnProperty"; "__lookupGetter__"; "__lookupSetter__";
    "isPrototypeOf"; "propertyIsEnumerable"; "toString"; "valueOf";
    "__proto__"; "toLocaleString" ].

Definition isInherited (key : string) : bool :=
  existsb (String.eqb key) objectPrototypeKeys.

Fixpoint own {A : Type} (props : list (string * A)) (key : string)
  : option A :=
  match props with
  | [] => None
  | (k, v) :: rest => if String.eqb k key then Some v else own rest key
  end.

(** [obj[key]] for a literal [obj] whose own properties are strings. *)
Definition get (props : list (string * string)) (key : string) : Value :=
  match own props key with
  | Some v => Str v
  | None => if isInherited key then Inherited key else Undefined
  end.

Definition truthyValue (v : Value) : bool :=
  match v with
  | Undefined => false
  | Str s => truthy s
  | Inherited _ => true
  end.

(** [v || d]. *)
Definition orElse (v d : Value) : Value :=
  if truthyValue v then v else d.

(** *** Numbers *)

Inductive Number : Type :=
| Finite (q : Q)
| PosInfinity
| NegInfinity
| NaN.

Definition ofCount (n : nat) : Number := Finite (inject_Z (Z.of_nat n)).

Definition qpos (q : Q) : bool := negb (Qle_bool q 0%Q).
Definition qneg (q : Q) : bool := negb (Qle_bool 0%Q q).
Definition qzero (q : Q) : bool := Qeq_bool q 0%Q.

(** [a - b]. *)
Definition sub (a b : Number) : Number :=
  match a, b with
  | NaN, _ | _, NaN => NaN
  | Finite x, Finite y => Finite (x - y)%Q
  | Finite _, PosInfinity => NegInfinity
  | Finite _, NegInfinity => PosInfinity
  | PosInfinity, PosInfinity => NaN
  | PosInfinity, _ => PosInfinity
  | NegInfinity, NegInfinity => NaN
  | NegInfinity, _ => NegInfinity
  end.

Definition signed (positive : bool) : Number :=
  if positive then PosInfinity else NegInfinity.

(** [a * b]. *)
Definition mul (a b : Number) : Number :=
  match a, b with
  | NaN, _ | _, NaN => NaN
  | Finite x, Finite y => Finite (x * y)%Q
  | Finite x, PosInfinity | PosInfinity, Finite x =>
      if qzero x then NaN else signed (qpos x)
  | Finite x, NegInfinity | NegInfinity, Finite x =>
      if qzero x then NaN else signed (qneg x)
  | PosInfinity, PosInfinity | NegInfinity, NegInfinity => PosInfinity
  | PosInfinity, NegInfinity | NegInfinity, PosInfinity => NegInfinity
  end.

(** [a / b]; a zero divisor is the positive zero, which is the only
    zero a count can be. *)
Definition div (a b : Number) : Number :=
  match a, b with
  | NaN, _ | _, NaN => NaN
  | Finite x, Finite y =>
      if qzero y then (if qzero x then NaN else signed (qpos x))
      else Finite (x / y)%Q
  | Finite _, _ => Finite 0%Q
  | PosInfinity, Finite y => signed (negb (qneg y))
  | NegInfinity, Finite y => signed (qneg y)
  | _, _ => NaN
  end.

(** [Math.max(a, b)] and [Math.min(a, b)]: NaN when either is NaN. *)
Definition max (a b : Number) : Number :=
  match a, b with
  | NaN, _ | _, NaN => NaN
  | PosInfinity, _ | _, PosInfinity => PosInfinity
  | NegInfinity, x | x, NegInfinity => x
  | Finite x, Finite y => if Qle_bool x y then Finite y else Finite x
  end.

Definition min (a b : Number) : Number :=
  match a, b with
  | NaN, _ | _, NaN => NaN
  | NegInfinity, _ | _, NegInfinity => NegInfinity
  | PosInfinity, x | x, PosInfinity => x
  | Finite x, Finite y => if Qle_bool x y then Finite x else Finite y
  end.

(** [a > b]: false when either is NaN. *)
Definition gt (a b : Number) : bool :=
  match a, b with
  | NaN, _ | _, NaN => false
  | Finite x, Finite y => negb (Qle_bool x y)
  | PosInfinity, PosInfinity => false
  | PosInfinity, _ => true
  | NegInfinity, _ => false
  | Finite _, NegInfinity => true
  | Finite _, PosInfinity => false
  end.

(** [Math.round(a)]: the nearest integer, halves upwards. *)
Definition round (a : Number) : Number :=
  match a with
  | Finite x => Finite (inject_Z (Qfloor (x + (1 # 2))%Q))
  | other => other
  end.

(** *** Double precision

    A finite double is a rational number.  An arithmetic operation of
    JavaScript returns the exact result rounded to the nearest double,
    ties to the even significand: [round64] is that rounding for
    significands of 53 bits and exponents from -1074 on, and [toDouble]
    adds the overflow to an infinity.  The two zeros are not told apart.
    Counters and array lengths stay below 2^53 in the program and are
    doubles as they are. *)

Definition pow2 (e : Z) : Q := Qpower (2 # 1) e.

(** The nearest integer, a tie going to the even one. *)
Definition roundHalfEven (x : Q) : Z :=
  let f := Qfloor x in
  match Qcompare (x - inject_Z f)%Q (1 # 2) with
  | Lt => f
  | Gt => (f + 1)%Z
  | Eq => if Z.even f then f else (f + 1)%Z
  end.

(** The exponent of the leading bit of a positive rational. *)
Definition ilog2 (q : Q) : Z :=
  let k := (Z.log2 (Qnum q) - Z.log2 (Zpos (Qden q)))%Z in
  if Qle_bool (pow2 k) q then k else (k - 1)%Z.

(** The exponent of the last bit that a double near [q] keeps. *)
Definition ulpExponent (q : Q) : Z :=
  Z.max (ilog2 (Qabs q) - 52) (-1074).

Definition round64 (q : Q) : Q :=
  (inject_Z (roundHalfEven (q * pow2 (- ulpExponent q))) *
   pow2 (ulpExponent q))%Q.

(** The double that holds the result of an operation whose exact value
    is [a]. *)
Definition toDouble (a : Number) : Number :=
  match a with
  | Finite q =>
      let r := round64 q in
      if Qle_bool (pow2 1024) (Qabs r) then signed (qpos r) else Finite r
  | other => other
  end.

(** Exact arithmetic: no rounding. *)
Definition exact (a : Number) : Number := a.

(** Truthiness of a number: zero and NaN are falsy. *)
Definition truthyNumber (a : Number) : bool :=
  match a with
  | Finite q => negb (qzero q)
  | NaN => false
  | _ => true
  end.

(** *** Regular expressions, anchored at both ends

    The patterns of the services use literals, character ranges,
    alternation, sequence, [?] and bounded repetition; [test] decides
    membership by derivatives. *)

Inductive RegExp : Type :=
| Never
| Empty
| Lit (c : ascii)
| Range (lo hi : ascii)
| Seq (r1 r2 : RegExp)
| Alt (r1 r2 : RegExp).

Definition Opt (r : RegExp) : RegExp := Alt r Empty.

(** [r{n}] *)
Fixpoint Times (n : nat) (r : RegExp) : RegExp :=
  match n with
  | O => Empty
  | S n' => Seq r (Times n' r)
  end.

(** [r{0,n}] *)
Fixpoint UpTo (n : nat) (r : RegExp) : RegExp :=
  match n with
  | O => Empty
  | S n' => Opt (Seq r (UpTo n' r))
  end.

Fixpoint nullable (r : RegExp) : bool :=
  match r with
  | Never => false
  | Empty => true
  | Lit _ => false
  | Range _ _ => false
  | Seq r1 r2 => nullable r1 && nullable r2
  | Alt r1 r2 => nullable r1 || nullable r2
  end.

Definition inRange (lo hi c : ascii) : bool :=
  Nat.leb (nat_of_ascii lo) (nat_of_ascii c) &&
  Nat.leb (nat_of_ascii c) (nat_of_ascii hi).

Fixpoint deriv (c : ascii) (r : RegExp) : RegExp :=
  match r with
  | Never => Never
  | Empty => Never
  | Lit d => if Ascii.eqb c d then Empty else Never
  | Range lo hi => if inRange lo hi c then Empty else Never
  | Seq r1 r2 =>
      if nullable r1 then Alt (Seq (deriv c r1) r2) (deriv c r2)
      else Seq (deriv c r1) r2
  | Alt r1 r2 => Alt (deriv c r1) (deriv c r2)
  end.

(** [/^r$/.test(s)]. *)
Fixpoint test (r : RegExp) (s : string) : bool :=
  match s with
  | EmptyString => nullable r
  | String c rest => test (deriv c r) rest
  end.

End JS.

(* ------------------------------------------------------------------ *)
(** ** Values that JSON.parse builds                                    *)
(* ------------------------------------------------------------------ *)

Module JSON.

(** A value of a parsed JSON text, or [undefined].  An object holds its
    own properties in order, each key once. *)
Unset Elimination Schemes.
Inductive t : Type :=
| Undefined
| Null
| Bool (b : bool)
| Num (x : JS.Number)
| Str (s : string)
| Arr (items : list t)
| Obj (props : list (string * t)).
Set Elimination Schemes.

(** [Array.isArray(data) ? data : [data]] *)
Definition elements (data : t) : list t :=
  match data with
  | Arr items => items
  | other => [other]
  end.

(** [value.key], for the keys that the services read: [title],
    [attacker_ips], [severity], [Event], [id], [content] and
    [download_url], none of which a prototype defines.  [None] when the
    read throws a TypeError, which it does on [null] and [undefined]. *)
Definition get (value : t) (key : string) : option t :=
  match value with
  | Undefined | Null => None
  | Obj props =>
      Some (match JS.own props key with
            | Some v => v
            | None => Undefined
            end)
  | _ => Some Undefined
  end.

(** [key in value], for the six required field names, which are no
    indices and no properties of [Array.prototype].  [None] when the
    test throws a TypeError, which it does on everything but objects
    and arrays. *)
Definition has (key : string) (value : t) : option bool :=
  match value with
  | Obj props =>
      Some (match JS.own props key with
            | Some _ => true
            | None => JS.isInherited key
            end)
  | Arr _ => Some (JS.isInherited key)
  | _ => None
  end.

(** Truthiness. *)
Definition truthy (value : t) : bool :=
  match value with
  | Undefined | Null => false
  | Bool b => b
  | Num x => JS.truthyNumber x
  | Str s => JS.truthy s
  | Arr _ | Obj _ => true
  end.

(** [value.length], for a value that is neither [null] nor
    [undefined]. *)
Definition length (value : t) : t :=
  match value with
  | Str s => Num (JS.ofCount (String.length s))
  | Arr items => Num (JS.ofCount (List.length items))
  | Obj props =>
      match JS.own props "length" with
      | Some v => v
      | None => Undefined
      end
  | _ => Undefined
  end.

End JSON.

(** The errors that the engine itself raises and whose message the
    services pass on. *)
Inductive EngineError : Type :=
| JsonSyntaxError                                 (* response.json() rejects *)
| ReadTypeError (value : JSON.t) (key : string)   (* value.key *)
| InTypeError (key : string) (value : JSON.t)     (* key in value *)
| InvalidCharacterError (text : string).          (* btoa(text) *)


(* ------------------------------------------------------------------ *)
(** ** The frontend's type declarations                                *)
(* ------------------------------------------------------------------ *)

(** [attack_type: 'direct-flood' | 'amplification' | 'other'] *)
Inductive AttackType : Type := DirectFlood | Amplification | OtherAttack.

(** [severity: 'low' | 'medium' | 'high' | 'critical'] *)
Inductive Severity : Type := Low | Medium | High | Critical.

Definition severityString (s : Severity) : string :=
  match s with
  | Low => "low"
  | Medium => "medium"
  | High => "high"
  | Critical => "critical"
  end.

(** The fields of [DDoSEvent] that the services read. *)
Module DDoSEvent.
Record t : Type := make {
  title : string;
  description : string;
  attacker_ips : list string;
  victim_ips : list string;
  attack_ports : list string;
  attack_type : AttackType;
  severity : Severity
}.
End DDoSEvent.

(** [threat_level: '1' | '2' | '3' | '4'] *)
Inductive ThreatLevel : Type := TL1 | TL2 | TL3 | TL4.

Definition threatLevelEqb (a b : ThreatLevel) : bool :=
  match a, b with
  | TL1, TL1 | TL2, TL2 | TL3, TL3 | TL4, TL4 => true
  | _, _ => false
  end.

Module Tag.
Record t : Type := make { name : string; colour : string }.
End Tag.

(** The fields of [MISPEvent] that the filter and the metrics read. *)
Module MISPEvent.
Record t : Type := make {
  id : string;
  info : string;
  date : string;
  threat_level : ThreatLevel;
  published : bool;
  tags : list Tag.t
}.
End MISPEvent.

(* ------------------------------------------------------------------ *)
(** ** Calls that may throw, and what the network answers              *)
(* ------------------------------------------------------------------ *)

(** How an [async] call with a result ends: it returns the result, or it
    throws an error with a message. *)
Inductive Attempt (A : Type) : Type :=
| Returned (result : A)
| Threw (message : string).

Arguments Returned {A} result.
Arguments Threw {A} message.

(** The part of a [Response] that the services read. *)
Module HttpResponse.
Record t : Type := make {
  ok : bool;
  status : nat;
  statusText : string
}.
End HttpResponse.

(** What [fetch] does with a request: it rejects with an error, or it
    resolves to a response whose JSON body is [body]. *)
Inductive Fetched (A : Type) : Type :=
| Rejected (message : string)
| Responded (response : HttpResponse.t) (body : A).

Arguments Rejected {A} message.
Arguments Responded {A} response body.

(* ------------------------------------------------------------------ *)
(** ** MISPApiService (mispApi.ts)                                     *)
(* ------------------------------------------------------------------ *)

Module MISPApiService.

Module Attribute.
Record t : Type := make {
  category : string;
  type : string;
  value : string;
  to_ids : bool;
  comment : option string
}.
End Attribute.

(** [mapSeverityToThreatLevel(severity: string)]: a dictionary lookup
    with the fallback ['4']. *)
Definition mapping : list (string * string) :=
  [ ("critical", "1"); ("high", "1"); ("medium", "2"); ("low", "3") ].

Definition mapSeverityToThreatLevel (severity : string) : JS.Value :=
  JS.orElse (JS.get mapping severity) (JS.Str "4").

(** [buildAttributes]: attacker addresses, victim addresses, ports, then
    the description when it is not empty. *)
Definition buildAttributes (ddosData : DDoSEvent.t) : list Attribute.t :=
  let attributes : list Attribute.t := [] in
  let attributes := JS.push_all attributes
    (map (fun ip => Attribute.make "Network activity" "ip-src" ip true
                      (Some "DDoS attack source IP"))
         (DDoSEvent.attacker_ips ddosData)) in
  let attributes := JS.push_all attributes
    (map (fun ip => Attribute.make "Network activity" "ip-dst" ip true
                      (Some "DDoS attack target IP"))
         (DDoSEvent.victim_ips ddosData)) in
  let attributes := JS.push_all attributes
    (map (fun port => Attribute.make "Network activity" "port" port false
                        (Some "DDoS attack target port"))
         (DDoSEvent.attack_ports ddosData)) in
  if JS.truthy (DDoSEvent.description ddosData)
  then JS.push attributes
         (Attribute.make "Other" "comment" (DDoSEvent.description ddosData)
            false None)
  else attributes.

Definition galaxyTag : string :=
  Eval cbv in
    "misp-galaxy:mitre-attack-pattern=" ++ JS.dquote ++
    "Network Denial of Service - T1498" ++ JS.dquote.

Definition ddosType (kind : string) : string :=
  "ddos:type=" ++ JS.dquote ++ kind ++ JS.dquote.

(** [buildTags]: the galaxy cluster tag, the tag of the attack type,
    the TLP tag of the severity. *)
Definition buildTags (ddosData : DDoSEvent.t) : list string :=
  let tags : list string := [] in
  let tags := JS.push tags galaxyTag in
  let tags :=
    match DDoSEvent.attack_type ddosData with
    | DirectFlood => JS.push tags (ddosType "volumetric")
    | Amplification => JS.push tags (ddosType "reflection")
    | OtherAttack => JS.push tags (ddosType "application-layer")
    end in
  let tags :=
    match DDoSEvent.severity ddosData with
    | Critical | High => JS.push tags "tlp:amber"
    | Medium => JS.push tags "tlp:green"
    | Low => JS.push tags "tlp:white"
    end in
  tags.

(** The event that [createDDoSEvent] builds and posts to
    [/events/add.json]. *)
Module Event.
Record t : Type := make {
  info : string;
  threat_level_id : JS.Value;
  analysis : string;
  distribution : string;
  published : bool;
  Attribute : list Attribute.t;
  Tag : list string
}.
End Event.

Definition mispEvent (ddosData : DDoSEvent.t) : Event.t :=
  Event.make
    (DDoSEvent.title ddosData)
    (mapSeverityToThreatLevel (severityString (DDoSEvent.severity ddosData)))
    "2"
    "1"
    false
    (buildAttributes ddosData)
    (buildTags ddosData).

(** [isTlpRedEvent] *)
Definition isTlpRedEvent (event : MISPEvent.t) : bool :=
  existsb
    (fun tag =>
       JS.includes (JS.toLowerCase (Tag.name tag)) "tlp:red" ||
       JS.includes (JS.toLowerCase (Tag.name tag)) "tlp-red")
    (MISPEvent.tags event).

(** The filtering step of [getEvents] and [getEventsWithFilter], applied
    to the events the server returned. *)
Definition getEvents_filter (events : list MISPEvent.t)
    (excludeTlpRed : option bool) : list MISPEvent.t :=
  let excludeTlpRed := match excludeTlpRed with Some b => b | None => true end in
  if excludeTlpRed
  then filter (fun event => negb (isTlpRedEvent event)) events
  else events.

(** *** The read path: [transformMISPEvent], [makeRequest], [getEvents] *)

(** A value of the server's JSON under [=== '1'] and [|| default]: a
    text, or anything else. *)
Inductive Scalar : Type :=
| ScalarText (s : string)
| ScalarOther.

Module RawTag.
Record t : Type := make {
  name : string;
  colour : option string
}.
End RawTag.

(** The fields of the server's event that [MISPEvent.t] keeps. *)
Module RawEvent.
Record t : Type := make {
  id : string;
  info : string;
  date : string;
  threat_level_id : ThreatLevel;
  published : Scalar;
  Tag : option (list RawTag.t)
}.
End RawEvent.

(** [tag.colour || '#cccccc'] *)
Definition colourOrDefault (colour : option string) : string :=
  match colour with
  | Some c => if JS.truthy c then c else "#cccccc"
  | None => "#cccccc"
  end.

Definition transformMISPEvent (event : RawEvent.t) : MISPEvent.t :=
  MISPEvent.make
    (RawEvent.id event)
    (RawEvent.info event)
    (RawEvent.date event)
    (RawEvent.threat_level_id event)
    (match RawEvent.published event with
     | ScalarText s => String.eqb s "1"
     | ScalarOther => false
     end)
    (match RawEvent.Tag event with
     | Some tags =>
         map (fun tag => Tag.make (RawTag.name tag)
                           (colourOrDefault (RawTag.colour tag)))
             tags
     | None => []
     end).

Module MISPCredentials.
Record t : Type := make {
  apiKey : string;
  baseUrl : option string
}.
End MISPCredentials.

Definition defaultBaseUrl : string := "https://server1.tailaa85d9.ts.net".

(** [credentials.baseUrl || MISP_CONFIG.baseUrl] *)
Definition baseUrlOf (credentials : MISPCredentials.t) : string :=
  match MISPCredentials.baseUrl credentials with
  | Some url => if JS.truthy url then url else defaultBaseUrl
  | None => defaultBaseUrl
  end.

(** A request of the service: its URL and, for a POST, the event it
    carries. *)
Module Call.
Record t : Type := make {
  url : string;
  posted : option Event.t
}.
End Call.

(** [makeRequest]: the result, and the requests that went out. *)
Definition makeRequest {A : Type} (credentials : option MISPCredentials.t)
    (fetch : Call.t -> Fetched A) (endpoint : string)
    (posted : option Event.t) : Attempt A * list Call.t :=
  match credentials with
  | None =>
      (Threw "MISP credentials not configured. Please set them in Settings.",
       [])
  | Some c =>
      let call := Call.make (baseUrlOf c ++ endpoint) posted in
      match fetch call with
      | Rejected message => (Threw message, [call])
      | Responded response body =>
          if negb (HttpResponse.ok response)
          then (Threw ("MISP API Error: " ++
                       JS.ofNat (HttpResponse.status response) ++ " " ++
                       HttpResponse.statusText response),
                [call])
          else (Returned body, [call])
      end
  end.

(** [getEvents(limit = 50, excludeTlpRed = true)] *)
Definition getEvents (credentials : option MISPCredentials.t)
    (fetch : Call.t -> Fetched (list RawEvent.t))
    (limit : option nat) (excludeTlpRed : option bool)
  : list MISPEvent.t * list Call.t :=
  let limit := match limit with Some n => n | None => 50 end in
  match makeRequest credentials fetch
          ("/events/index/limit:" ++ JS.ofNat limit ++ ".json") None with
  | (Returned response, calls) =>
      (getEvents_filter (map transformMISPEvent response) excludeTlpRed,
       calls)
  | (Threw _, calls) => ([], calls)
  end.

(** [getEvent(eventId)] *)
Definition getEvent (credentials : option MISPCredentials.t)
    (fetch : Call.t -> Fetched RawEvent.t) (eventId : string)
  : option MISPEvent.t * list Call.t :=
  match makeRequest credentials fetch
          ("/events/view/" ++ eventId ++ ".json") None with
  | (Returned response, calls) => (Some (transformMISPEvent response), calls)
  | (Threw _, calls) => (None, calls)
  end.

(** *** The write path: [createDDoSEvent] *)

Module MISPEventResponse.
Record t : Type := make {
  event_id : JSON.t;
  success : bool;
  message : string;
  misp_url : option string
}.
End MISPEventResponse.

Section WritePath.

(** The message of an error of the engine, and the text of a number, an
    array or an object in a template literal. *)
Variable messageOf : EngineError -> string.
Variable ToString : JSON.t -> string.




End WritePath.

End MISPApiService.

(* ------------------------------------------------------------------ *)
(** ** EventMetricsService (fileProcessing.ts)                         *)
(* ------------------------------------------------------------------ *)

Module EventMetricsService.

(** The value of a property of [tlpCounts]: a count, or the text that
    [+ 1] makes of a member inherited from [Object.prototype]. *)
Inductive Tally : Type :=
| Count (n : nat)
| NotNumeric.

Module ThreatLevelCounts.
Record t : Type := make {
  high : nat;
  medium : nat;
  low : nat;
  undefined : nat
}.
End ThreatLevelCounts.

Module TlpEntry.
Record t : Type := make {
  level : string;
  count : Tally;
  color : JS.Value
}.
End TlpEntry.

Module PublishedCounts.
Record t : Type := make {
  published : nat;
  unpublished : nat
}.
End PublishedCounts.

(** The fields of [EventMetrics] that are tallies over the collection;
    the monthly histogram, the attack-type table and the recent events
    are left out. *)
Module EventMetrics.
Record t : Type := make {
  totalEvents : nat;
  eventsByThreatLevel : ThreatLevelCounts.t;
  tlpDistribution : list TlpEntry.t;
  publishedVsUnpublished : PublishedCounts.t
}.
End EventMetrics.

(** *** [calculateTlpDistribution] *)

(** [(counts[key] || 0) + 1] *)
Definition plusOne (counts : list (string * Tally)) (key : string) : Tally :=
  match JS.own counts key with
  | Some (Count n) => Count (n + 1)
  | Some NotNumeric => NotNumeric
  | None => if JS.isInherited key then NotNumeric else Count 1
  end.

Fixpoint update (counts : list (string * Tally)) (key : string) (v : Tally)
  : list (string * Tally) :=
  match counts with
  | [] => []
  | (k, old) :: rest =>
      if String.eqb k key then (k, v) :: rest
      else (k, old) :: update rest key v
  end.

(** [counts[key] = v]: an own property keeps its place, a new one goes
    last; [__proto__] is an accessor and keeps no text. *)
Definition assign (counts : list (string * Tally)) (key : string) (v : Tally)
  : list (string * Tally) :=
  match JS.own counts key with
  | Some _ => update counts key v
  | None => if String.eqb key "__proto__" then counts
            else app counts [(key, v)]
  end.

Definition increment (counts : list (string * Tally)) (key : string)
  : list (string * Tally) :=
  assign counts key (plusOne counts key).

Definition countTag (state : list (string * Tally) * bool) (tag : Tag.t)
  : list (string * Tally) * bool :=
  let tagName := JS.toLowerCase (Tag.name tag) in
  if JS.includes tagName "tlp:"
  then (increment (fst state) (JS.replace tagName "tlp:" ""), true)
  else state.

Definition countEvent (tlpCounts : list (string * Tally))
    (event : MISPEvent.t) : list (string * Tally) :=
  let '(tlpCounts, hasTlp) :=
    fold_left countTag (MISPEvent.tags event) (tlpCounts, false) in
  if negb hasTlp then increment tlpCounts "undefined" else tlpCounts.

(** [Object.entries]: array-index keys first, ascending, then the other
    keys in the order they were created. *)
Definition isDigit (c : ascii) : bool :=
  Nat.leb 48 (nat_of_ascii c) && Nat.leb (nat_of_ascii c) 57.

Fixpoint allDigits (s : string) : bool :=
  match s with
  | EmptyString => true
  | String c rest => isDigit c && allDigits rest
  end.

Fixpoint digitsValue (acc : N) (s : string) : N :=
  match s with
  | EmptyString => acc
  | String c rest =>
      digitsValue (acc * 10 + N.of_nat (nat_of_ascii c - 48))%N rest
  end.

Definition arrayIndex (key : string) : option N :=
  match key with
  | EmptyString => None
  | String c rest =>
      if allDigits key &&
         (negb (Ascii.eqb c "0") || String.eqb rest EmptyString) &&
         N.leb (digitsValue 0%N key) 4294967294%N
      then Some (digitsValue 0%N key)
      else None
  end.

Fixpoint insertIndexed {A : Type} (i : N) (x : A) (sorted : list (N * A))
  : list (N * A) :=
  match sorted with
  | [] => [(i, x)]
  | (j, y) :: rest =>
      if N.leb i j then (i, x) :: sorted
      else (j, y) :: insertIndexed i x rest
  end.

Fixpoint indexed {A : Type} (props : list (string * A))
  : list (N * (string * A)) :=
  match props with
  | [] => []
  | (k, v) :: rest =>
      match arrayIndex k with
      | Some i => insertIndexed i (k, v) (indexed rest)
      | None => indexed rest
      end
  end.

Definition entries {A : Type} (props : list (string * A))
  : list (string * A) :=
  app (map snd (indexed props))
      (filter (fun kv => match arrayIndex (fst kv) with
                         | Some _ => false
                         | None => true
                         end) props).

Definition tlpColors : list (string * string) :=
  [ ("red", "#f44336"); ("amber", "#ff9800"); ("green", "#4caf50");
    ("white", "#e0e0e0"); ("undefined", "#9e9e9e") ].

Definition calculateTlpDistribution (events : list MISPEvent.t)
  : list TlpEntry.t :=
  let tlpCounts := fold_left countEvent events [] in
  map (fun '(level, count) =>
         TlpEntry.make (JS.toUpperCase level) count
           (JS.orElse (JS.get tlpColors level) (JS.Str "#9e9e9e")))
      (entries tlpCounts).

(** *** [calculateMetrics] *)

Definition calculateMetrics (events : list MISPEvent.t) : EventMetrics.t :=
  let totalEvents := List.length events in
  let eventsByThreatLevel :=
    ThreatLevelCounts.make
      (List.length (filter (fun e => threatLevelEqb (MISPEvent.threat_level e) TL1) events))
      (List.length (filter (fun e => threatLevelEqb (MISPEvent.threat_level e) TL2) events))
      (List.length (filter (fun e => threatLevelEqb (MISPEvent.threat_level e) TL3) events))
      (List.length (filter (fun e => threatLevelEqb (MISPEvent.threat_level e) TL4) events)) in
  let tlpDistribution := calculateTlpDistribution events in
  let publishedVsUnpublished :=
    PublishedCounts.make
      (List.length (filter (fun e => MISPEvent.published e) events))
      (List.length (filter (fun e => negb (MISPEvent.published e)) events)) in
  EventMetrics.make totalEvents eventsByThreatLevel tlpDistribution
    publishedVsUnpublished.

(** *** [filterEventsByTLP]; an omitted flag is [true] *)

Definition filterEventsByTLP (events : list MISPEvent.t)
    (excludeTlpRed : option bool) : list MISPEvent.t :=
  let excludeTlpRed := match excludeTlpRed with Some b => b | None => true end in
  if negb excludeTlpRed then events
  else filter
         (fun event =>
            negb (existsb
                    (fun tag =>
                       JS.includes (JS.toLowerCase (Tag.name tag)) "tlp:red")
                    (MISPEvent.tags event)))
         events.

(** *** [calculateSecurityPosture] *)

Definition calculateSecurityPosture (metrics : EventMetrics.t) : JS.Number :=
  let total := JS.ofCount (EventMetrics.totalEvents metrics) in
  let score := JS.Finite 100 in
  let highThreatRatio :=
    JS.div (JS.ofCount (ThreatLevelCounts.high
                          (EventMetrics.eventsByThreatLevel metrics)))
           total in
  let score := JS.sub score (JS.mul highThreatRatio (JS.Finite 30)) in
  let unpublishedRatio :=
    JS.div (JS.ofCount (PublishedCounts.unpublished
                          (EventMetrics.publishedVsUnpublished metrics)))
           total in
  let score := JS.sub score (JS.mul unpublishedRatio (JS.Finite 20)) in
  let tlpRedEvents :=
    find (fun t => String.eqb (TlpEntry.level t) "RED")
         (EventMetrics.tlpDistribution metrics) in
  let score :=
    match tlpRedEvents with
    | Some t =>
        match TlpEntry.count t with
        | Count n =>
            if Nat.ltb 0 n
            then JS.sub score
                   (JS.mul (JS.div (JS.ofCount n) total) (JS.Finite 25))
            else score
        | NotNumeric => score
        end
    | None => score
    end in
  JS.max (JS.Finite 0) (JS.min (JS.Finite 100) score).

(** *** Filters by threat level and by date *)

Definition threatLevelString (level : ThreatLevel) : string :=
  match level with
  | TL1 => "1"
  | TL2 => "2"
  | TL3 => "3"
  | TL4 => "4"
  end.

(** [filterEventsByThreatLevel] *)
Definition filterEventsByThreatLevel (events : list MISPEvent.t)
    (threatLevels : list string) : list MISPEvent.t :=
  filter
    (fun event =>
       existsb (String.eqb (threatLevelString (MISPEvent.threat_level event)))
               threatLevels)
    events.

(** [a >= b] and [a <= b] on the time values of two dates; the time
    value of an invalid date is NaN, here [None]. *)
Definition timeGe (a b : option Z) : bool :=
  match a, b with
  | Some x, Some y => Z.leb y x
  | _, _ => false
  end.

Definition timeLe (a b : option Z) : bool :=
  match a, b with
  | Some x, Some y => Z.leb x y
  | _, _ => false
  end.

Section WithDates.

(** [new Date(text).getTime()], in milliseconds; [None] for a text that
    is no date. *)
Variable parseDate : string -> option Z.

(** [filterEventsByDateRange] *)
Definition filterEventsByDateRange (events : list MISPEvent.t)
    (startDate endDate : option Z) : list MISPEvent.t :=
  filter
    (fun event =>
       let eventDate := parseDate (MISPEvent.date event) in
       timeGe eventDate startDate && timeLe eventDate endDate)
    events.

(** [events.sort((a, b) => time(b) - time(a))] on events whose dates are
    valid: latest first, events of equal time in their former order. *)
Fixpoint insertByTime (x : Z * MISPEvent.t) (sorted : list (Z * MISPEvent.t))
  : list (Z * MISPEvent.t) :=
  match sorted with
  | [] => [x]
  | y :: rest =>
      if Z.leb (fst y) (fst x) then x :: sorted
      else y :: insertByTime x rest
  end.

Definition sortLatestFirst (events : list (Z * MISPEvent.t))
  : list (Z * MISPEvent.t) :=
  fold_right insertByTime [] events.

(** The events dated at or after the cut-off, with their time values. *)
Fixpoint datedSince (cutoff : Z) (events : list MISPEvent.t)
  : list (Z * MISPEvent.t) :=
  match events with
  | [] => []
  | event :: rest =>
      match parseDate (MISPEvent.date event) with
      | Some time =>
          if Z.leb cutoff time then (time, event) :: datedSince cutoff rest
          else datedSince cutoff rest
      | None => datedSince cutoff rest
      end
  end.

(** [getTrendingEvents]; [cutoff] is the time value of the cut-off date,
    today minus [days]. *)
Definition getTrendingEvents (cutoff : Z) (events : list MISPEvent.t)
  : list MISPEvent.t :=
  let recentEvents := datedSince cutoff events in
  map snd
    (firstn 5
       (sortLatestFirst
          (filter
             (fun dated =>
                threatLevelEqb (MISPEvent.threat_level (snd dated)) TL1 ||
                threatLevelEqb (MISPEvent.threat_level (snd dated)) TL2)
             recentEvents))).

(** [calculateEventVelocity]: the events since the cut-off per day, the
    quotient as the double that the division returns. *)
Definition calculateEventVelocity (cutoff : Z) (events : list MISPEvent.t)
    (days : nat) : JS.Number :=
  JS.toDouble
    (JS.div (JS.ofCount (List.length (datedSince cutoff events)))
            (JS.ofCount days)).

End WithDates.

(** *** Attack types *)

(** [extractAttackType] *)
Definition extractAttackType (attackPattern : string) : option string :=
  if JS.includes attackPattern "T1498.001" then Some "Direct Flood"
  else if JS.includes attackPattern "T1498.002" then Some "Amplification"
  else if JS.includes attackPattern "T1498" then Some "Network DoS"
  else None.

(** [s.replace] with the global pattern of the double quote and the
    empty replacement: every double quote goes. *)
Fixpoint removeQuotes (s : string) : string :=
  match s with
  | EmptyString => EmptyString
  | String c rest =>
      if Ascii.eqb c "034" then removeQuotes rest
      else String c (removeQuotes rest)
  end.

(** The body of the loop over the tags in [calculateAttackTypes]. *)
Definition countAttackType (typeCounts : list (string * Tally)) (tag : Tag.t)
  : list (string * Tally) :=
  if JS.includes (Tag.name tag) "ddos:type="
  then increment typeCounts
         (removeQuotes (JS.replace (Tag.name tag) "ddos:type=" ""))
  else if JS.includes (Tag.name tag) "mitre-attack-pattern"
  then match extractAttackType (Tag.name tag) with
       | Some type => increment typeCounts type
       | None => typeCounts
       end
  else typeCounts.

(** The object [typeCounts] at the end of the two loops. *)
Definition attackTypeCounts (events : list MISPEvent.t)
  : list (string * Tally) :=
  fold_left
    (fun typeCounts event =>
       fold_left countAttackType (MISPEvent.tags event) typeCounts)
    events [].

Fixpoint insertByCount (x : string * nat) (sorted : list (string * nat))
  : list (string * nat) :=
  match sorted with
  | [] => [x]
  | y :: rest =>
      if Nat.leb (snd y) (snd x) then x :: sorted
      else y :: insertByCount x rest
  end.

Fixpoint numericCounts (props : list (string * Tally))
  : option (list (string * nat)) :=
  match props with
  | [] => Some []
  | (k, Count n) :: rest =>
      match numericCounts rest with
      | Some counted => Some ((k, n) :: counted)
      | None => None
      end
  | (_, NotNumeric) :: _ => None
  end.

(** [calculateAttackTypes]: the entries, largest count first and equal
    counts in the order of [Object.entries].  When a count is no number
    the comparison function is not consistent and the order is left to
    the engine: [None]. *)
Definition calculateAttackTypes (events : list MISPEvent.t)
  : option (list (string * nat)) :=
  match numericCounts (entries (attackTypeCounts events)) with
  | Some counted => Some (fold_right insertByCount [] counted)
  | None => None
  end.

End EventMetricsService.

(* ------------------------------------------------------------------ *)
(** ** FileProcessingService (fileProcessing.ts)                       *)
(* ------------------------------------------------------------------ *)

(** How an [async] validation ends: it resolves, or it throws an
    [Error] with a message. *)
Inductive Outcome : Type :=
| Resolved
| Thrown (message : string).

(** A [File] of the browser: name, MIME type, size in bytes, and the
    text that [readFileContent] resolves to ([None] when the reader
    fails). *)
Module BrowserFile.
Record t : Type := make {
  name : string;
  type : string;
  size : N;
  content : option string
}.
End BrowserFile.

Module GitHubConfig.
Record t : Type := make {
  owner : string;
  repo : string;
  token : option string
}.
End GitHubConfig.

(** A request to the GitHub API: method, URL, the [Authorization] header
    and the fields of the object handed to [JSON.stringify] that the
    model keeps, those of [inputs] among them. *)
Module Request.
Record t : Type := make {
  method : string;
  url : string;
  authorization : string;
  body : list (string * JSON.t)
}.
End Request.

(** [`token ${config.token}`] *)
Definition authorizationOf (config : GitHubConfig.t) : string :=
  "token " ++ match GitHubConfig.token config with
              | Some token => token
              | None => "undefined"
              end.

(** [status: 'pending' | 'processing' | 'completed' | 'failed'] *)
Inductive JobStatus : Type :=
| JobPending
| JobProcessing
| JobCompleted
| JobFailed.

Module AIProcessingOptions.
Record t : Type := make {
  enableAICleansing : bool;
  autoCorrectIPs : bool;
  normalizePorts : bool;
  validateSeverity : bool;
  enhancedReporting : bool
}.
End AIProcessingOptions.

Module JobAI.
Record t : Type := make {
  enabled : bool;
  options : AIProcessingOptions.t;
  estimated_corrections : nat
}.
End JobAI.

(** The fields of [FileUploadJob] other than the two time stamps. *)
Module FileUploadJob.
Record t : Type := make {
  id : string;
  filename : string;
  size : N;
  status : JobStatus;
  progress : nat;
  error_message : option string;
  events_created : option nat;
  events_failed : option nat;
  ai_processing : option JobAI.t
}.
End FileUploadJob.

(** A workflow run as the GitHub API lists it. *)
Module WorkflowRun.
Record t : Type := make {
  name : string;
  head_commit_message : option string;
  display_title : option string;
  status : string;
  conclusion : option string;
  html_url : string;
  created_at : string;
  updated_at : string
}.
End WorkflowRun.

(** What the status queries return for a run that was found. *)
Module StatusReport.
Record t : Type := make {
  id : string;
  filename : string;
  size : N;
  status : JS.Value;
  progress : nat;
  created_at : string;
  completed_at : string;
  workflow_url : option string;
  conclusion : option (option string)
}.
End StatusReport.

(** The [statusMap] of both status queries. *)
Definition statusMap : list (string * string) :=
  [ ("queued", "pending"); ("in_progress", "processing");
    ("completed", "completed"); ("failure", "failed");
    ("cancelled", "failed") ].

(** [text?.includes(part)] as a condition. *)
Definition mentions (text : option string) (part : string) : bool :=
  match text with
  | Some t => JS.includes t part
  | None => false
  end.


Module FileProcessingService.

Definition requiredColumns : list string :=
  [ "title"; "description"; "attacker_ips"; "victim_ips";
    "attack_type"; "severity" ].

(** [content.split('\n').filter(line => line.trim())] *)
Definition nonBlankLines (content : string) : list string :=
  filter (fun line => JS.truthy (JS.trim line)) (JS.split JS.newline content).

(** [requiredColumns.filter(col => !header.includes(col))] *)
Definition missingColumns (header : string) : list string :=
  filter (fun col => negb (JS.includes header col)) requiredColumns.

Definition validateCSVContent (content : string) : Outcome :=
  let lines := nonBlankLines content in
  if Nat.ltb (List.length lines) 2
  then Thrown "CSV file must contain at least a header and one data row."
  else
    let header := JS.toLowerCase (nth 0 lines EmptyString) in
    let missingColumns := missingColumns header in
    if Nat.ltb 0 (List.length missingColumns)
    then Thrown ("CSV missing required columns: " ++
                 JS.join ", " missingColumns)
    else Resolved.

(** *** [validateJSONContent] *)

Definition requiredFields : list string :=
  [ "title"; "description"; "attacker_ips"; "victim_ips";
    "attack_type"; "severity" ].

(** [fields.filter(field => !(field in event))]: [None] when a test
    throws. *)
Fixpoint filterMissing (event : JSON.t) (fields : list string)
  : option (list string) :=
  match fields with
  | [] => Some []
  | field :: rest =>
      match JSON.has field event with
      | None => None
      | Some present =>
          match filterMissing event rest with
          | None => None
          | Some missing =>
              Some (if present then missing else field :: missing)
          end
      end
  end.

Definition missingFields (event : JSON.t) : option (list string) :=
  filterMissing event requiredFields.

Section WithJson.

(** The message of an error of the engine. *)
Variable messageOf : EngineError -> string.

(** The loop over the events, from index [i] on.  A TypeError of the
    first test, [title in event], is thrown on. *)
Fixpoint checkEventsFrom (i : nat) (events : list JSON.t) : Outcome :=
  match events with
  | [] => Resolved
  | event :: rest =>
      match missingFields event with
      | None => Thrown (messageOf (InTypeError "title" event))
      | Some missing =>
          if Nat.ltb 0 (List.length missing)
          then Thrown ("Event " ++ JS.ofNat (i + 1) ++
                       " missing required fields: " ++
                       JS.join ", " missing)
          else checkEventsFrom (i + 1) rest
      end
  end.

(** [JSON.parse], [None] when it throws a [SyntaxError]. *)
Variable JSON_parse : string -> option JSON.t.

Definition validateJSONContent (content : string) : Outcome :=
  match JSON_parse content with
  | None => Thrown "Invalid JSON format."
  | Some data =>
      let events := JSON.elements data in
      if Nat.eqb (List.length events) 0
      then Thrown "JSON file must contain at least one event."
      else checkEventsFrom 0 events
  end.

(** *** [validateFile] *)

Definition allowedTypes : list string :=
  [ "text/csv"; "application/json"; "text/plain" ].

Definition allowedExtensions : list string := [ ".csv"; ".json" ].

Definition maxSize : N := (50 * 1024 * 1024)%N.

Definition validateFile (file : BrowserFile.t) : Outcome :=
  let name := JS.toLowerCase (BrowserFile.name file) in
  let hasValidType :=
    existsb (String.eqb (BrowserFile.type file)) allowedTypes in
  let hasValidExtension :=
    existsb (fun ext => JS.endsWith name ext) allowedExtensions in
  if negb hasValidType && negb hasValidExtension
  then Thrown "Invalid file type. Only CSV and JSON files are allowed."
  else if N.ltb maxSize (BrowserFile.size file)
  then Thrown "File size exceeds 50MB limit."
  else
    match BrowserFile.content file with
    | None => Thrown "Failed to read file"
    | Some content =>
        if JS.endsWith name ".csv" then validateCSVContent content
        else if JS.endsWith name ".json" then validateJSONContent content
        else Resolved
    end.

(** *** [uploadFileToGitHub], [triggerProcessingWorkflow],
        [uploadAndProcess]

    [btoa] encodes a text, [None] when it throws because a character
    lies above U+00FF.  [fetch] answers a request; the body of an
    answer is what [response.json()] resolves to, [None] when it
    rejects. *)

Variable btoa : string -> option string.
Variable config : GitHubConfig.t.
Variable fetch : Request.t -> Fetched (option JSON.t).

Definition repoUrl : string :=
  "https://api.github.com/repos/" ++ GitHubConfig.owner config ++ "/" ++
  GitHubConfig.repo config.

(** The request of [uploadFileToGitHub]. *)
Definition uploadRequest (file : BrowserFile.t)
    (processingId encodedContent : string) : Request.t :=
  Request.make "PUT"
    (repoUrl ++ "/contents/temp/" ++ processingId ++ "-" ++
     BrowserFile.name file)
    (authorizationOf config)
    [ ("message",
       JSON.Str ("Upload DDoS data file for processing: " ++
                 BrowserFile.name file));
      ("content", JSON.Str encodedContent);
      ("branch", JSON.Str "temp-uploads") ].

(** [result.content.download_url] *)
Definition downloadUrlOf (result : JSON.t) : Attempt JSON.t :=
  match JSON.get result "content" with
  | None => Threw (messageOf (ReadTypeError result "content"))
  | Some content =>
      match JSON.get content "download_url" with
      | None => Threw (messageOf (ReadTypeError content "download_url"))
      | Some download_url => Returned download_url
      end
  end.

Definition uploadFileToGitHub (file : BrowserFile.t) (processingId : string)
  : Attempt JSON.t * list Request.t :=
  match BrowserFile.content file with
  | None => (Threw "Failed to read file", [])
  | Some content =>
      match btoa content with
      | None => (Threw (messageOf (InvalidCharacterError content)), [])
      | Some encodedContent =>
          let request := uploadRequest file processingId encodedContent in
          match fetch request with
          | Rejected message => (Threw message, [request])
          | Responded response body =>
              if negb (HttpResponse.ok response)
              then (Threw ("Failed to upload file to GitHub: " ++
                           HttpResponse.statusText response),
                    [request])
              else
                match body with
                | None => (Threw (messageOf JsonSyntaxError), [request])
                | Some result => (downloadUrlOf result, [request])
                end
          end
      end
  end.

(** The request of [triggerProcessingWorkflow]. *)
Definition dispatchRequest (fileUrl : JSON.t) (fileName processingId : string)
  : Request.t :=
  Request.make "POST"
    (repoUrl ++ "/actions/workflows/process-ddos-data.yml/dispatches")
    (authorizationOf config)
    [ ("ref", JSON.Str "main"); ("file_url", fileUrl);
      ("file_name", JSON.Str fileName);
      ("processing_id", JSON.Str processingId) ].


(** The job of the [catch] block. *)
Definition failedJob (file : BrowserFile.t) (processingId message : string)
  : FileUploadJob.t :=
  FileUploadJob.make processingId (BrowserFile.name file)
    (BrowserFile.size file) JobFailed 0 (Some message) (Some 0) (Some 0)
    None.


End WithJson.

(** *** [getProcessingStatus] *)

Definition getProcessingStatus (fetched : Fetched (list WorkflowRun.t))
    (processingId : string) : option StatusReport.t :=
  match fetched with
  | Rejected _ => None
  | Responded response workflow_runs =>
      if negb (HttpResponse.ok response) then None
      else
        match find
                (fun run =>
                   String.eqb (WorkflowRun.name run) "Process DDoS Data Files" &&
                   mentions (WorkflowRun.head_commit_message run) processingId)
                workflow_runs with
        | None => None
        | Some workflowRun =>
            Some
              (StatusReport.make processingId "unknown" 0%N
                 (JS.orElse (JS.get statusMap (WorkflowRun.status workflowRun))
                            (JS.Str "pending"))
                 (if String.eqb (WorkflowRun.status workflowRun) "completed"
                  then 100 else 50)
                 (WorkflowRun.created_at workflowRun)
                 (WorkflowRun.updated_at workflowRun)
                 None None)
        end
  end.

End FileProcessingService.

(* ------------------------------------------------------------------ *)
(** ** AIEnhancedFileProcessingService                                 *)
(* ------------------------------------------------------------------ *)

Module AIEnhancedFileProcessingService.

(** [confidenceLevel: 'high' | 'medium' | 'low'] *)
Inductive ConfidenceLevel : Type :=
| ConfidenceHigh
| ConfidenceMedium
| ConfidenceLow.

Module AIProcessingResult.
Record t : Type := make {
  correctionsCount : nat;
  dataQualityScore : JS.Number;
  suggestedImprovements : list string;
  confidenceLevel : ConfidenceLevel
}.
End AIProcessingResult.

(** An event of a JSON file whose fields have the types that
    [DDoSEvent] declares: the three fields the assessor reads, each
    possibly absent. *)
Module JsonEvent.
Record t : Type := make {
  title : option string;
  attacker_ips : option (list string);
  severity : option string
}.
End JsonEvent.

(** A file: its name and what [readFileContent] resolves to ([None]
    when the reader fails). *)
Module File.
Record t : Type := make {
  name : string;
  content : option string
}.
End File.

(** [25[0-5]|2[0-4][0-9]|[01]?[0-9][0-9]?] *)
Definition digit : JS.RegExp := JS.Range "0" "9".

Definition octet : JS.RegExp :=
  JS.Alt (JS.Seq (JS.Lit "2") (JS.Seq (JS.Lit "5") (JS.Range "0" "5")))
    (JS.Alt (JS.Seq (JS.Lit "2") (JS.Seq (JS.Range "0" "4") digit))
       (JS.Seq (JS.Opt (JS.Range "0" "1")) (JS.Seq digit (JS.Opt digit)))).

Definition ipPattern : JS.RegExp :=
  JS.Seq (JS.Times 3 (JS.Seq octet (JS.Lit "."))) octet.

(** [[1-9][0-9]{0,3}|[1-5][0-9]{4}|6[0-4][0-9]{3}|65[0-4][0-9]{2}|655[0-2][0-9]|6553[0-5]] *)
Definition portPattern : JS.RegExp :=
  JS.Alt (JS.Seq (JS.Range "1" "9") (JS.UpTo 3 digit))
    (JS.Alt (JS.Seq (JS.Range "1" "5") (JS.Times 4 digit))
       (JS.Alt (JS.Seq (JS.Lit "6") (JS.Seq (JS.Range "0" "4") (JS.Times 3 digit)))
          (JS.Alt (JS.Seq (JS.Lit "6") (JS.Seq (JS.Lit "5")
                     (JS.Seq (JS.Range "0" "4") (JS.Times 2 digit))))
             (JS.Alt (JS.Seq (JS.Lit "6") (JS.Seq (JS.Lit "5") (JS.Seq (JS.Lit "5")
                        (JS.Seq (JS.Range "0" "2") digit))))
                (JS.Seq (JS.Lit "6") (JS.Seq (JS.Lit "5") (JS.Seq (JS.Lit "5")
                   (JS.Seq (JS.Lit "3") (JS.Range "0" "5"))))))))).

(** [row[i]?.split(';').map(x => x.trim()) || []] *)
Definition cells (row : list string) (i : nat) : list string :=
  match nth_error row i with
  | Some cell => map JS.trim (JS.split ";" cell)
  | None => []
  end.

Definition countMismatches (pattern : JS.RegExp) (dataIssues : nat)
    (values : list string) : nat :=
  fold_left
    (fun dataIssues v =>
       if JS.truthy v && negb (JS.test pattern v)
       then dataIssues + 1 else dataIssues)
    values dataIssues.

(** The body of the loop over the data rows of a CSV file. *)
Definition checkRow (dataIssues : nat) (line : string) : nat :=
  let row := JS.split "," line in
  let dataIssues :=
    if Nat.ltb 2 (List.length row)
    then countMismatches ipPattern dataIssues
           (app (cells row 2) (cells row 3))
    else dataIssues in
  if Nat.ltb 4 (List.length row)
  then countMismatches portPattern dataIssues (cells row 4)
  else dataIssues.

Definition severities : list string := [ "low"; "medium"; "high"; "critical" ].

(** The body of [events.forEach] on an event with such fields. *)
Definition checkEvent (dataIssues : nat) (event : JsonEvent.t) : nat :=
  let dataIssues :=
    match JsonEvent.title event with
    | None => dataIssues + 1
    | Some title =>
        if negb (JS.truthy title) || Nat.ltb (String.length title) 10
        then dataIssues + 1 else dataIssues
    end in
  let dataIssues :=
    match JsonEvent.attacker_ips event with
    | None => dataIssues + 1
    | Some ips =>
        if Nat.eqb (List.length ips) 0 then dataIssues + 1 else dataIssues
    end in
  match JsonEvent.severity event with
  | None => dataIssues + 1
  | Some severity =>
      if negb (JS.truthy severity) ||
         negb (existsb (String.eqb severity) severities)
      then dataIssues + 1 else dataIssues
  end.

(** *** The checks on an event of a parsed JSON file

    [JSON.parse] gives no types: an event is any value, and so is each
    of its fields. *)

Section WithCoercion.

(** [ToNumber] on strings, arrays and objects. *)
Variable ToNumber : JSON.t -> JS.Number.

(** [value < 10] *)
Definition lessThanTen (value : JSON.t) : bool :=
  match value with
  | JSON.Undefined => false
  | JSON.Null => true
  | JSON.Bool _ => true
  | JSON.Num x => JS.gt (JS.Finite 10) x
  | other => JS.gt (JS.Finite 10) (ToNumber other)
  end.

(** [value === 0] *)
Definition isZero (value : JSON.t) : bool :=
  match value with
  | JSON.Num (JS.Finite q) => JS.qzero q
  | _ => false
  end.

(** [['low', 'medium', 'high', 'critical'].includes(value)] *)
Definition isListed (value : JSON.t) : bool :=
  match value with
  | JSON.Str s => existsb (String.eqb s) severities
  | _ => false
  end.

(** The callback of [events.forEach]: [None] when it throws, which it
    does on an event that is [null]. *)
Definition assessEvent (dataIssues : nat) (event : JSON.t) : option nat :=
  match JSON.get event "title" with
  | None => None
  | Some title =>
      let dataIssues :=
        if negb (JSON.truthy title) || lessThanTen (JSON.length title)
        then dataIssues + 1 else dataIssues in
      match JSON.get event "attacker_ips" with
      | None => None
      | Some attacker_ips =>
          let dataIssues :=
            if negb (JSON.truthy attacker_ips) ||
               isZero (JSON.length attacker_ips)
            then dataIssues + 1 else dataIssues in
          match JSON.get event "severity" with
          | None => None
          | Some severity =>
              Some (if negb (JSON.truthy severity) ||
                       negb (isListed severity)
                    then dataIssues + 1 else dataIssues)
          end
      end
  end.

(** [events.forEach(...)], from no issue on. *)
Definition assessEvents (events : list JSON.t) : option nat :=
  fold_left
    (fun dataIssues event =>
       match dataIssues with
       | Some k => assessEvent k event
       | None => None
       end)
    events (Some 0).

End WithCoercion.

(** *** The score and the report

    [fl] rounds the result of each arithmetic operation: it is
    [JS.toDouble] in the program, and [JS.exact] where a property is
    stated in exact arithmetic. *)

Section WithRounding.

Variable fl : JS.Number -> JS.Number.

(** [dataIssues / Math.max(totalRecords, 1)] *)
Definition issueRatio (dataIssues totalRecords : nat) : JS.Number :=
  fl (JS.div (JS.ofCount dataIssues) (JS.ofCount (Nat.max totalRecords 1))).

(** [Math.max(0, 100 - (dataIssues / Math.max(totalRecords, 1)) * 100)] *)
Definition qualityScore (dataIssues totalRecords : nat) : JS.Number :=
  JS.max (JS.Finite 0)
    (fl (JS.sub (JS.Finite 100)
           (fl (JS.mul (issueRatio dataIssues totalRecords)
                       (JS.Finite 100))))).

(** The part of the [try] block after the counting. *)
Definition report (dataIssues totalRecords : nat) : AIProcessingResult.t :=
  let suggestions : list string := [] in
  let suggestions :=
    if Nat.ltb 0 dataIssues
    then JS.push suggestions
           (JS.ofNat dataIssues ++
            " data quality issues detected that will be auto-corrected")
    else suggestions in
  let suggestions :=
    if Nat.ltb 100 totalRecords
    then JS.push suggestions
           "Large dataset detected - processing may take 2-3 minutes"
    else suggestions in
  let suggestions :=
    if JS.gt (issueRatio dataIssues totalRecords)
             (fl (JS.Finite (3 # 10)))
    then JS.push suggestions
           "Consider reviewing source data quality for future uploads"
    else suggestions in
  let qualityScore := qualityScore dataIssues totalRecords in
  let confidenceLevel :=
    if JS.gt qualityScore (JS.Finite 80) then ConfidenceHigh
    else if JS.gt qualityScore (JS.Finite 60) then ConfidenceMedium
    else ConfidenceLow in
  AIProcessingResult.make dataIssues (JS.round qualityScore) suggestions
    confidenceLevel.

End WithRounding.

(** The result of the [catch] block. *)
Definition fallback : AIProcessingResult.t :=
  AIProcessingResult.make 0 (JS.Finite 0)
    [ "Unable to analyze file - will process with server-side AI" ]
    ConfidenceLow.

Section WithParser.

Variable ToNumber : JSON.t -> JS.Number.

(** [JSON.parse], [None] when it throws. *)
Variable JSON_parse : string -> option JSON.t.

(** The counting part of the [try] block: [dataIssues] and
    [totalRecords], or [None] when it throws. *)
Definition countIssues (file : File.t) : option (nat * nat) :=
  match File.content file with
  | None => None
  | Some content =>
      if JS.endsWith (JS.toLowerCase (File.name file)) ".csv" then
        let lines :=
          filter (fun line => JS.truthy (JS.trim line))
                 (JS.split JS.newline content) in
        let totalRecords := Nat.max 0 (List.length lines - 1) in
        Some (fold_left checkRow (tl lines) 0, totalRecords)
      else if JS.endsWith (JS.toLowerCase (File.name file)) ".json" then
        match JSON_parse content with
        | None => None
        | Some data =>
            let events := JSON.elements data in
            match assessEvents ToNumber events with
            | Some dataIssues => Some (dataIssues, List.length events)
            | None => None
            end
        end
      else Some (0, 0)
  end.

Definition preValidateFileWithAI (file : File.t) : AIProcessingResult.t :=
  match countIssues file with
  | Some (dataIssues, totalRecords) =>
      report JS.toDouble dataIssues totalRecords
  | None => fallback
  end.

End WithParser.

(** *** Structural validation of the AI-enhanced service *)

(** [validateCSVContent], with the message of this service. *)
Definition validateCSVContent (content : string) : Outcome :=
  let lines := FileProcessingService.nonBlankLines content in
  if Nat.ltb (List.length lines) 2
  then Thrown "CSV file must contain at least a header and one data row."
  else
    let header := JS.toLowerCase (nth 0 lines EmptyString) in
    let missingColumns := FileProcessingService.missingColumns header in
    if Nat.ltb 0 (List.length missingColumns)
    then Thrown ("CSV missing required columns: " ++
                 JS.join ", " missingColumns ++
                 ". AI can help with data mapping if column names are similar.")
    else Resolved.


(** [Partial<AIProcessingOptions>] and [{ ...defaults, ...aiOptions }] *)
Module PartialAIOptions.
Record t : Type := make {
  enableAICleansing : option bool;
  autoCorrectIPs : option bool;
  normalizePorts : option bool;
  validateSeverity : option bool;
  enhancedReporting : option bool
}.
End PartialAIOptions.



(** [s.replace(/[:.]/g, '-')] *)
Fixpoint dashed (s : string) : string :=
  match s with
  | EmptyString => EmptyString
  | String c rest =>
      String (if Ascii.eqb c ":" || Ascii.eqb c "." then "-"%char else c)
             (dashed rest)
  end.


Section WithNetwork.

(** The message of an error of the engine. *)
Variable messageOf : EngineError -> string.

(** The sum of the missing fields over the events, which are the first
    five of the file.  A TypeError of a test [title in event] is thrown
    on. *)
Fixpoint countMissing (events : list JSON.t) (totalMissingFields : nat)
  : Attempt nat :=
  match events with
  | [] => Returned totalMissingFields
  | event :: rest =>
      match FileProcessingService.missingFields event with
      | None => Threw (messageOf (InTypeError "title" event))
      | Some missing =>
          countMissing rest (totalMissingFields + List.length missing)
      end
  end.

(** [ToNumber] on strings, arrays and objects, and [JSON.parse], [None]
    when it throws a [SyntaxError]. *)
Variable ToNumber : JSON.t -> JS.Number.
Variable JSON_parse : string -> option JSON.t.

Definition validateJSONContent (content : string) : Outcome :=
  match JSON_parse content with
  | None =>
      Thrown "Invalid JSON format. AI cannot process malformed JSON files."
  | Some data =>
      let events := JSON.elements data in
      if Nat.eqb (List.length events) 0
      then Thrown "JSON file must contain at least one event."
      else
        match countMissing
                (firstn (Nat.min (List.length events) 5) events) 0 with
        | Threw message => Thrown message
        | Returned totalMissingFields =>
            if Nat.ltb (List.length events * 2) totalMissingFields
            then Thrown "JSON events have too many missing required fields. Please review the data structure."
            else Resolved
        end
  end.

Definition maxSize : N := (100 * 1024 * 1024)%N.

Definition validateFile (file : BrowserFile.t) : Outcome :=
  let name := JS.toLowerCase (BrowserFile.name file) in
  let hasValidType :=
    existsb (String.eqb (BrowserFile.type file))
            FileProcessingService.allowedTypes in
  let hasValidExtension :=
    existsb (fun ext => JS.endsWith name ext)
            FileProcessingService.allowedExtensions in
  if negb hasValidType && negb hasValidExtension
  then Thrown "Invalid file type. Only CSV and JSON files are supported for AI processing."
  else if N.ltb maxSize (BrowserFile.size file)
  then Thrown "File size exceeds 100MB limit for AI processing."
  else
    match BrowserFile.content file with
    | None => Thrown "Failed to read file"
    | Some content =>
        if JS.endsWith name ".csv" then validateCSVContent content
        else if JS.endsWith name ".json" then validateJSONContent content
        else Resolved
    end.

(** [fetch] answers a request; the body of an answer is what
    [response.json()] resolves to, [None] when it rejects. *)
Variable config : GitHubConfig.t.
Variable fetch : Request.t -> Fetched (option JSON.t).

Definition repoUrl : string :=
  "https://api.github.com/repos/" ++ GitHubConfig.owner config ++ "/" ++
  GitHubConfig.repo config.

(** The request of [uploadFileToGitHub], without the encoded content
    and the commit message; [now] is the text of
    [new Date().toISOString()].  The content is encoded with
    [btoa(unescape(encodeURIComponent(content)))], which does not throw
    on a text that a [FileReader] has decoded. *)
Definition uploadRequest (now : string) (file : BrowserFile.t)
    (processingId : string) : Request.t :=
  let timestamp := dashed now in
  let filePath :=
    "temp/ai-processing/" ++ timestamp ++ "-" ++ processingId ++ "-" ++
    BrowserFile.name file in
  Request.make "PUT" (repoUrl ++ "/contents/" ++ filePath)
    (authorizationOf config) [ ("branch", JSON.Str "main") ].

Definition uploadFileToGitHub (now : string) (file : BrowserFile.t)
    (processingId : string) : Attempt JSON.t * list Request.t :=
  match BrowserFile.content file with
  | None => (Threw "Failed to read file", [])
  | Some _ =>
      let request := uploadRequest now file processingId in
      match fetch request with
      | Rejected message => (Threw message, [request])
      | Responded response body =>
          if negb (HttpResponse.ok response)
          then (Threw ("Failed to upload file for AI processing: " ++
                       JS.ofNat (HttpResponse.status response) ++ " " ++
                       HttpResponse.statusText response),
                [request])
          else
            match body with
            | None => (Threw (messageOf JsonSyntaxError), [request])
            | Some result =>
                (FileProcessingService.downloadUrlOf messageOf result,
                 [request])
            end
      end
  end.

(** The request of [triggerAIProcessingWorkflow]. *)
Definition dispatchRequest (fileUrl : JSON.t) (fileName processingId : string)
    (aiOptions : AIProcessingOptions.t) : Request.t :=
  Request.make "POST"
    (repoUrl ++ "/actions/workflows/process-ddos-data.yml/dispatches")
    (authorizationOf config)
    [ ("ref", JSON.Str "main"); ("file_url", fileUrl);
      ("file_name", JSON.Str fileName);
      ("processing_id", JSON.Str processingId);
      ("enable_ai_cleansing",
       JSON.Str (if AIProcessingOptions.enableAICleansing aiOptions
                 then "true" else "false")) ].


(** The job of the [catch] block. *)
Definition failedJob (file : BrowserFile.t) (processingId message : string)
  : FileUploadJob.t :=
  FileUploadJob.make processingId (BrowserFile.name file)
    (BrowserFile.size file) JobFailed 0 (Some message) (Some 0) (Some 0)
    None.


End WithNetwork.

(** *** [getAIProcessingStatus] *)

Definition getAIProcessingStatus (fetched : Fetched (list WorkflowRun.t))
    (processingId : string) : option StatusReport.t :=
  match fetched with
  | Rejected _ => None
  | Responded response workflow_runs =>
      if negb (HttpResponse.ok response) then None
      else
        match find
                (fun run =>
                   String.eqb (WorkflowRun.name run)
                     "AI-Enhanced DDoS Data Processing" &&
                   (mentions (WorkflowRun.head_commit_message run) processingId ||
                    mentions (WorkflowRun.display_title run) processingId))
                workflow_runs with
        | None => None
        | Some workflowRun =>
            Some
              (StatusReport.make processingId "Processing..." 0%N
                 (JS.orElse (JS.get statusMap (WorkflowRun.status workflowRun))
                            (JS.Str "pending"))
                 (if String.eqb (WorkflowRun.status workflowRun) "completed"
                  then 100
                  else if String.eqb (WorkflowRun.status workflowRun)
                            "in_progress"
                  then 75 else 25)
                 (WorkflowRun.created_at workflowRun)
                 (WorkflowRun.updated_at workflowRun)
                 (Some (WorkflowRun.html_url workflowRun))
                 (Some (WorkflowRun.conclusion workflowRun)))
        end
  end.

End AIEnhancedFileProcessingService.

(* ------------------------------------------------------------------ *)
(** ** Vocabulary of the properties                                    *)
(* ------------------------------------------------------------------ *)

(** The mandatory global tags of the DDoS playbook, as the repository's
    README lists them under "Mandatory Global Tags", next to [tlp:green]. *)
Module Playbook.

Definition incidentTypeTag : string :=
  Eval cbv in
    "information-security-indicators:incident-type=" ++ JS.dquote ++
    "ddos" ++ JS.dquote.

Definition eventTypeTag : string := "misp-event-type:incident".

End Playbook.

(** [name] holds [marker] up to the case of its letters; [marker] is
    written in lower case. *)
Definition containsIgnoringCase (name marker : string) : Prop :=
  exists pre mid post,
    name = pre ++ mid ++ post /\ JS.toLowerCase mid = marker.

(** An event one of whose tags carries the marker [tlp:red]. *)
Definition markedTlpRed (event : MISPEvent.t) : Prop :=
  exists tag,
    In tag (MISPEvent.tags event) /\
    containsIgnoringCase (Tag.name tag) "tlp:red".

(** The record of the row
    [T, D, 1.2.3.4, 5.6.7.8, 80, direct-flood, high]. *)
Definition exampleRecord : DDoSEvent.t :=
  DDoSEvent.make "T" "D" ["1.2.3.4"] ["5.6.7.8"] ["80"] DirectFlood High.

(** How many attributes have the given type. *)
Definition countType (type : string)
    (attributes : list MISPApiService.Attribute.t) : nat :=
  List.length
    (filter (fun a => String.eqb (MISPApiService.Attribute.type a) type)
            attributes).

(** An event tagged red in capitals, and an event without any tag. *)
Definition redEvent : MISPEvent.t :=
  MISPEvent.make "5" "SYN flood" "2025-01-14" TL1 false
    [Tag.make "TLP:RED" "#ff0000"].

Definition untaggedEvent : MISPEvent.t :=
  MISPEvent.make "6" "NTP reflection" "2025-01-14" TL3 true [].

(** An event whose only tag spells the marker with a dash. *)
Definition dashTaggedEvent : MISPEvent.t :=
  MISPEvent.make "7" "UDP flood" "2025-01-15" TL1 false
    [Tag.make "TLP-RED" "#cccccc"].

(** The count of the [RED] entry of a TLP distribution, zero when there
    is none. *)
Definition redCount (metrics : EventMetricsService.EventMetrics.t) : nat :=
  match find (fun t => String.eqb (EventMetricsService.TlpEntry.level t) "RED")
             (EventMetricsService.EventMetrics.tlpDistribution metrics) with
  | Some t =>
      match EventMetricsService.TlpEntry.count t with
      | EventMetricsService.Count n => n
      | EventMetricsService.NotNumeric => 0
      end
  | None => 0
  end.

Definition ratio (part whole : nat) : Q :=
  (inject_Z (Z.of_nat part) / inject_Z (Z.of_nat whole))%Q.


(** The quality score as the specification words it:
    max(0, 100 - 100 * correctionsCount / max(batchSize, 1)). *)
Definition specQualityScore (correctionsCount batchSize : nat) : Q :=
  Qmax 0 (100 - 100 * inject_Z (Z.of_nat correctionsCount) /
                inject_Z (Z.of_nat (Nat.max batchSize 1)))%Q.

(** The ratio of corrections to records that the score starts from. *)
Definition correctionRatio (correctionsCount batchSize : nat) : Q :=
  (inject_Z (Z.of_nat correctionsCount) /
   inject_Z (Z.of_nat (Nat.max batchSize 1)))%Q.

(** The score before the clamp as the program computes it from the
    exact ratio [t]: the ratio, the ratio times 100 and 100 minus that,
    each rounded to a double. *)
Definition roundedScore (t : Q) : Q :=
  JS.round64 (100 - JS.round64 (JS.round64 t * 100))%Q.

(** The distance that the ratio of a batch of fewer than 2^40 records
    keeps from a threshold that it does not reach. *)
Definition thresholdMargin : Q := 1 # (5 * 2 ^ 40).


(** A parser for the examples: it knows no file. *)
Definition noParser (content : string) : option JSON.t := None.

(** A JSON event with a title of eight characters and nothing else. *)
Definition shortTitleOnly : AIEnhancedFileProcessingService.JsonEvent.t :=
  AIEnhancedFileProcessingService.JsonEvent.make (Some "DDoS 001") None None.

(** The same event with a severity of the enumeration. *)
Definition shortTitleHigh : AIEnhancedFileProcessingService.JsonEvent.t :=
  AIEnhancedFileProcessingService.JsonEvent.make (Some "DDoS 001") None
    (Some "high").

(** A CSV file that is only a header line, without the address columns. *)
Definition headerOnly : string := "title,description".

(** A CSV file of a header line without the attacker column and one
    data row. *)
Definition noAttackerColumn : string :=
  "Title,Description,victim_ips,attack_type,severity" ++
  String JS.newline "UDP flood,Flood on the DNS servers,5.6.7.8,direct-flood,high".

(** The language of a pattern: the texts that it matches from the first
    character to the last. *)
Fixpoint denotes (r : JS.RegExp) (s : string) : Prop :=
  match r with
  | JS.Never => False
  | JS.Empty => s = EmptyString
  | JS.Lit c => s = String c EmptyString
  | JS.Range lo hi =>
      exists c, s = String c EmptyString /\ JS.inRange lo hi c = true
  | JS.Seq r1 r2 => exists a b, s = a ++ b /\ denotes r1 a /\ denotes r2 b
  | JS.Alt r1 r2 => denotes r1 s \/ denotes r2 s
  end.

(** A text of decimal digits, and the number it writes. *)
Fixpoint allDecimal (s : string) : Prop :=
  match s with
  | EmptyString => True
  | String c rest => 48 <= nat_of_ascii c <= 57 /\ allDecimal rest
  end.

Fixpoint decimalValue (acc : Z) (s : string) : Z :=
  match s with
  | EmptyString => acc
  | String c rest =>
      decimalValue (acc * 10 + (Z.of_nat (nat_of_ascii c) - 48))%Z rest
  end.

(** One to three digits that write a number up to 255. *)
Definition isOctetText (s : string) : Prop :=
  s <> EmptyString /\ allDecimal s /\ String.length s <= 3 /\
  (decimalValue 0 s <= 255)%Z.

(** A numeral without a leading zero that writes a number between 1 and
    65535. *)
Definition isPortText (s : string) : Prop :=
  allDecimal s /\
  (exists c rest, s = String c rest /\ nat_of_ascii c <> 48) /\
  (1 <= decimalValue 0 s <= 65535)%Z.


(** The attack-type text that [buildTags] puts into its second tag. *)
Definition attackKind (attack_type : AttackType) : string :=
  match attack_type with
  | DirectFlood => "volumetric"
  | Amplification => "reflection"
  | OtherAttack => "application-layer"
  end.


(** A parsed event that has every required field among its own keys. *)
Definition completeEvent (event : JSON.t) : Prop :=
  exists props,
    event = JSON.Obj props /\
    forall field,
      In field FileProcessingService.requiredFields ->
      In field (map fst props).




(** A record of a batch: a data row of a CSV file or an event of a JSON
    file. *)
Inductive BatchRecord : Type :=
| DataRow (line : string)
| JsonRecord (event : JSON.t).

(** The batch that a file holds: the non-blank lines after the header
    of a CSV file, the events of a JSON file, and nothing for another
    file; [None] when the file cannot be read or parsed. *)
Definition batchOf (JSON_parse : string -> option JSON.t)
    (file : AIEnhancedFileProcessingService.File.t)
  : option (list BatchRecord) :=
  match AIEnhancedFileProcessingService.File.content file with
  | None => None
  | Some content =>
      let name :=
        JS.toLowerCase (AIEnhancedFileProcessingService.File.name file) in
      if JS.endsWith name ".csv"
      then Some (map DataRow
                   (tl (FileProcessingService.nonBlankLines content)))
      else if JS.endsWith name ".json"
      then option_map (fun data => map JsonRecord (JSON.elements data))
             (JSON_parse content)
      else Some []
  end.

(** The corrections that one record calls for: the checks that fire on
    it; [None] for an event that cannot be assessed. *)
Definition correctionsOf (ToNumber : JSON.t -> JS.Number)
    (record : BatchRecord) : option nat :=
  match record with
  | DataRow line => Some (AIEnhancedFileProcessingService.checkRow 0 line)
  | JsonRecord event =>
      AIEnhancedFileProcessingService.assessEvent ToNumber 0 event
  end.

(** The corrections of a batch: the sum over its records, [None] when
    one of them cannot be assessed. *)
Fixpoint batchCorrections (ToNumber : JSON.t -> JS.Number)
    (records : list BatchRecord) : option nat :=
  match records with
  | [] => Some 0
  | record :: rest =>
      match correctionsOf ToNumber record,
            batchCorrections ToNumber rest with
      | Some k, Some total => Some (k + total)
      | _, _ => None
      end
  end.


(** An event on which the test [field in event] does not throw: an
    object or an array. *)
Definition structured (event : JSON.t) : Prop :=
  match event with
  | JSON.Obj _ | JSON.Arr _ => True
  | _ => False
  end.

(** An event on which the read of a field throws: [null], and
    [undefined], which no parsed JSON text holds. *)
Definition nullish (event : JSON.t) : Prop :=
  event = JSON.Null \/ event = JSON.Undefined.


(** The own keys of an event that are no indices. *)
Definition keysOfEvent (event : JSON.t) : list string :=
  match event with
  | JSON.Obj props => map fst props
  | _ => []
  end.

(** The required fields that are no key of an event, in the order of
    the requirement. *)
Definition lackingFields (event : JSON.t) : list string :=
  filter
    (fun field => negb (existsb (String.eqb field) (keysOfEvent event)))
    FileProcessingService.requiredFields.


(** An object with the given keys, each holding an empty text. *)
Definition objectWith (keys : list string) : JSON.t :=
  JSON.Obj (map (fun key => (key, JSON.Str "")) keys).

(** A parser for the examples: every text is an array of two events,
    the first with all six fields, the second with two of them. *)
Definition twoEventsParser (content : string) : option JSON.t :=
  Some (JSON.Arr [ objectWith FileProcessingService.requiredFields;
                   objectWith [ "title"; "description" ] ]).

(** A CSV file with every required column and one data row. *)
Definition goodCsvFile : BrowserFile.t :=
  BrowserFile.make "attacks.csv" "text/csv" 120%N
    (Some ("title,description,attacker_ips,victim_ips,attack_ports,attack_type,severity" ++
           String JS.newline
             "UDP flood,Flood on the DNS servers,1.2.3.4,5.6.7.8,53,direct-flood,high")).

(** The same file under a name that no validator accepts. *)
Definition wrongTypeFile : BrowserFile.t :=
  BrowserFile.make "attacks.xml" "text/xml" 120%N
    (BrowserFile.content goodCsvFile).

(** The configuration of the services before any setting is made. *)
Definition defaultGitHubConfig : GitHubConfig.t :=
  GitHubConfig.make "PabloPenguin" "misp-ddos-automation" None.

(** A network that accepts every request and stores files under one
    address. *)
Definition acceptingFetch (request : Request.t) : Fetched (option JSON.t) :=
  Responded (HttpResponse.make true 201 "Created")
    (Some (JSON.Obj
             [ ("content",
                JSON.Obj
                  [ ("download_url",
                     JSON.Str "https://raw.githubusercontent.com/stored") ]) ])).

(** A parser for the examples: every text is the array that holds
    [null] alone. *)
Definition nullEventParser (content : string) : option JSON.t :=
  Some (JSON.Arr [ JSON.Null ]).

(** A parser for the examples: it parses no text. *)
Definition noJson (content : string) : option JSON.t := None.

(** Conversions for the examples: every text, array and object is no
    number, and every error of the engine has the same message. *)
Definition notANumber (value : JSON.t) : JS.Number := JS.NaN.

Definition engineMessage (error : EngineError) : string :=
  "TypeError".

(** The order of the sort by date: the later time value first. *)
Definition laterFirst (a b : Z * MISPEvent.t) : Prop := (fst b <= fst a)%Z.

(** [later] is dated no earlier than [earlier], both with a valid date. *)
Definition notBefore (parseDate : string -> option Z)
    (later earlier : MISPEvent.t) : Prop :=
  exists t1 t2,
    parseDate (MISPEvent.date later) = Some t1 /\
    parseDate (MISPEvent.date earlier) = Some t2 /\
    (t2 <= t1)%Z.

(** An event that [getTrendingEvents] considers: of threat level 1 or 2
    and dated at or after the cut-off. *)
Definition trendingCandidate (parseDate : string -> option Z) (cutoff : Z)
    (event : MISPEvent.t) : Prop :=
  (MISPEvent.threat_level event = TL1 \/ MISPEvent.threat_level event = TL2) /\
  exists t, parseDate (MISPEvent.date event) = Some t /\ (cutoff <= t)%Z.


(** The condition under which the CSV loop of the assessor counts a
    cell: it is not empty and the pattern does not accept it. *)
Definition mismatch (pattern : JS.RegExp) (value : string) : bool :=
  JS.truthy value && negb (JS.test pattern value).

(** A run of the AI workflow that names the processing id in its display
    title only, and is still queued. *)
Definition queuedAIRun : WorkflowRun.t :=
  WorkflowRun.make "AI-Enhanced DDoS Data Processing" None
    (Some "AI run for upload_1700000000000") "queued" None
    "https://github.com/runs/1" "2024-01-01T00:00:00Z"
    "2024-01-01T00:05:00Z".




(* ------------------------------------------------------------------ *)
(** ** Facts about the string primitives                               *)
(* ------------------------------------------------------------------ *)

Section StringFacts.

Lemma append_assoc (a b c : string) : (a ++ b) ++ c = a ++ (b ++ c).
Proof.
  induction a as [| x a IH]; simpl; [reflexivity | now rewrite IH].
Qed.

Lemma append_empty_r (a : string) : a ++ "" = a.
Proof.
  induction a as [| x a IH]; simpl; [reflexivity | now rewrite IH].
Qed.

Lemma startsWith_spec (s p : string) :
  JS.startsWith s p = true <-> exists post, s = p ++ post.
Proof.
  revert s; induction p as [| c p IH]; intros s; simpl.
  - split; [intros _; now exists s | reflexivity].
  - destruct s as [| d s].
    + split; [discriminate | intros [post H]; discriminate].
    + rewrite andb_true_iff, Ascii.eqb_eq, IH. split.
      * intros [-> [post ->]]. now exists post.
      * intros [post H]. injection H as -> ->. split; [reflexivity | now exists post].
Qed.

(** [includes] decides the substring relation. *)
Lemma includes_spec (s sub : string) :
  JS.includes s sub = true <-> exists pre post, s = pre ++ sub ++ post.
Proof.
  induction s as [| c s IH]; simpl.
  - rewrite orb_false_r, startsWith_spec. split.
    + intros [post H]. now exists "", post.
    + intros [pre [post H]]. destruct pre; [now exists post | discriminate].
  - rewrite orb_true_iff, IH, startsWith_spec. split.
    + intros [[post H] | [pre [post H]]].
      * now exists "", post.
      * exists (String c pre), post. simpl. now rewrite H.
    + intros [pre [post H]]. destruct pre as [| d pre].
      * left. now exists post.
      * right. simpl in H. injection H as _ H. now exists pre, post.
Qed.

Lemma mapChars_append (f : ascii -> ascii) (a b : string) :
  JS.mapChars f (a ++ b) = JS.mapChars f a ++ JS.mapChars f b.
Proof.
  induction a as [| x a IH]; simpl; [reflexivity | now rewrite IH].
Qed.

(** A split of the image of [mapChars] comes from a split of the
    argument. *)
Lemma mapChars_append_inv (f : ascii -> ascii) (s a b : string) :
  JS.mapChars f s = a ++ b ->
  exists s1 s2, s = s1 ++ s2 /\ JS.mapChars f s1 = a /\ JS.mapChars f s2 = b.
Proof.
  revert s; induction a as [| x a IH]; intros s H; simpl in H.
  - now exists "", s.
  - destruct s as [| c s]; [discriminate |].
    simpl in H. injection H as Hc H.
    destruct (IH s H) as [s1 [s2 [-> [H1 H2]]]].
    exists (String c s1), s2. simpl. now rewrite Hc, H1.
Qed.

(** An element of a list occurs in the text that [join] makes of it. *)
Lemma join_includes (sep col : string) (cols : list string) :
  In col cols -> exists pre post, JS.join sep cols = pre ++ col ++ post.
Proof.
  induction cols as [| c cols IH]; [intros [] |].
  intros [-> | Hin].
  - destruct cols as [| c' cols].
    + exists "", "". simpl. now rewrite append_empty_r.
    + exists "", (sep ++ JS.join sep (c' :: cols)). reflexivity.
  - destruct cols as [| c' cols]; [destruct Hin |].
    destruct (IH Hin) as [pre [post H]].
    exists (c ++ sep ++ pre), post.
    change (JS.join sep (c :: c' :: cols))
      with (c ++ sep ++ JS.join sep (c' :: cols)).
    now rewrite H, !append_assoc.
Qed.

End StringFacts.

(* ------------------------------------------------------------------ *)
(** ** Compliance compiler: tags, threat level, attributes             *)
(* ------------------------------------------------------------------ *)

Section ComplianceCompiler.

Import MISPApiService.

(** [buildTags] always yields three tags: the galaxy cluster, one
    attack-type tag and one TLP tag. *)
Lemma buildTags_shape (d : DDoSEvent.t) :
  exists kind tlp,
    buildTags d = [galaxyTag; ddosType kind; tlp] /\
    In kind ["volumetric"; "reflection"; "application-layer"] /\
    In tlp ["tlp:amber"; "tlp:green"; "tlp:white"].
Proof.
  destruct d as [? ? ? ? ? [] []]; unfold buildTags; simpl;
    eexists; eexists; (split; [reflexivity | simpl; tauto]).
Qed.

(** C1.  Whatever the attack type and the severity of the record,
    [buildTags] carries the Network-DoS galaxy cluster tag (T1498) and a
    TLP sensitivity marker, but none of its tags mentions an incident:
    the incident-type marker and the event-type marker that the playbook
    makes mandatory are never emitted. *)
Theorem buildTags_omits_incident_and_event_type (d : DDoSEvent.t) :
  In galaxyTag (buildTags d) /\
  JS.includes galaxyTag "T1498" = true /\
  (exists t, In t (buildTags d) /\ JS.startsWith t "tlp:" = true) /\
  (forall t, In t (buildTags d) -> JS.includes t "incident" = false) /\
  ~ In Playbook.incidentTypeTag (buildTags d) /\
  ~ In Playbook.eventTypeTag (buildTags d).
Proof.
  destruct d as [? ? ? ? ? [] []]; unfold buildTags; cbn [DDoSEvent.attack_type DDoSEvent.severity];
    (split; [left; reflexivity |
     split; [reflexivity |
     split; [eexists; split; [right; right; left; reflexivity | reflexivity] |
     split; [intros t [<- | [<- | [<- | []]]]; reflexivity |
     split; intros [H | [H | [H | []]]]; discriminate H]]]]).
Qed.

(** The table of [mapSeverityToThreatLevel], and its fallback for a key
    that is neither in the table nor a member of [Object.prototype]. *)
Lemma mapSeverityToThreatLevel_table :
  mapSeverityToThreatLevel "critical" = JS.Str "1" /\
  mapSeverityToThreatLevel "high" = JS.Str "1" /\
  mapSeverityToThreatLevel "medium" = JS.Str "2" /\
  mapSeverityToThreatLevel "low" = JS.Str "3".
Proof. repeat split. Qed.

Lemma mapSeverityToThreatLevel_fallback (severity : string) :
  ~ In severity ["critical"; "high"; "medium"; "low"] ->
  JS.isInherited severity = false ->
  mapSeverityToThreatLevel severity = JS.Str "4".
Proof.
  intros Hnot Hinh. unfold mapSeverityToThreatLevel, JS.get.
  assert (Hown : JS.own mapping severity = None).
  { unfold mapping; cbn [JS.own].
    repeat match goal with
           | |- context [String.eqb ?k severity] =>
               destruct (String.eqb_spec k severity) as [E | _];
               [exfalso; apply Hnot; rewrite <- E; simpl; tauto |]
           end.
    reflexivity. }
  now rewrite Hown, Hinh.
Qed.


(** C3.  On the severity string [constructor] the lookup finds the
    member that every object literal inherits, which is truthy, so the
    fallback ['4'] is not taken and the result is not a threat level. *)
Theorem mapSeverityToThreatLevel_inherited_key :
  mapSeverityToThreatLevel "constructor" = JS.Inherited "constructor" /\
  mapSeverityToThreatLevel "constructor" <> JS.Str "4" /\
  ~ In "constructor" ["critical"; "high"; "medium"; "low"].
Proof.
  split; [reflexivity | split; [discriminate |]].
  intros [H | [H | [H | [H | []]]]]; discriminate H.
Qed.

(** C4, as stated: threat level 1, the volumetric and amber tags, and
    exactly three attributes (one source address, one destination
    address, one port).  The compiled event has four. *)
Lemma exampleRecord_not_three_attributes :
  ~ (Event.threat_level_id (mispEvent exampleRecord) = JS.Str "1" /\
     In (ddosType "volumetric") (Event.Tag (mispEvent exampleRecord)) /\
     In "tlp:amber" (Event.Tag (mispEvent exampleRecord)) /\
     List.length (Event.Attribute (mispEvent exampleRecord)) = 3 /\
     countType "ip-src" (Event.Attribute (mispEvent exampleRecord)) = 1 /\
     countType "ip-dst" (Event.Attribute (mispEvent exampleRecord)) = 1 /\
     countType "port" (Event.Attribute (mispEvent exampleRecord)) = 1).
Proof.
  intros [_ [_ [_ [H _]]]]. discriminate H.
Qed.

(** C4, amended.  The event compiled from the example record has threat
    level 1, carries the volumetric attack-type tag and the amber TLP
    tag, and has exactly four attributes, in this order: one source
    address, one destination address, one port, and one comment
    attribute holding the description. *)
Theorem exampleRecord_compiled :
  Event.threat_level_id (mispEvent exampleRecord) = JS.Str "1" /\
  In (ddosType "volumetric") (Event.Tag (mispEvent exampleRecord)) /\
  In "tlp:amber" (Event.Tag (mispEvent exampleRecord)) /\
  Event.Attribute (mispEvent exampleRecord) =
    [ Attribute.make "Network activity" "ip-src" "1.2.3.4" true
        (Some "DDoS attack source IP");
      Attribute.make "Network activity" "ip-dst" "5.6.7.8" true
        (Some "DDoS attack target IP");
      Attribute.make "Network activity" "port" "80" false
        (Some "DDoS attack target port");
      Attribute.make "Other" "comment" "D" false None ] /\
  List.length (Event.Attribute (mispEvent exampleRecord)) = 4 /\
  countType "ip-src" (Event.Attribute (mispEvent exampleRecord)) = 1 /\
  countType "ip-dst" (Event.Attribute (mispEvent exampleRecord)) = 1 /\
  countType "port" (Event.Attribute (mispEvent exampleRecord)) = 1 /\
  countType "comment" (Event.Attribute (mispEvent exampleRecord)) = 1.
Proof.
  repeat split; simpl; tauto.
Qed.

(** The attributes in general: one per attacker address, one per victim
    address, one per port, then the description when there is one. *)
Lemma push_all_app {A : Type} (xs ys : list A) :
  JS.push_all xs ys = app xs ys.
Proof.
  unfold JS.push_all.
  revert xs; induction ys as [| y ys IH]; intros xs; simpl.
  - now rewrite app_nil_r.
  - rewrite IH. unfold JS.push. now rewrite <- app_assoc.
Qed.

Lemma buildAttributes_length (d : DDoSEvent.t) :
  List.length (buildAttributes d) =
  List.length (DDoSEvent.attacker_ips d) +
  List.length (DDoSEvent.victim_ips d) +
  List.length (DDoSEvent.attack_ports d) +
  (if JS.truthy (DDoSEvent.description d) then 1 else 0).
Proof.
  unfold buildAttributes. rewrite !push_all_app. simpl.
  destruct (JS.truthy (DDoSEvent.description d)); unfold JS.push;
    rewrite ?length_app, ?length_map; simpl; lia.
Qed.

End ComplianceCompiler.

(* ------------------------------------------------------------------ *)
(** ** Classification filter                                           *)
(* ------------------------------------------------------------------ *)

Section ClassificationFilter.

Import EventMetricsService.

(** The test on one tag name is the case-insensitive substring test. *)
Lemma includes_lowered_iff (name marker : string) :
  JS.includes (JS.toLowerCase name) marker = true <->
  containsIgnoringCase name marker.
Proof.
  rewrite includes_spec. unfold containsIgnoringCase, JS.toLowerCase. split.
  - intros [pre [post H]].
    destruct (mapChars_append_inv _ _ _ _ H) as [s1 [s2 [-> [H1 H2]]]].
    destruct (mapChars_append_inv _ _ _ _ H2) as [s3 [s4 [-> [H3 H4]]]].
    now exists s1, s3, s4.
  - intros [pre [mid [post [-> <-]]]].
    exists (JS.mapChars JS.toLowerChar pre), (JS.mapChars JS.toLowerChar post).
    now rewrite !mapChars_append.
Qed.

Lemma tagTest_iff (event : MISPEvent.t) :
  existsb
    (fun tag => JS.includes (JS.toLowerCase (Tag.name tag)) "tlp:red")
    (MISPEvent.tags event) = true <->
  markedTlpRed event.
Proof.
  rewrite existsb_exists. unfold markedTlpRed.
  split; intros [tag [Hin H]]; exists tag; split; try assumption;
    now apply includes_lowered_iff.
Qed.

(** C2.  With the exclusion flag left out, which means [true], the
    filter returns exactly the events of the collection none of whose
    tag names holds [tlp:red] up to case: an event with such a tag is
    excluded, and every other event, an event without any tag included,
    is kept. *)
Theorem filterEventsByTLP_default_exact (events : list MISPEvent.t) :
  filterEventsByTLP events None = filterEventsByTLP events (Some true) /\
  (forall event,
      In event (filterEventsByTLP events None) <->
      In event events /\ ~ markedTlpRed event) /\
  (forall event,
      In event events -> MISPEvent.tags event = [] ->
      In event (filterEventsByTLP events None)).
Proof.
  split; [reflexivity |].
  assert (Hexact : forall event,
             In event (filterEventsByTLP events None) <->
             In event events /\ ~ markedTlpRed event).
  { intros event. unfold filterEventsByTLP. cbn [negb].
    rewrite filter_In, negb_true_iff, <- tagTest_iff.
    destruct (existsb _ (MISPEvent.tags event)); split;
      intros [Hin H]; split; try assumption;
      try discriminate; try congruence;
      try (exfalso; now apply H). }
  split; [exact Hexact |].
  intros event Hin Hnil. apply Hexact. split; [assumption |].
  intros [tag [Htag _]]. rewrite Hnil in Htag. destruct Htag.
Qed.

Lemma filterEventsByTLP_default_exact_witness :
  In untaggedEvent (filterEventsByTLP [redEvent; untaggedEvent] None) /\
  ~ In redEvent (filterEventsByTLP [redEvent; untaggedEvent] None).
Proof.
  destruct (filterEventsByTLP_default_exact [redEvent; untaggedEvent])
    as [_ [Hexact Htagless]].
  split.
  - apply Htagless; [right; left; reflexivity | reflexivity].
  - intros H. apply Hexact in H. destruct H as [_ H]. apply H.
    exists (Tag.make "TLP:RED" "#ff0000"). split; [left; reflexivity |].
    exists "", "TLP:RED", "". split; reflexivity.
Defined.

(** The filter passes the collection through untouched when the flag is
    [false]. *)
Lemma filterEventsByTLP_off (events : list MISPEvent.t) :
  filterEventsByTLP events (Some false) = events.
Proof. reflexivity. Qed.

(** Whatever the metrics filter excludes, [isTlpRedEvent] excludes. *)
Lemma isTlpRedEvent_covers_filter (event : MISPEvent.t) :
  markedTlpRed event -> MISPApiService.isTlpRedEvent event = true.
Proof.
  intros H. apply tagTest_iff in H. unfold MISPApiService.isTlpRedEvent.
  rewrite existsb_exists in *. destruct H as [tag [Hin H]].
  exists tag. split; [assumption |]. now rewrite H.
Qed.

(** C10.  The two predicates differ on an event whose only tag is
    [TLP-RED]: [isTlpRedEvent] holds, so the fetching path drops the
    event, while [filterEventsByTLP] keeps it. *)
Theorem tlp_red_predicates_disagree :
  MISPApiService.isTlpRedEvent dashTaggedEvent = true /\
  MISPApiService.getEvents_filter [dashTaggedEvent] None = [] /\
  filterEventsByTLP [dashTaggedEvent] None = [dashTaggedEvent].
Proof. repeat split. Qed.

End ClassificationFilter.

(* ------------------------------------------------------------------ *)
(** ** Metrics aggregator                                              *)
(* ------------------------------------------------------------------ *)

Section MetricsAggregator.

Import EventMetricsService.

Lemma threat_level_partition (events : list MISPEvent.t) :
  List.length (filter (fun e => threatLevelEqb (MISPEvent.threat_level e) TL1) events) +
  List.length (filter (fun e => threatLevelEqb (MISPEvent.threat_level e) TL2) events) +
  List.length (filter (fun e => threatLevelEqb (MISPEvent.threat_level e) TL3) events) +
  List.length (filter (fun e => threatLevelEqb (MISPEvent.threat_level e) TL4) events) =
  List.length events.
Proof.
  induction events as [| e events IH]; [reflexivity |].
  simpl. destruct (MISPEvent.threat_level e); simpl; lia.
Qed.

(** C5.  For every event collection the four counts of
    [eventsByThreatLevel] (high, medium, low, undefined) add up to
    [totalEvents], which is the size of the collection. *)
Theorem threatLevelDistribution_sums_to_total (events : list MISPEvent.t) :
  let metrics := calculateMetrics events in
  let buckets := EventMetrics.eventsByThreatLevel metrics in
  ThreatLevelCounts.high buckets + ThreatLevelCounts.medium buckets +
  ThreatLevelCounts.low buckets + ThreatLevelCounts.undefined buckets =
    EventMetrics.totalEvents metrics /\
  EventMetrics.totalEvents metrics = List.length events.
Proof.
  cbn zeta. unfold calculateMetrics. cbn [EventMetrics.eventsByThreatLevel
    EventMetrics.totalEvents ThreatLevelCounts.high ThreatLevelCounts.medium
    ThreatLevelCounts.low ThreatLevelCounts.undefined].
  split; [apply threat_level_partition | reflexivity].
Qed.


(** C6.  For the empty collection every ratio is [0 / 0]: the score is
    NaN, which no clamp brings into the interval from 0 to 100. *)
Theorem calculateSecurityPosture_empty :
  EventMetrics.totalEvents (calculateMetrics []) = 0 /\
  calculateSecurityPosture (calculateMetrics []) = JS.NaN /\
  JS.gt (calculateSecurityPosture (calculateMetrics [])) (JS.Finite 0) = false /\
  JS.gt (JS.Finite 100) (calculateSecurityPosture (calculateMetrics [])) = false /\
  calculateSecurityPosture (calculateMetrics []) <> JS.Finite 100.
Proof. repeat split. discriminate. Qed.

End MetricsAggregator.

(* ------------------------------------------------------------------ *)
(** ** Numbers: finite results and their rational values               *)
(* ------------------------------------------------------------------ *)

Section NumberFacts.

Local Open Scope Q_scope.

Lemma qzero_false (q : Q) : ~ q == 0 -> JS.qzero q = false.
Proof.
  intros H. unfold JS.qzero. destruct (Qeq_bool q 0) eqn:E; [| reflexivity].
  apply Qeq_bool_iff in E. contradiction.
Qed.

Lemma count_succ_nonzero (n : nat) : ~ inject_Z (Z.of_nat (S n)) == 0.
Proof.
  unfold Qeq; simpl. lia.
Qed.

(** A count divided by a positive count is the rational quotient. *)
Lemma div_counts (a n : nat) :
  JS.div (JS.ofCount a) (JS.ofCount (S n)) =
  JS.Finite (inject_Z (Z.of_nat a) / inject_Z (Z.of_nat (S n))).
Proof.
  unfold JS.div, JS.ofCount.
  now rewrite (qzero_false _ (count_succ_nonzero n)).
Qed.

Lemma max_finite (x y : Q) :
  exists q, JS.max (JS.Finite x) (JS.Finite y) = JS.Finite q /\ q == Qmax x y.
Proof.
  unfold JS.max. destruct (Qle_bool x y) eqn:E.
  - exists y. split; [reflexivity |].
    apply Qle_bool_iff in E. symmetry. now apply Q.max_r.
  - exists x. split; [reflexivity |].
    assert (H : y <= x).
    { apply Qlt_le_weak, Qnot_le_lt. intros H. apply Qle_bool_iff in H. congruence. }
    symmetry. now apply Q.max_l.
Qed.




End NumberFacts.

(* ------------------------------------------------------------------ *)
(** ** Facts about rounding to doubles                                  *)
(* ------------------------------------------------------------------ *)

Section Rounding.

Local Open Scope Q_scope.



Lemma roundHalfEven_comp (x y : Q) : x == y -> JS.roundHalfEven x = JS.roundHalfEven y.
Proof.
  intros H. unfold JS.roundHalfEven.
  rewrite (Qfloor_comp x y H).
  assert (Hc : (x - inject_Z (Qfloor y) ?= 1 # 2) =
               (y - inject_Z (Qfloor y) ?= 1 # 2)).
  { apply Qcompare_comp; [now rewrite H | reflexivity]. }
  now rewrite Hc.
Qed.

Lemma floor_bounds (x : Q) :
  inject_Z (Qfloor x) <= x /\ x < inject_Z (Qfloor x) + 1.
Proof.
  split; [apply Qfloor_le |].
  pose proof (Qlt_floor x) as H.
  rewrite inject_Z_plus in H. exact H.
Qed.

Lemma roundHalfEven_error (x : Q) :
  x - (1 # 2) <= inject_Z (JS.roundHalfEven x) <= x + (1 # 2).
Proof.
  unfold JS.roundHalfEven. destruct (floor_bounds x) as [Hlo Hhi].
  destruct (Qcompare_spec (x - inject_Z (Qfloor x)) (1 # 2)) as [E | E | E].
  - destruct (Z.even (Qfloor x));
      [| rewrite inject_Z_plus; change (inject_Z 1) with 1]; lra.
  - lra.
  - rewrite inject_Z_plus. change (inject_Z 1) with 1. lra.
Qed.

Lemma roundHalfEven_mono (x y : Q) :
  x <= y -> (JS.roundHalfEven x <= JS.roundHalfEven y)%Z.
Proof.
  intros Hxy.
  pose proof (Qfloor_resp_le x y Hxy) as Hf.
  destruct (Z.eq_dec (Qfloor x) (Qfloor y)) as [Heq | Hne].
  - unfold JS.roundHalfEven. rewrite Heq.
    destruct (Qcompare_spec (x - inject_Z (Qfloor y)) (1 # 2)) as [Ex | Ex | Ex];
      destruct (Qcompare_spec (y - inject_Z (Qfloor y)) (1 # 2)) as [Ey | Ey | Ey];
      try lia; try (exfalso; lra);
      destruct (Z.even (Qfloor y)); lia.
  - assert (Hlt : (Qfloor x + 1 <= Qfloor y)%Z) by lia.
    assert (Hx : (JS.roundHalfEven x <= Qfloor x + 1)%Z).
    { unfold JS.roundHalfEven.
      destruct (Qcompare (x - inject_Z (Qfloor x)) (1 # 2));
        [destruct (Z.even (Qfloor x)) | |]; lia. }
    assert (Hy : (Qfloor y <= JS.roundHalfEven y)%Z).
    { unfold JS.roundHalfEven.
      destruct (Qcompare (y - inject_Z (Qfloor y)) (1 # 2));
        [destruct (Z.even (Qfloor y)) | |]; lia. }
    lia.
Qed.

Lemma roundHalfEven_Z (z : Z) : JS.roundHalfEven (inject_Z z) = z.
Proof.
  unfold JS.roundHalfEven. rewrite Qfloor_Z.
  destruct (Qcompare_spec (inject_Z z - inject_Z z) (1 # 2)) as [E | E | E].
  - exfalso. lra.
  - reflexivity.
  - exfalso. lra.
Qed.

Lemma pow2_pos (e : Z) : 0 < JS.pow2 e.
Proof. apply Qpower_0_lt. reflexivity. Qed.

Lemma pow2_add (a b : Z) : JS.pow2 (a + b) == JS.pow2 a * JS.pow2 b.
Proof. apply Qpower_plus. discriminate. Qed.

Lemma pow2_cancel (e : Z) : JS.pow2 (- e) * JS.pow2 e == 1.
Proof.
  rewrite <- pow2_add. replace (- e + e)%Z with 0%Z by lia. reflexivity.
Qed.

Lemma pow2_Z (n : Z) : (0 <= n)%Z -> JS.pow2 n == inject_Z (2 ^ n).
Proof. intros H. unfold JS.pow2. now rewrite Zpower_Qpower. Qed.

Lemma pow2_le (a b : Z) : (a <= b)%Z -> JS.pow2 a <= JS.pow2 b.
Proof. intros H. apply Qpower_le_compat_l; [exact H | discriminate]. Qed.

Lemma pow2_lt (a b : Z) : (a < b)%Z -> JS.pow2 a < JS.pow2 b.
Proof. intros H. apply Qpower_lt_compat_l; [exact H | reflexivity]. Qed.

Lemma pow2_lt_inv (a b : Z) : JS.pow2 a < JS.pow2 b -> (a < b)%Z.
Proof.
  intros H. destruct (Z_lt_le_dec a b) as [Hlt | Hge]; [exact Hlt |].
  exfalso. apply (Qlt_not_le _ _ H). now apply pow2_le.
Qed.

Lemma scaled_back (q : Q) (e : Z) : q * JS.pow2 (- e) * JS.pow2 e == q.
Proof. rewrite <- Qmult_assoc, pow2_cancel. ring. Qed.


Lemma Qnum_Qden (q : Q) : q * inject_Z (Zpos (Qden q)) == inject_Z (Qnum q).
Proof.
  destruct q as [a b]. unfold Qeq, Qmult, inject_Z. cbn [Qnum Qden]. lia.
Qed.

Lemma ilog2_spec (q : Q) :
  0 < q -> JS.pow2 (JS.ilog2 q) <= q /\ q < JS.pow2 (JS.ilog2 q + 1).
Proof.
  intros Hq.
  assert (Ha : (0 < Qnum q)%Z).
  { destruct q as [a b]. unfold Qlt in Hq. cbn in Hq |- *. lia. }
  pose proof (Z.log2_spec (Qnum q) Ha) as [Ha1 Ha2].
  pose proof (Z.log2_spec (Zpos (Qden q)) (Pos2Z.is_pos _)) as [Hb1 Hb2].
  pose proof (Z.log2_nonneg (Qnum q)) as Hla.
  pose proof (Z.log2_nonneg (Zpos (Qden q))) as Hlb.
  set (la := Z.log2 (Qnum q)) in *. set (lb := Z.log2 (Zpos (Qden q))) in *.
  pose proof (Qnum_Qden q) as Hqb.
  assert (Hup : q < JS.pow2 (la - lb + 1)).
  { assert (H1 : q * JS.pow2 lb < JS.pow2 (la + 1)).
    { apply Qle_lt_trans with (y := inject_Z (Qnum q)).
      - rewrite <- Hqb. apply Qmult_le_l; [exact Hq |].
        rewrite pow2_Z by exact Hlb. rewrite <- Zle_Qle. exact Hb1.
      - rewrite pow2_Z by lia. rewrite <- Zlt_Qlt.
        replace (la + 1)%Z with (Z.succ la) by lia. exact Ha2. }
    replace (la - lb + 1)%Z with ((la + 1) + - lb)%Z by lia.
    rewrite pow2_add.
    apply Qmult_lt_r with (z := JS.pow2 lb); [apply pow2_pos |].
    rewrite <- Qmult_assoc, pow2_cancel, Qmult_1_r. exact H1. }
  assert (Hdown : JS.pow2 (la - lb - 1) <= q).
  { assert (H1 : JS.pow2 la <= q * JS.pow2 (lb + 1)).
    { apply Qle_trans with (y := inject_Z (Qnum q)).
      - rewrite pow2_Z by exact Hla. rewrite <- Zle_Qle. exact Ha1.
      - rewrite <- Hqb. apply Qmult_le_l; [exact Hq |].
        rewrite pow2_Z by lia. rewrite <- Zle_Qle.
        replace (lb + 1)%Z with (Z.succ lb) by lia. lia. }
    replace (la - lb - 1)%Z with (la + - (lb + 1))%Z by lia.
    rewrite pow2_add.
    apply Qmult_le_r with (z := JS.pow2 (lb + 1)); [apply pow2_pos |].
    rewrite <- Qmult_assoc, pow2_cancel, Qmult_1_r. exact H1. }
  unfold JS.ilog2. fold la lb.
  destruct (Qle_bool (JS.pow2 (la - lb)) q) eqn:E.
  - apply Qle_bool_iff in E. split; [exact E | exact Hup].
  - split; [exact Hdown |].
    replace (la - lb - 1 + 1)%Z with (la - lb)%Z by lia.
    apply Qnot_le_lt. intros H. apply Qle_bool_iff in H. congruence.
Qed.

Lemma ilog2_unique (q : Q) (l : Z) :
  JS.pow2 l <= q -> q < JS.pow2 (l + 1) -> JS.ilog2 q = l.
Proof.
  intros Hlo Hhi.
  assert (Hq : 0 < q) by (apply Qlt_le_trans with (y := JS.pow2 l); [apply pow2_pos | exact Hlo]).
  destruct (ilog2_spec q Hq) as [Hlo' Hhi'].
  assert (H1 : (l < JS.ilog2 q + 1)%Z).
  { apply pow2_lt_inv. apply Qle_lt_trans with (y := q); assumption. }
  assert (H2 : (JS.ilog2 q < l + 1)%Z).
  { apply pow2_lt_inv. apply Qle_lt_trans with (y := q); assumption. }
  lia.
Qed.

Lemma ilog2_comp (x y : Q) : 0 < x -> x == y -> JS.ilog2 x = JS.ilog2 y.
Proof.
  intros Hx Heq. symmetry. destruct (ilog2_spec x Hx) as [Hlo Hhi].
  apply ilog2_unique; rewrite <- Heq; assumption.
Qed.

Lemma ilog2_mono (x y : Q) : 0 < x -> x <= y -> (JS.ilog2 x <= JS.ilog2 y)%Z.
Proof.
  intros Hx Hxy.
  assert (Hy : 0 < y) by (apply Qlt_le_trans with (y := x); assumption).
  destruct (ilog2_spec x Hx) as [Hlo _]. destruct (ilog2_spec y Hy) as [_ Hhi].
  assert (H : (JS.ilog2 x < JS.ilog2 y + 1)%Z).
  { apply pow2_lt_inv. apply Qle_lt_trans with (y := x); [exact Hlo |].
    apply Qle_lt_trans with (y := y); assumption. }
  lia.
Qed.

Lemma Qabs_of_pos (q : Q) : 0 < q -> Qabs q == q.
Proof. intros H. apply Qabs_pos. now apply Qlt_le_weak. Qed.

Lemma round64_zero (q : Q) : q == 0 -> JS.round64 q == 0.
Proof.
  intros H. unfold JS.round64.
  rewrite (roundHalfEven_comp _ 0).
  2: { apply Qeq_trans with (y := 0 * JS.pow2 (- JS.ulpExponent q)); [| ring].
       apply Qmult_comp; [exact H | reflexivity]. }
  change (JS.roundHalfEven 0) with (JS.roundHalfEven (inject_Z 0)).
  rewrite roundHalfEven_Z. ring.
Qed.

Lemma ulpExponent_comp (x y : Q) :
  0 < x -> x == y -> JS.ulpExponent x = JS.ulpExponent y.
Proof.
  intros Hx Heq. unfold JS.ulpExponent.
  rewrite (ilog2_comp (Qabs x) (Qabs y)); [reflexivity | |].
  - rewrite Qabs_of_pos; assumption.
  - now rewrite Heq.
Qed.

Lemma round64_comp (x y : Q) : x == y -> JS.round64 x == JS.round64 y.
Proof.
  intros Heq.
  destruct (Qlt_le_dec 0 x) as [Hpos | Hle].
  - unfold JS.round64. rewrite (ulpExponent_comp x y Hpos Heq).
    rewrite (roundHalfEven_comp (x * JS.pow2 (- JS.ulpExponent y))
               (y * JS.pow2 (- JS.ulpExponent y))) by now rewrite Heq.
    reflexivity.
  - destruct (Qeq_dec x 0) as [H0 | Hn0].
    + rewrite (round64_zero x H0). symmetry. apply round64_zero. now rewrite <- Heq.
    + assert (Hneg : 0 < - x).
      { apply Qopp_lt_compat in Hle || idtac.
        destruct (Qlt_le_dec x 0) as [H | H]; [lra |].
        exfalso. apply Hn0. lra. }
      unfold JS.round64.
      assert (He : JS.ulpExponent x = JS.ulpExponent y).
      { unfold JS.ulpExponent.
        rewrite (ilog2_comp (Qabs x) (Qabs y)); [reflexivity | |].
        - rewrite Qabs_neg by lra. exact Hneg.
        - now rewrite Heq. }
      rewrite He.
      rewrite (roundHalfEven_comp (x * JS.pow2 (- JS.ulpExponent y))
                 (y * JS.pow2 (- JS.ulpExponent y))) by now rewrite Heq.
      reflexivity.
Qed.

Lemma round64_nonneg (q : Q) : 0 <= q -> 0 <= JS.round64 q.
Proof.
  intros H. unfold JS.round64.
  apply Qmult_le_0_compat; [| apply Qlt_le_weak, pow2_pos].
  change 0 with (inject_Z 0). rewrite <- Zle_Qle.
  rewrite <- (roundHalfEven_Z 0). apply roundHalfEven_mono.
  change (inject_Z 0) with 0.
  apply Qmult_le_0_compat; [exact H | apply Qlt_le_weak, pow2_pos].
Qed.

Lemma round64_nonpos (q : Q) : q <= 0 -> JS.round64 q <= 0.
Proof.
  intros H. unfold JS.round64.
  assert (Hz : (JS.roundHalfEven (q * JS.pow2 (- JS.ulpExponent q)) <= 0)%Z).
  { rewrite <- (roundHalfEven_Z 0). apply roundHalfEven_mono.
    change (inject_Z 0) with 0.
    pose proof (pow2_pos (- JS.ulpExponent q)) as Hp.
    assert (Hm : q * JS.pow2 (- JS.ulpExponent q) <= 0 * JS.pow2 (- JS.ulpExponent q)).
    { apply Qmult_le_compat_r; [exact H | now apply Qlt_le_weak]. }
    lra. }
  rewrite Zle_Qle in Hz. change (inject_Z 0) with 0 in Hz.
  pose proof (pow2_pos (JS.ulpExponent q)) as Hp.
  assert (Hm : inject_Z (JS.roundHalfEven (q * JS.pow2 (- JS.ulpExponent q))) *
               JS.pow2 (JS.ulpExponent q) <= 0 * JS.pow2 (JS.ulpExponent q)).
  { apply Qmult_le_compat_r; [exact Hz | now apply Qlt_le_weak]. }
  lra.
Qed.


Lemma ulpExponent_pos (q : Q) :
  0 < q -> JS.ulpExponent q = Z.max (JS.ilog2 q - 52) (-1074).
Proof.
  intros H. unfold JS.ulpExponent.
  rewrite (ilog2_comp (Qabs q) q); [reflexivity | |].
  - rewrite Qabs_of_pos; assumption.
  - now apply Qabs_of_pos.
Qed.

Lemma round64_mono_pos (x y : Q) :
  0 < x -> x <= y -> JS.round64 x <= JS.round64 y.
Proof.
  intros Hx Hxy.
  assert (Hy : 0 < y) by (apply Qlt_le_trans with (y := x); assumption).
  pose proof (ilog2_mono x y Hx Hxy) as Hl.
  destruct (ilog2_spec x Hx) as [_ Hxhi].
  destruct (ilog2_spec y Hy) as [Hylo _].
  unfold JS.round64.
  rewrite (ulpExponent_pos x Hx), (ulpExponent_pos y Hy).
  set (lx := JS.ilog2 x) in *. set (ly := JS.ilog2 y) in *.
  set (ex := Z.max (lx - 52) (-1074)). set (ey := Z.max (ly - 52) (-1074)).
  destruct (Z.eq_dec ex ey) as [He | He].
  - rewrite He. apply Qmult_le_compat_r; [| apply Qlt_le_weak, pow2_pos].
    rewrite <- Zle_Qle. apply roundHalfEven_mono.
    apply Qmult_le_compat_r; [exact Hxy | apply Qlt_le_weak, pow2_pos].
  - assert (Hey : ey = (ly - 52)%Z) by lia.
    assert (Hlt : (lx + 1 <= ly)%Z) by lia.
    assert (Hn : (0 <= ly - ex)%Z) by lia.
    apply Qle_trans with (y := JS.pow2 ly).
    + assert (H1 : x * JS.pow2 (- ex) <= inject_Z (2 ^ (ly - ex))).
      { rewrite <- pow2_Z by exact Hn.
        replace (ly - ex)%Z with (ly + - ex)%Z by lia. rewrite pow2_add.
        apply Qmult_le_compat_r; [| apply Qlt_le_weak, pow2_pos].
        apply Qle_trans with (y := JS.pow2 (lx + 1));
          [now apply Qlt_le_weak | now apply pow2_le]. }
      apply roundHalfEven_mono in H1. rewrite roundHalfEven_Z in H1.
      rewrite Zle_Qle in H1. rewrite <- pow2_Z in H1 by exact Hn.
      apply Qle_trans with (y := JS.pow2 (ly - ex) * JS.pow2 ex).
      * apply Qmult_le_compat_r; [exact H1 | apply Qlt_le_weak, pow2_pos].
      * rewrite <- pow2_add. replace (ly - ex + ex)%Z with ly by lia.
        apply Qle_refl.
    + assert (H1 : inject_Z (2 ^ 52) <= y * JS.pow2 (- ey)).
      { rewrite <- pow2_Z by lia.
        replace 52%Z with (ly + - ey)%Z at 1 by lia. rewrite pow2_add.
        apply Qmult_le_compat_r; [exact Hylo | apply Qlt_le_weak, pow2_pos]. }
      apply roundHalfEven_mono in H1. rewrite roundHalfEven_Z in H1.
      rewrite Zle_Qle in H1. rewrite <- pow2_Z in H1 by lia.
      apply Qle_trans with (y := JS.pow2 52 * JS.pow2 ey).
      * rewrite <- pow2_add. replace (52 + ey)%Z with ly by lia.
        apply Qle_refl.
      * apply Qmult_le_compat_r; [exact H1 | apply Qlt_le_weak, pow2_pos].
Qed.

(** Rounding keeps the order of two numbers of which the larger is not
    negative. *)
Lemma round64_mono (x y : Q) : x <= y -> 0 <= y -> JS.round64 x <= JS.round64 y.
Proof.
  intros Hxy Hy. destruct (Qlt_le_dec 0 x) as [Hx | Hx].
  - now apply round64_mono_pos.
  - apply Qle_trans with (y := 0);
      [now apply round64_nonpos | now apply round64_nonneg].
Qed.

Lemma round64_error (q : Q) :
  Qabs (JS.round64 q - q) <= JS.pow2 (JS.ulpExponent q) * (1 # 2).
Proof.
  unfold JS.round64. set (e := JS.ulpExponent q).
  pose proof (roundHalfEven_error (q * JS.pow2 (- e))) as [Hlo Hhi].
  pose proof (pow2_pos e) as Hp.
  pose proof (scaled_back q e) as Hback.
  set (r := inject_Z (JS.roundHalfEven (q * JS.pow2 (- e)))) in *.
  set (z := q * JS.pow2 (- e)) in *.
  apply Qabs_Qle_condition. split.
  - assert (H : (z - (1 # 2)) * JS.pow2 e <= r * JS.pow2 e).
    { apply Qmult_le_compat_r; [exact Hlo | now apply Qlt_le_weak]. }
    rewrite <- Hback. 
    apply Qle_trans with (y := (z - (1 # 2)) * JS.pow2 e - z * JS.pow2 e);
      [ring_simplify; apply Qle_refl | lra].
  - assert (H : r * JS.pow2 e <= (z + (1 # 2)) * JS.pow2 e).
    { apply Qmult_le_compat_r; [exact Hhi | now apply Qlt_le_weak]. }
    rewrite <- Hback.
    apply Qle_trans with (y := (z + (1 # 2)) * JS.pow2 e - z * JS.pow2 e);
      [lra | ring_simplify; apply Qle_refl].
Qed.

(** The relative error of rounding is at most 2^-53, up to the spacing
    of the smallest numbers. *)
Lemma round64_close (q : Q) :
  Qabs (JS.round64 q - q) <= Qabs q * JS.pow2 (-53) + JS.pow2 (-1075).
Proof.
  destruct (Qeq_dec q 0) as [H0 | Hn0].
  - assert (Hr : JS.round64 q - q == 0).
    { rewrite (round64_zero q H0). 
      apply Qeq_trans with (y := - q); [ring |].
      apply Qeq_trans with (y := - 0); [now apply Qopp_comp | reflexivity]. }
    rewrite (Qabs_wd _ _ Hr). 
    pose proof (Qabs_nonneg q) as Ha.
    assert (Hm : 0 <= Qabs q * JS.pow2 (-53)).
    { apply Qmult_le_0_compat; [exact Ha | apply Qlt_le_weak, pow2_pos]. }
    pose proof (pow2_pos (-1075)) as Hp. 
    change (Qabs 0) with 0. lra.
  - assert (Ha : 0 < Qabs q).
    { destruct (Qlt_le_dec 0 (Qabs q)) as [H | H]; [exact H |].
      exfalso. apply Hn0. apply Qabs_Qle_condition in H. lra. }
    apply Qle_trans with (y := JS.pow2 (JS.ulpExponent q) * (1 # 2));
      [apply round64_error |].
    unfold JS.ulpExponent.
    destruct (ilog2_spec (Qabs q) Ha) as [Hlo _].
    set (l := JS.ilog2 (Qabs q)) in *.
    assert (Hhalf : forall e, JS.pow2 e * (1 # 2) == JS.pow2 (e + -1)).
    { intros e. rewrite pow2_add. reflexivity. }
    rewrite Hhalf.
    assert (Hm : 0 <= Qabs q * JS.pow2 (-53)).
    { apply Qmult_le_0_compat;
        [now apply Qlt_le_weak | apply Qlt_le_weak, pow2_pos]. }
    pose proof (pow2_pos (-1075)) as Hp.
    destruct (Z.max_spec (l - 52) (-1074)) as [[Hc ->] | [Hc ->]].
    + change (-1074 + -1)%Z with (-1075)%Z. lra.
    + replace (l - 52 + -1)%Z with (l + -53)%Z by lia. rewrite pow2_add.
      assert (H : JS.pow2 l * JS.pow2 (-53) <= Qabs q * JS.pow2 (-53)).
      { apply Qmult_le_compat_r; [exact Hlo | apply Qlt_le_weak, pow2_pos]. }
      lra.
Qed.


(** An operation whose exact result is far from the largest double
    returns the rounded result. *)
Lemma toDouble_finite (q : Q) :
  Qabs q <= JS.pow2 1000 -> JS.toDouble (JS.Finite q) = JS.Finite (JS.round64 q).
Proof.
  intros Hq. unfold JS.toDouble.
  destruct (Qle_bool (JS.pow2 1024) (Qabs (JS.round64 q))) eqn:E; [| reflexivity].
  exfalso. apply Qle_bool_iff in E.
  pose proof (round64_close q) as Hc.
  pose proof (Qabs_triangle (JS.round64 q - q) q) as Ht.
  assert (Hsum : JS.round64 q - q + q == JS.round64 q) by ring.
  rewrite (Qabs_wd _ _ Hsum) in Ht.
  pose proof (Qabs_nonneg q) as Ha.
  assert (Hm : Qabs q * JS.pow2 (-53) <= JS.pow2 1000 * JS.pow2 (-53)).
  { apply Qmult_le_compat_r; [exact Hq | apply Qlt_le_weak, pow2_pos]. }
  assert (Hbig : JS.pow2 1000 + JS.pow2 1000 * JS.pow2 (-53) + JS.pow2 (-1075) < JS.pow2 1024).
  { vm_compute. reflexivity. }
  lra.
Qed.

Lemma round64_Z_small (z : Z) :
  (0 <= z < 2 ^ 53)%Z -> JS.round64 (inject_Z z) == inject_Z z.
Proof.
  intros [Hlo Hhi].
  destruct (Z.eq_dec z 0) as [-> | Hnz]; [now apply round64_zero |].
  assert (Hpos : 0 < inject_Z z).
  { change 0 with (inject_Z 0). rewrite <- Zlt_Qlt. lia. }
  unfold JS.round64. rewrite (ulpExponent_pos _ Hpos).
  destruct (ilog2_spec _ Hpos) as [Hl _].
  assert (Hl52 : (JS.ilog2 (inject_Z z) <= 52)%Z).
  { assert (H : (JS.ilog2 (inject_Z z) < 53)%Z); [| lia].
    apply pow2_lt_inv. apply Qle_lt_trans with (y := inject_Z z); [exact Hl |].
    rewrite pow2_Z by lia. rewrite <- Zlt_Qlt. exact Hhi. }
  set (e := Z.max (JS.ilog2 (inject_Z z) - 52) (-1074)).
  assert (He : (e <= 0)%Z) by lia.
  assert (Hscaled : inject_Z z * JS.pow2 (- e) == inject_Z (z * 2 ^ (- e))).
  { rewrite inject_Z_mult, pow2_Z by lia. reflexivity. }
  rewrite (roundHalfEven_comp _ _ Hscaled), roundHalfEven_Z.
  rewrite inject_Z_mult, <- pow2_Z by lia.
  rewrite <- Qmult_assoc, pow2_cancel. ring.
Qed.

End Rounding.

(* ------------------------------------------------------------------ *)
(** ** Security posture                                                *)
(* ------------------------------------------------------------------ *)

Section SecurityPosture.

Import EventMetricsService.
Local Open Scope Q_scope.





End SecurityPosture.

(* ------------------------------------------------------------------ *)
(** ** The Heuristic Quality Assessor: score and confidence (C7)       *)
(* ------------------------------------------------------------------ *)

Section QualityAssessor.

Import AIEnhancedFileProcessingService.
Local Open Scope Q_scope.

Lemma max_one_succ (n : nat) : exists m, Nat.max n 1 = S m.
Proof.
  destruct n as [| n]; [now exists 0%nat |].
  exists n. simpl. now rewrite Nat.max_0_r.
Qed.

(** In exact arithmetic the local [qualityScore] is finite and is the
    formula of the specification. *)
Lemma qualityScore_spec (c n : nat) :
  exists q, qualityScore JS.exact c n = JS.Finite q /\
            q == specQualityScore c n.
Proof.
  unfold qualityScore, issueRatio, specQualityScore, JS.exact.
  destruct (max_one_succ n) as [m ->].
  rewrite div_counts. cbn [JS.mul JS.sub].
  match goal with
  | |- context [JS.max (JS.Finite ?x) (JS.Finite ?y)] =>
      destruct (max_finite x y) as [q [Hq Heq]]
  end.
  exists q. split; [exact Hq |]. rewrite Heq.
  apply Q.max_compat; [reflexivity |].
  field. apply count_succ_nonzero.
Qed.


(** *** The rounded steps of the score *)

Lemma inner_mono (t t' : Q) :
  t <= t' -> 0 <= t' ->
  JS.round64 (JS.round64 t * 100) <= JS.round64 (JS.round64 t' * 100).
Proof.
  intros Htt Ht'.
  assert (H1 : JS.round64 t <= JS.round64 t') by now apply round64_mono.
  assert (H0 : 0 <= JS.round64 t') by now apply round64_nonneg.
  apply round64_mono; lra.
Qed.

Lemma roundedScore_at_most (t bound limit : Q) :
  bound <= t -> 0 <= bound -> 0 <= limit ->
  100 - JS.round64 (JS.round64 bound * 100) <= limit ->
  JS.round64 limit <= limit ->
  roundedScore t <= limit.
Proof.
  intros Hbt Hb Hl Hc Hr. unfold roundedScore.
  assert (Ht : 0 <= t) by lra.
  pose proof (inner_mono bound t Hbt Ht) as Hin.
  apply Qle_trans with (y := JS.round64 limit); [| exact Hr].
  apply round64_mono; lra.
Qed.

Lemma roundedScore_more_than (t bound limit : Q) :
  0 <= t -> t <= bound ->
  limit < roundedScore bound ->
  0 <= 100 - JS.round64 (JS.round64 bound * 100) ->
  limit < roundedScore t.
Proof.
  intros Ht Htb Hc Hpos. unfold roundedScore in *.
  assert (Hb : 0 <= bound) by lra.
  pose proof (inner_mono t bound Htb Hb) as Hin.
  apply Qlt_le_trans
    with (y := JS.round64 (100 - JS.round64 (JS.round64 bound * 100)));
    [exact Hc |].
  apply round64_mono; lra.
Qed.

Lemma roundedScore_le_80 (t : Q) : 1 # 5 <= t -> roundedScore t <= 80.
Proof.
  intros Ht. apply (roundedScore_at_most t (1 # 5) 80); try lra.
  - vm_compute. discriminate.
  - vm_compute. discriminate.
Qed.

Lemma roundedScore_gt_80 (t : Q) :
  0 <= t -> t <= (1 # 5) - thresholdMargin -> 80 < roundedScore t.
Proof.
  intros H0 Ht.
  apply (roundedScore_more_than t ((1 # 5) - thresholdMargin) 80); try lra.
  - vm_compute. reflexivity.
  - vm_compute. discriminate.
Qed.

Lemma roundedScore_le_60 (t : Q) : 2 # 5 <= t -> roundedScore t <= 60.
Proof.
  intros Ht. apply (roundedScore_at_most t (2 # 5) 60); try lra.
  - vm_compute. discriminate.
  - vm_compute. discriminate.
Qed.

Lemma roundedScore_gt_60 (t : Q) :
  0 <= t -> t <= (2 # 5) - thresholdMargin -> 60 < roundedScore t.
Proof.
  intros H0 Ht.
  apply (roundedScore_more_than t ((2 # 5) - thresholdMargin) 60); try lra.
  - vm_compute. reflexivity.
  - vm_compute. discriminate.
Qed.

Lemma roundedScore_le_100 (t : Q) : 0 <= t -> roundedScore t <= 100.
Proof.
  intros Ht. apply (roundedScore_at_most t 0 100); try lra.
  - vm_compute. discriminate.
  - vm_compute. discriminate.
Qed.

Lemma roundedScore_le_0 (t : Q) : 1 <= t -> roundedScore t <= 0.
Proof.
  intros Ht. apply (roundedScore_at_most t 1 0); try lra.
  - vm_compute. discriminate.
  - vm_compute. discriminate.
Qed.

Lemma abs_le (x b : Q) : Qabs x <= b -> - b <= x /\ x <= b.
Proof. intros H. now apply Qabs_Qle_condition. Qed.

(** Below a ratio of 1 the three roundings move the score by less than
    10^-13. *)
Lemma roundedScore_close (t : Q) :
  0 <= t -> t <= 1 ->
  0 <= roundedScore t /\
  Qabs (roundedScore t - (100 - 100 * t)) <= 1 # 10 ^ 13.
Proof.
  intros H0 H1. unfold roundedScore.
  set (r1 := JS.round64 t). set (r2 := JS.round64 (r1 * 100)).
  set (d := 100 - r2).
  assert (Hr1 : 0 <= r1 <= 1).
  { split; [now apply round64_nonneg |].
    apply Qle_trans with (y := JS.round64 1); [apply round64_mono; lra |].
    vm_compute. discriminate. }
  assert (Hr2 : 0 <= r2 <= 100).
  { split; [apply round64_nonneg; lra |].
    apply Qle_trans with (y := JS.round64 100); [apply round64_mono; lra |].
    vm_compute. discriminate. }
  assert (Hd : 0 <= d <= 100) by (unfold d; lra).
  split; [apply round64_nonneg; lra |].
  pose proof (round64_close t) as E1. fold r1 in E1.
  pose proof (round64_close (r1 * 100)) as E2. fold r2 in E2.
  pose proof (round64_close d) as E3.
  rewrite (Qabs_pos t) in E1 by lra.
  rewrite (Qabs_pos (r1 * 100)) in E2 by lra.
  rewrite (Qabs_pos d) in E3 by lra.
  apply abs_le in E1, E2, E3.
  assert (Hu : JS.pow2 (-53) == 1 # 2 ^ 53) by (vm_compute; reflexivity).
  assert (He : JS.pow2 (-1075) <= 1 # 2 ^ 1000) by (vm_compute; discriminate).
  pose proof (pow2_pos (-1075)) as Hpe.
  set (u := JS.pow2 (-53)) in *. set (eta := JS.pow2 (-1075)) in *.
  assert (Hut : t * u <= u).
  { assert (H : t * u <= 1 * u).
    { apply Qmult_le_compat_r; [exact H1 | rewrite Hu; discriminate]. }
    lra. }
  assert (Hut0 : 0 <= t * u).
  { apply Qmult_le_0_compat; [exact H0 | rewrite Hu; discriminate]. }
  assert (Hup : r1 * 100 * u <= 100 * u).
  { apply Qmult_le_compat_r; [lra | rewrite Hu; discriminate]. }
  assert (Hup0 : 0 <= r1 * 100 * u).
  { apply Qmult_le_0_compat; [lra | rewrite Hu; discriminate]. }
  assert (Hud : d * u <= 100 * u).
  { apply Qmult_le_compat_r; [lra | rewrite Hu; discriminate]. }
  assert (Hud0 : 0 <= d * u).
  { apply Qmult_le_0_compat; [lra | rewrite Hu; discriminate]. }
  assert (Hsmall : 300 * u + 102 * eta <= 1 # 10 ^ 13).
  { assert (H : 300 * (1 # 2 ^ 53) + 102 * (1 # 2 ^ 1000) <= 1 # 10 ^ 13)
      by (vm_compute; discriminate).
    rewrite Hu. lra. }
  apply Qabs_Qle_condition. unfold d in *. split; lra.
Qed.

(** *** From the counts to the ratio *)

Lemma correctionRatio_bounds (c n : nat) :
  (Z.of_nat c < 2 ^ 53)%Z ->
  0 <= correctionRatio c n <= inject_Z (2 ^ 53).
Proof.
  intros Hc. unfold correctionRatio. destruct (max_one_succ n) as [m ->].
  assert (Hm : 0 < inject_Z (Z.of_nat (S m))) by (unfold Qlt; simpl; lia).
  assert (Hm1 : 1 <= inject_Z (Z.of_nat (S m))).
  { change 1 with (inject_Z 1). rewrite <- Zle_Qle. lia. }
  assert (Hc0 : 0 <= inject_Z (Z.of_nat c)).
  { change 0 with (inject_Z 0). rewrite <- Zle_Qle. lia. }
  assert (Hc1 : inject_Z (Z.of_nat c) <= inject_Z (2 ^ 53)).
  { rewrite <- Zle_Qle. lia. }
  split.
  - apply Qle_shift_div_l; [exact Hm | lra].
  - apply Qle_shift_div_r; [exact Hm |].
    assert (H : inject_Z (2 ^ 53) * 1 <=
                inject_Z (2 ^ 53) * inject_Z (Z.of_nat (S m))).
    { apply Qmult_le_l; [reflexivity | exact Hm1]. }
    lra.
Qed.

(** The ratio against a threshold [k]/5, in counts. *)
Lemma correctionRatio_threshold (c n : nat) (k : Z) :
  ((5 * Z.of_nat c < k * Z.of_nat (Nat.max n 1))%Z ->
   (Z.of_nat n < 2 ^ 40)%Z ->
   correctionRatio c n <= (k # 5) - thresholdMargin) /\
  ((k * Z.of_nat (Nat.max n 1) <= 5 * Z.of_nat c)%Z ->
   k # 5 <= correctionRatio c n).
Proof.
  unfold correctionRatio.
  assert (Hmax : (Z.of_nat n < 2 ^ 40)%Z ->
                 (Z.of_nat (Nat.max n 1) <= 2 ^ 40)%Z) by lia.
  destruct (max_one_succ n) as [m Hm]. rewrite Hm in *.
  assert (Hpos : 0 < inject_Z (Z.of_nat (S m))) by (unfold Qlt; simpl; lia).
  set (mq := inject_Z (Z.of_nat (S m))) in *.
  set (cq := inject_Z (Z.of_nat c)).
  assert (Hk5 : k # 5 == inject_Z k * (1 # 5)).
  { unfold Qeq, Qmult, inject_Z. cbn [Qnum Qden]. lia. }
  assert (Hprod : inject_Z (k * Z.of_nat (S m)) == inject_Z k * mq).
  { unfold mq. now rewrite inject_Z_mult. }
  assert (Hfive : inject_Z (5 * Z.of_nat c) == 5 * cq).
  { unfold cq. now rewrite inject_Z_mult. }
  split.
  - intros Hlt Hn. specialize (Hmax Hn).
    assert (Hle : (5 * Z.of_nat c + 1 <= k * Z.of_nat (S m))%Z) by lia.
    rewrite Zle_Qle, inject_Z_plus, Hprod, Hfive in Hle.
    change (inject_Z 1) with 1 in Hle.
    assert (Hm40 : mq <= inject_Z (2 ^ 40)).
    { unfold mq. rewrite <- Zle_Qle. exact Hmax. }
    assert (HM : thresholdMargin * mq <= 1 # 5).
    { apply Qle_trans with (y := thresholdMargin * inject_Z (2 ^ 40)).
      - apply Qmult_le_l; [reflexivity | exact Hm40].
      - vm_compute. discriminate. }
    apply Qle_shift_div_r; [exact Hpos |].
    assert (Hexp : ((k # 5) - thresholdMargin) * mq ==
                   (1 # 5) * (inject_Z k * mq) - thresholdMargin * mq).
    { rewrite Hk5. ring. }
    rewrite Hexp.
    set (P := inject_Z k * mq) in *. set (M := thresholdMargin * mq) in *.
    lra.
  - intros Hge.
    rewrite Zle_Qle, Hprod, Hfive in Hge.
    apply Qle_shift_div_l; [exact Hpos |].
    assert (Hexp : (k # 5) * mq == (1 # 5) * (inject_Z k * mq)).
    { rewrite Hk5. ring. }
    rewrite Hexp.
    set (P := inject_Z k * mq) in *.
    lra.
Qed.

(** *** The score of the program *)

Lemma abs_of_nonneg (q bound : Q) : 0 <= q -> q <= bound -> Qabs q <= bound.
Proof. intros H0 H1. now rewrite (Qabs_pos q H0). Qed.

Lemma small_is_finite (q bound : Q) :
  Qabs q <= bound -> bound <= JS.pow2 1000 ->
  JS.toDouble (JS.Finite q) = JS.Finite (JS.round64 q).
Proof.
  intros Hq Hb. apply toDouble_finite.
  now apply Qle_trans with (y := bound).
Qed.

Lemma qualityScore_double (c n : nat) :
  (Z.of_nat c < 2 ^ 53)%Z ->
  issueRatio JS.toDouble c n =
    JS.Finite (JS.round64 (correctionRatio c n)) /\
  qualityScore JS.toDouble c n =
    JS.max (JS.Finite 0) (JS.Finite (roundedScore (correctionRatio c n))).
Proof.
  intros Hc.
  destruct (correctionRatio_bounds c n Hc) as [Ht0 Ht1].
  assert (Hratio : issueRatio JS.toDouble c n =
                   JS.Finite (JS.round64 (correctionRatio c n))).
  { unfold issueRatio, correctionRatio in *.
    destruct (max_one_succ n) as [m Hm]. rewrite Hm in *.
    rewrite div_counts.
    apply (small_is_finite _ (inject_Z (2 ^ 53))).
    - now apply abs_of_nonneg.
    - vm_compute. discriminate. }
  split; [exact Hratio |].
  unfold qualityScore. rewrite Hratio. cbn [JS.mul].
  set (t := correctionRatio c n) in *.
  assert (Hr1 : 0 <= JS.round64 t <= inject_Z (2 ^ 53)).
  { split; [now apply round64_nonneg |].
    apply Qle_trans with (y := JS.round64 (inject_Z (2 ^ 53)));
      [apply round64_mono; [exact Ht1 | discriminate] |].
    vm_compute. discriminate. }
  rewrite (small_is_finite (JS.round64 t * 100) (inject_Z (2 ^ 60))).
  2: { assert (H : inject_Z (2 ^ 53) * 100 <= inject_Z (2 ^ 60))
         by (vm_compute; discriminate).
       apply abs_of_nonneg; lra. }
  2: { vm_compute. discriminate. }
  cbn [JS.sub].
  assert (Hr2 : 0 <= JS.round64 (JS.round64 t * 100) <= inject_Z (2 ^ 60)).
  { split; [apply round64_nonneg; lra |].
    apply Qle_trans with (y := JS.round64 (inject_Z (2 ^ 60))).
    - apply round64_mono; [| discriminate].
      assert (H : inject_Z (2 ^ 53) * 100 <= inject_Z (2 ^ 60))
        by (vm_compute; discriminate).
      lra.
    - vm_compute. discriminate. }
  rewrite (small_is_finite (100 - JS.round64 (JS.round64 t * 100))
             (inject_Z (2 ^ 61))).
  - reflexivity.
  - apply Qabs_Qle_condition.
    assert (H : inject_Z (2 ^ 60) + 100 <= inject_Z (2 ^ 61))
      by (vm_compute; discriminate).
    assert (H' : 100 <= inject_Z (2 ^ 61)) by (vm_compute; discriminate).
    lra.
  - vm_compute. discriminate.
Qed.


(** The ratio below a threshold [k]/5, in counts. *)
Lemma correctionRatio_below (c n : nat) (k : Z) :
  correctionRatio c n < k # 5 <->
  (5 * Z.of_nat c < k * Z.of_nat (Nat.max n 1))%Z.
Proof.
  split.
  - intros Hlt.
    destruct (Z_lt_le_dec (5 * Z.of_nat c) (k * Z.of_nat (Nat.max n 1)))
      as [H | H]; [exact H |].
    exfalso. apply (proj2 (correctionRatio_threshold c n k)) in H.
    now apply (Qlt_not_le _ _ Hlt).
  - intros Hlt. unfold correctionRatio.
    destruct (max_one_succ n) as [m Hm]. rewrite Hm in *.
    assert (Hpos : 0 < inject_Z (Z.of_nat (S m))) by (unfold Qlt; simpl; lia).
    apply Qlt_shift_div_r; [exact Hpos |].
    unfold Qlt, Qmult, inject_Z. cbn [Qnum Qden]. lia.
Qed.

(** The formula of the specification above a level 100 - 20 k, in
    counts. *)
Lemma specQualityScore_above (c n : nat) (k : Z) :
  (1 <= k <= 5)%Z ->
  inject_Z (100 - 20 * k) < specQualityScore c n <->
  (5 * Z.of_nat c < k * Z.of_nat (Nat.max n 1))%Z.
Proof.
  intros Hk. rewrite <- correctionRatio_below.
  unfold specQualityScore, correctionRatio.
  destruct (max_one_succ n) as [m Hm]. rewrite Hm.
  assert (Hnz : ~ inject_Z (Z.of_nat (S m)) == 0) by apply count_succ_nonzero.
  set (cq := inject_Z (Z.of_nat c)). set (mq := inject_Z (Z.of_nat (S m))) in *.
  assert (Hx : 100 - 100 * cq / mq == 100 - 100 * (cq / mq)) by (field; exact Hnz).
  assert (Hl : inject_Z (100 - 20 * k) == 100 - 100 * (k # 5)).
  { unfold Qeq, Qminus, Qplus, Qopp, Qmult, inject_Z. cbn [Qnum Qden]. lia. }
  assert (Hl0 : 0 <= inject_Z (100 - 20 * k)).
  { change 0 with (inject_Z 0). rewrite <- Zle_Qle. lia. }
  rewrite Q.max_lt_iff, Hx, Hl. rewrite Hl in Hl0.
  set (t := cq / mq). split.
  - intros [H | H]; [exfalso | ]; lra.
  - intros H. right. lra.
Qed.

(** The score of the program for a batch that is not astronomically
    large: it is finite, lies between 0 and 100, differs from the
    formula of the specification by less than 10^-13, and falls on the
    same side of the two thresholds as the formula. *)
Lemma qualityScore_double_facts (c n : nat) :
  (Z.of_nat c < 2 ^ 53)%Z ->
  exists s,
    qualityScore JS.toDouble c n = JS.Finite s /\
    0 <= s <= 100 /\
    Qabs (s - specQualityScore c n) <= 1 # 10 ^ 13 /\
    ((Z.of_nat n < 2 ^ 40)%Z ->
     (80 < specQualityScore c n -> 80 < s) /\
     (60 < specQualityScore c n -> 60 < s)) /\
    (specQualityScore c n <= 80 -> s <= 80) /\
    (specQualityScore c n <= 60 -> s <= 60).
Proof.
  intros Hc.
  destruct (qualityScore_double c n Hc) as [_ Hscore].
  destruct (correctionRatio_bounds c n Hc) as [Ht0 _].
  pose proof (specQualityScore_above c n 1) as H80. 
  pose proof (specQualityScore_above c n 2) as H60.
  change (inject_Z (100 - 20 * 1)) with 80 in H80.
  change (inject_Z (100 - 20 * 2)) with 60 in H60.
  specialize (H80 ltac:(lia)). specialize (H60 ltac:(lia)).
  pose proof (correctionRatio_threshold c n 1) as [T80a T80b].
  pose proof (correctionRatio_threshold c n 2) as [T60a T60b].
  assert (Hspec : specQualityScore c n ==
                  Qmax 0 (100 - 100 * correctionRatio c n)).
  { unfold specQualityScore, correctionRatio.
    apply Q.max_compat; [reflexivity |].
    destruct (max_one_succ n) as [m ->].
    field. apply count_succ_nonzero. }
  set (f := specQualityScore c n) in *.
  set (t := correctionRatio c n) in *.
  pose proof (roundedScore_le_100 t Ht0) as H100.
  assert (Hclose : 0 <= roundedScore t /\
                   Qabs (roundedScore t - f) <= 1 # 10 ^ 13 \/
                   roundedScore t <= 0 /\ f == 0).
  { destruct (Qlt_le_dec 1 t) as [Hbig | Hsmall].
    - right. split; [apply roundedScore_le_0; lra |].
      rewrite Hspec. apply Q.max_l. lra.
    - left. destruct (roundedScore_close t Ht0 Hsmall) as [Hr0 Hr].
      split; [exact Hr0 |].
      assert (Hf : f == 100 - 100 * t).
      { rewrite Hspec. apply Q.max_r. lra. }
      assert (Hd : roundedScore t - f == roundedScore t - (100 - 100 * t)).
      { rewrite Hf. reflexivity. }
      now rewrite (Qabs_wd _ _ Hd). }
  assert (Ha80 : (Z.of_nat n < 2 ^ 40)%Z -> 80 < f -> 80 < roundedScore t).
  { intros Hn Hf. apply roundedScore_gt_80; [exact Ht0 |].
    apply T80a; [now apply H80 | exact Hn]. }
  assert (Ha60 : (Z.of_nat n < 2 ^ 40)%Z -> 60 < f -> 60 < roundedScore t).
  { intros Hn Hf. apply roundedScore_gt_60; [exact Ht0 |].
    apply T60a; [now apply H60 | exact Hn]. }
  assert (Hb80 : f <= 80 -> roundedScore t <= 80).
  { intros Hf. apply roundedScore_le_80. apply T80b.
    destruct (Z_lt_le_dec (5 * Z.of_nat c) (1 * Z.of_nat (Nat.max n 1)))
      as [H | H]; [| exact H].
    apply H80 in H. exfalso. lra. }
  assert (Hb60 : f <= 60 -> roundedScore t <= 60).
  { intros Hf. apply roundedScore_le_60. apply T60b.
    destruct (Z_lt_le_dec (5 * Z.of_nat c) (2 * Z.of_nat (Nat.max n 1)))
      as [H | H]; [| exact H].
    apply H60 in H. exfalso. lra. }
  rewrite Hscore. unfold JS.max.
  set (r := roundedScore t) in *.
  assert (Heps : 0 <= 1 # 10 ^ 13) by discriminate.
  destruct (Qle_bool 0 r) eqn:E.
  - apply Qle_bool_iff in E. exists r. split; [reflexivity |].
    split; [lra |].
    split.
    { destruct Hclose as [[_ H] | [Hr Hf]]; [exact H |].
      assert (Hz : r - f == 0) by lra.
      rewrite (Qabs_wd _ _ Hz). exact Heps. }
    split; [intros Hn; split; auto |].
    split; assumption.
  - assert (Hneg : r < 0).
    { apply Qnot_le_lt. intros H. apply Qle_bool_iff in H. congruence. }
    exists 0. split; [reflexivity |].
    split; [lra |].
    destruct Hclose as [[H _] | [_ Hf]]; [exfalso; lra |].
    split.
    { assert (Hz : 0 - f == 0) by lra.
      rewrite (Qabs_wd _ _ Hz). exact Heps. }
    split.
    { intros Hn. split; intros H; exfalso; lra. }
    split; intros _; lra.
Qed.


(** *** From the batch to the counters *)

Local Close Scope Q_scope.

Lemma countMismatches_shift (pattern : JS.RegExp) (values : list string)
    (dataIssues : nat) :
  countMismatches pattern dataIssues values =
  dataIssues + countMismatches pattern 0 values.
Proof.
  unfold countMismatches. revert dataIssues.
  induction values as [| v values IH]; intros dataIssues; simpl.
  - lia.
  - destruct (JS.truthy v && negb (JS.test pattern v)).
    + rewrite IH, (IH 1). lia.
    + apply IH.
Qed.

Lemma checkRow_shift (dataIssues : nat) (line : string) :
  checkRow dataIssues line = dataIssues + checkRow 0 line.
Proof.
  unfold checkRow.
  destruct (Nat.ltb 2 (List.length (JS.split "," line)));
    destruct (Nat.ltb 4 (List.length (JS.split "," line)));
    repeat match goal with
           | |- context [countMismatches ?p ?k ?vs] =>
               lazymatch k with
               | 0 => fail
               | _ => rewrite (countMismatches_shift p vs k)
               end
           end; lia.
Qed.

Lemma fold_checkRow (ToNumber : JSON.t -> JS.Number) (rows : list string)
    (dataIssues : nat) :
  batchCorrections ToNumber (map DataRow rows) =
    Some (fold_left checkRow rows dataIssues - dataIssues) /\
  dataIssues <= fold_left checkRow rows dataIssues.
Proof.
  revert dataIssues.
  induction rows as [| row rows IH]; intros dataIssues; simpl.
  - split; [f_equal; lia | lia].
  - destruct (IH (checkRow dataIssues row)) as [Hsum Hle].
    destruct (IH 0) as [Hsum0 _].
    rewrite Hsum in Hsum0. injection Hsum0 as Hsum0.
    rewrite Hsum. rewrite (checkRow_shift dataIssues row) in *.
    split; [f_equal; lia | lia].
Qed.

Lemma assessEvent_shift (ToNumber : JSON.t -> JS.Number) (dataIssues : nat)
    (event : JSON.t) :
  assessEvent ToNumber dataIssues event =
  option_map (Nat.add dataIssues) (assessEvent ToNumber 0 event).
Proof.
  unfold assessEvent.
  destruct (JSON.get event "title") as [title |]; [| reflexivity].
  destruct (JSON.get event "attacker_ips") as [ips |]; [| reflexivity].
  destruct (JSON.get event "severity") as [severity |]; [| reflexivity].
  cbn [option_map].
  destruct (negb (JSON.truthy title) || lessThanTen ToNumber (JSON.length title));
    destruct (negb (JSON.truthy ips) || isZero (JSON.length ips));
    destruct (negb (JSON.truthy severity) || negb (isListed severity));
    f_equal; lia.
Qed.

Lemma fold_assess_none (ToNumber : JSON.t -> JS.Number) (events : list JSON.t) :
  fold_left
    (fun dataIssues event =>
       match dataIssues with
       | Some k => assessEvent ToNumber k event
       | None => None
       end) events None = None.
Proof. induction events as [| e events IH]; [reflexivity | exact IH]. Qed.

Lemma fold_assess (ToNumber : JSON.t -> JS.Number) (events : list JSON.t)
    (dataIssues : nat) :
  fold_left
    (fun dataIssues event =>
       match dataIssues with
       | Some k => assessEvent ToNumber k event
       | None => None
       end) events (Some dataIssues) =
  option_map (Nat.add dataIssues)
    (batchCorrections ToNumber (map JsonRecord events)).
Proof.
  revert dataIssues.
  induction events as [| e events IH]; intros dataIssues; simpl.
  - f_equal. lia.
  - rewrite (assessEvent_shift ToNumber dataIssues e).
    destruct (assessEvent ToNumber 0 e) as [k |]; cbn [option_map].
    + rewrite IH.
      destruct (batchCorrections ToNumber (map JsonRecord events)) as [total |];
        cbn [option_map]; [f_equal; lia | reflexivity].
    + apply fold_assess_none.
Qed.

(** The counters of the assessor are the corrections and the size of
    the batch. *)
Lemma countIssues_batch (ToNumber : JSON.t -> JS.Number)
    (JSON_parse : string -> option JSON.t) (file : File.t) :
  countIssues ToNumber JSON_parse file =
  match batchOf JSON_parse file with
  | Some records =>
      option_map (fun c => (c, List.length records))
        (batchCorrections ToNumber records)
  | None => None
  end.
Proof.
  unfold countIssues, batchOf, FileProcessingService.nonBlankLines.
  destruct (File.content file) as [content |]; [| reflexivity].
  destruct (JS.endsWith (JS.toLowerCase (File.name file)) ".csv").
  - set (lines := filter (fun line => JS.truthy (JS.trim line))
                         (JS.split JS.newline content)).
    destruct (fold_checkRow ToNumber (tl lines) 0) as [Hsum _].
    rewrite Hsum. cbn [option_map]. rewrite length_map, Nat.sub_0_r.
    f_equal. f_equal. destruct lines as [| l ls]; simpl; lia.
  - destruct (JS.endsWith (JS.toLowerCase (File.name file)) ".json");
      [| reflexivity].
    destruct (JSON_parse content) as [data |]; [| reflexivity].
    cbn [option_map]. unfold assessEvents. rewrite fold_assess, length_map.
    destruct (batchCorrections ToNumber (map JsonRecord (JSON.elements data)))
      as [total |]; reflexivity.
Qed.

Local Open Scope Q_scope.




(** When the file cannot be read or parsed, or holds an event that is
    [null], the assessment is the fixed fallback: no correction, score
    0, low confidence. *)
Lemma preValidateFileWithAI_fallback
    (ToNumber : JSON.t -> JS.Number) (JSON_parse : string -> option JSON.t)
    (file : File.t) :
  (batchOf JSON_parse file = None \/
   exists records,
     batchOf JSON_parse file = Some records /\
     batchCorrections ToNumber records = None) ->
  preValidateFileWithAI ToNumber JSON_parse file = fallback.
Proof.
  intros H. unfold preValidateFileWithAI. rewrite countIssues_batch.
  destruct H as [-> | [records [-> ->]]]; reflexivity.
Qed.


(** The program rounds the score that its doubles hold, not the score of
    the formula: with 109 corrections in 200 records the formula gives
    45.5, the doubles give a score just below it, and the report says
    45. *)
Lemma reported_score_rounds_the_double :
  specQualityScore 109 200 == 91 # 2 /\
  AIProcessingResult.dataQualityScore (report JS.toDouble 109 200) =
    JS.Finite 45 /\
  AIProcessingResult.dataQualityScore (report JS.exact 109 200) =
    JS.Finite 46.
Proof.
  split; [vm_compute; reflexivity |].
  split; vm_compute; reflexivity.
Qed.

End QualityAssessor.

Section RecordCorrections.

Import AIEnhancedFileProcessingService.

(** C8, as stated, on an event with a title of eight characters, no
    attacker addresses and no severity: it adds 3 to the count, not 2. *)
Lemma short_title_without_severity_adds_three :
  JsonEvent.title shortTitleOnly = Some "DDoS 001" /\
  String.length "DDoS 001" = 8 /\
  JsonEvent.attacker_ips shortTitleOnly = None /\
  checkEvent 0 shortTitleOnly = 3 /\
  ~ (forall dataIssues,
        checkEvent dataIssues shortTitleOnly = dataIssues + 2).
Proof.
  repeat split. intros H. specialize (H 0). discriminate H.
Qed.

(** C8, amended.  A JSON event whose title has exactly eight characters
    and whose attacker list is empty or absent adds exactly 2 to the
    count when its severity is one of low, medium, high and critical,
    and exactly 3 when its severity is absent or any other text. *)
Theorem checkEvent_short_title_no_attackers
    (event : JsonEvent.t) (title : string) (dataIssues : nat) :
  JsonEvent.title event = Some title ->
  String.length title = 8 ->
  JsonEvent.attacker_ips event = None \/
  JsonEvent.attacker_ips event = Some [] ->
  (forall severity,
      JsonEvent.severity event = Some severity ->
      In severity severities ->
      checkEvent dataIssues event = dataIssues + 2) /\
  (JsonEvent.severity event = None \/
   (exists severity,
       JsonEvent.severity event = Some severity /\
       ~ In severity severities) ->
   checkEvent dataIssues event = dataIssues + 3).
Proof.
  intros Htitle Hlen Hips. unfold checkEvent. rewrite Htitle, Hlen.
  assert (Htruthy : JS.truthy title = true)
    by (destruct title; [discriminate Hlen | reflexivity]).
  rewrite Htruthy. cbn [negb orb Nat.ltb Nat.leb].
  assert (Hips' : match JsonEvent.attacker_ips event with
                  | Some ips =>
                      if Nat.eqb (List.length ips) 0
                      then dataIssues + 1 + 1 else dataIssues + 1
                  | None => dataIssues + 1 + 1
                  end = dataIssues + 2)
    by (destruct Hips as [-> | ->]; simpl; lia).
  rewrite Hips'. split.
  - intros severity -> Hin.
    assert (Hex : existsb (String.eqb severity) severities = true).
    { apply existsb_exists. exists severity. split; [exact Hin |].
      apply String.eqb_refl. }
    rewrite Hex.
    assert (Hnonempty : JS.truthy severity = true).
    { destruct severity; [| reflexivity].
      simpl in Hin. destruct Hin as [H | [H | [H | [H | []]]]]; discriminate H. }
    rewrite Hnonempty. reflexivity.
  - intros [-> | [severity [-> Hnot]]]; [lia |].
    assert (Hex : existsb (String.eqb severity) severities = false).
    { destruct (existsb (String.eqb severity) severities) eqn:E; [| reflexivity].
      apply existsb_exists in E. destruct E as [x [Hin Hx]].
      apply String.eqb_eq in Hx. subst x. contradiction. }
    rewrite Hex, orb_true_r. lia.
Qed.

Lemma checkEvent_short_title_no_attackers_witness :
  checkEvent 0 shortTitleHigh = 2 /\ checkEvent 0 shortTitleOnly = 3.
Proof.
  split.
  - apply (proj1 (checkEvent_short_title_no_attackers shortTitleHigh
                    "DDoS 001" 0 eq_refl eq_refl (or_introl eq_refl))
             "high" eq_refl).
    simpl. tauto.
  - apply (proj2 (checkEvent_short_title_no_attackers shortTitleOnly
                    "DDoS 001" 0 eq_refl eq_refl (or_introl eq_refl))).
    left. reflexivity.
Defined.


End RecordCorrections.

(* ------------------------------------------------------------------ *)
(** ** Structural validation of CSV files                              *)
(* ------------------------------------------------------------------ *)

Section CsvValidation.

Import FileProcessingService.

(** C9, as stated, on a file that is only a header without the
    attacker column: the file is rejected, but with the message that
    asks for a header and a data row, which does not name the column. *)
Lemma header_only_file_message :
  In "attacker_ips" requiredColumns /\
  nonBlankLines headerOnly = [ "title,description" ] /\
  JS.includes (JS.toLowerCase "title,description") "attacker_ips" = false /\
  validateCSVContent headerOnly =
    Thrown "CSV file must contain at least a header and one data row." /\
  ~ (exists message,
        validateCSVContent headerOnly = Thrown message /\
        JS.includes message "attacker_ips" = true).
Proof.
  split; [simpl; tauto |]. repeat split.
  intros [message [H Hinc]]. vm_compute in H. injection H as <-.
  vm_compute in Hinc. discriminate Hinc.
Qed.

(** A file with fewer than two lines that are not blank is rejected
    before its header is looked at. *)
Lemma validateCSVContent_too_short (content : string) :
  List.length (nonBlankLines content) < 2 ->
  validateCSVContent content =
    Thrown "CSV file must contain at least a header and one data row.".
Proof.
  intros H. unfold validateCSVContent.
  apply Nat.ltb_lt in H. now rewrite H.
Qed.

(** C9, amended.  For every CSV file with a header line and at least one
    data row, if the header line, in lower case, lacks a required column
    name, validation throws the error whose message lists the missing
    columns and so names that column; the message is computed from the
    header line alone, whatever the data rows are. *)
Theorem validateCSVContent_names_missing_column
    (content header row : string) (rows : list string) (col : string) :
  nonBlankLines content = header :: row :: rows ->
  In col requiredColumns ->
  JS.includes (JS.toLowerCase header) col = false ->
  validateCSVContent content =
    Thrown ("CSV missing required columns: " ++
            JS.join ", " (missingColumns (JS.toLowerCase header))) /\
  In col (missingColumns (JS.toLowerCase header)) /\
  JS.includes
    ("CSV missing required columns: " ++
     JS.join ", " (missingColumns (JS.toLowerCase header))) col = true.
Proof.
  intros Hlines Hreq Hmissing.
  assert (Hin : In col (missingColumns (JS.toLowerCase header))).
  { unfold missingColumns. apply filter_In. split; [exact Hreq |].
    now rewrite Hmissing. }
  split; [| split; [exact Hin |]].
  - unfold validateCSVContent. rewrite Hlines.
    cbn [List.length Nat.ltb Nat.leb nth].
    destruct (missingColumns (JS.toLowerCase header)) as [| c cs];
      [destruct Hin | reflexivity].
  - apply includes_spec.
    destruct (join_includes ", " col _ Hin) as [pre [post H]].
    exists ("CSV missing required columns: " ++ pre), post.
    now rewrite H, append_assoc.
Qed.

Lemma validateCSVContent_names_missing_column_witness :
  validateCSVContent noAttackerColumn =
    Thrown "CSV missing required columns: attacker_ips".
Proof.
  apply (proj1 (validateCSVContent_names_missing_column noAttackerColumn
                  "Title,Description,victim_ips,attack_type,severity"
                  "UDP flood,Flood on the DNS servers,5.6.7.8,direct-flood,high"
                  [] "attacker_ips" eq_refl
                  (or_intror (or_intror (or_introl eq_refl)))
                  eq_refl)).
Defined.

(** Two files with the same header line get the same verdict, whatever
    their data rows. *)
Lemma validateCSVContent_rows_irrelevant
    (content1 content2 header row1 row2 : string) (rows1 rows2 : list string) :
  nonBlankLines content1 = header :: row1 :: rows1 ->
  nonBlankLines content2 = header :: row2 :: rows2 ->
  validateCSVContent content1 = validateCSVContent content2.
Proof.
  intros H1 H2. unfold validateCSVContent. now rewrite H1, H2.
Qed.

(** A file whose header holds every required column name resolves. *)
Lemma validateCSVContent_accepts
    (content header row : string) (rows : list string) :
  nonBlankLines content = header :: row :: rows ->
  missingColumns (JS.toLowerCase header) = [] ->
  validateCSVContent content = Resolved.
Proof.
  intros Hlines Hnone. unfold validateCSVContent.
  rewrite Hlines. cbn [List.length Nat.ltb Nat.leb nth].
  now rewrite Hnone.
Qed.

End CsvValidation.

(* ------------------------------------------------------------------ *)
(** ** Worked examples                                                 *)
(* ------------------------------------------------------------------ *)

Section Examples.

Import AIEnhancedFileProcessingService EventMetricsService.

Example ipPattern_accepts :
  JS.test ipPattern "1.2.3.4" = true /\
  JS.test ipPattern "255.255.255.255" = true /\
  JS.test ipPattern "192.168.01.1" = true.
Proof. repeat split. Qed.

Example ipPattern_rejects :
  JS.test ipPattern "256.1.1.1" = false /\
  JS.test ipPattern "1.2.3" = false /\
  JS.test ipPattern "1.2.3.4.5" = false /\
  JS.test ipPattern "1.2.3.x" = false.
Proof. repeat split. Qed.

Example portPattern_bounds :
  JS.test portPattern "1" = true /\
  JS.test portPattern "65535" = true /\
  JS.test portPattern "0" = false /\
  JS.test portPattern "65536" = false /\
  JS.test portPattern "080" = false.
Proof. repeat split. Qed.

Example split_keeps_empty_cells :
  JS.split "," "a,,b," = ["a"; ""; "b"; ""].
Proof. reflexivity. Qed.

Example replace_first_only :
  JS.replace "tlp:tlp:red" "tlp:" "" = "tlp:red".
Proof. reflexivity. Qed.

(** Two events tagged red in different spellings of case, one event
    without a TLP tag: the distribution has a RED entry of 2 and an
    UNDEFINED entry of 1, and the posture score is 100 - 30 - 20 * 2/3 -
    25 * 2/3. *)
Example tlp_distribution_of_three :
  let events :=
    [ MISPEvent.make "1" "a" "2025-01-01" TL1 false [Tag.make "TLP:RED" "#f00"];
      MISPEvent.make "2" "b" "2025-01-02" TL1 true [Tag.make "tlp:red" "#f00"];
      MISPEvent.make "3" "c" "2025-01-03" TL1 false [Tag.make "ddos" "#000"] ] in
  map (fun t => (TlpEntry.level t, TlpEntry.count t))
      (calculateTlpDistribution events) =
    [ ("RED", Count 2); ("UNDEFINED", Count 1) ] /\
  redCount (calculateMetrics events) = 2 /\
  exists q,
    calculateSecurityPosture (calculateMetrics events) = JS.Finite q /\
    (q == 40)%Q.
Proof.
  cbn zeta. split; [reflexivity | split; [reflexivity |]].
  eexists. split; [vm_compute; reflexivity | reflexivity].
Qed.

(** Keys that look like array indices come first in the distribution. *)
Example tlp_distribution_order :
  map TlpEntry.level
      (calculateTlpDistribution
         [ MISPEvent.make "1" "a" "2025-01-01" TL2 false
             [ Tag.make "tlp:green" "#0f0"; Tag.make "tlp:7" "#000" ] ]) =
    [ "7"; "GREEN" ].
Proof. reflexivity. Qed.

Example fallback_on_unparsable_json :
  preValidateFileWithAI notANumber noParser
    (File.make "events.JSON" (Some "{ not json")) = fallback.
Proof. reflexivity. Qed.

(** An array that holds [null] is parsed, and the assessment is the
    fallback all the same. *)
Example fallback_on_null_event :
  preValidateFileWithAI notANumber nullEventParser
    (File.make "events.json" (Some "[null]")) = fallback.
Proof. reflexivity. Qed.

End Examples.

(* ------------------------------------------------------------------ *)
(** ** Patterns: the matcher and the two patterns of the assessor      *)
(* ------------------------------------------------------------------ *)

Section Patterns.

Import AIEnhancedFileProcessingService.

Lemma nullable_denotes (r : JS.RegExp) :
  JS.nullable r = true <-> denotes r "".
Proof.
  induction r as [| | c | lo hi | r1 IH1 r2 IH2 | r1 IH1 r2 IH2]; simpl.
  - split; [discriminate | intros []].
  - split; reflexivity.
  - split; discriminate.
  - split; [discriminate | intros [c [H _]]; discriminate H].
  - rewrite andb_true_iff, IH1, IH2. split.
    + intros [H1 H2]. now exists "", "".
    + intros [a [b [H [H1 H2]]]].
      destruct a; [| discriminate H]. destruct b; [| discriminate H].
      now split.
  - now rewrite orb_true_iff, IH1, IH2.
Qed.

Lemma deriv_denotes (r : JS.RegExp) (c : ascii) (s : string) :
  denotes (JS.deriv c r) s <-> denotes r (String c s).
Proof.
  revert s.
  induction r as [| | d | lo hi | r1 IH1 r2 IH2 | r1 IH1 r2 IH2];
    intros s; simpl.
  - reflexivity.
  - split; [intros [] | discriminate].
  - destruct (Ascii.eqb_spec c d) as [-> | Hne]; simpl.
    + split; [now intros -> | intros H; now injection H].
    + split; [intros [] | intros H; injection H as H _; contradiction].
  - destruct (JS.inRange lo hi c) eqn:E; simpl.
    + split.
      * intros ->. now exists c.
      * intros [x [H _]]. now injection H.
    + split; [intros [] |].
      intros [x [H Hx]]. injection H as -> _. congruence.
  - assert (Hseq : denotes (JS.Seq (JS.deriv c r1) r2) s <->
                   exists a b, String c s = String c a ++ b /\
                               denotes r1 (String c a) /\ denotes r2 b).
    { simpl. split.
      - intros [a [b [-> [H1 H2]]]]. exists a, b. rewrite <- IH1. now split.
      - intros [a [b [H [H1 H2]]]]. simpl in H. injection H as ->.
        exists a, b. rewrite IH1. now split. }
    destruct (JS.nullable r1) eqn:E.
    + change (denotes (JS.Seq (JS.deriv c r1) r2) s \/
              denotes (JS.deriv c r2) s <->
              exists a b, String c s = a ++ b /\ denotes r1 a /\ denotes r2 b).
      rewrite Hseq, IH2. split.
      * intros [[a [b [H [H1 H2]]]] | H2].
        -- now exists (String c a), b.
        -- apply nullable_denotes in E. now exists "", (String c s).
      * intros [a [b [H [H1 H2]]]]. destruct a as [| x a].
        -- right. simpl in H. now subst b.
        -- left. simpl in H. injection H as <- ->. now exists a, b.
    + rewrite Hseq. split.
      * intros [a [b [H [H1 H2]]]]. now exists (String c a), b.
      * intros [a [b [H [H1 H2]]]]. destruct a as [| x a].
        -- apply nullable_denotes in H1. congruence.
        -- simpl in H. injection H as <- ->. now exists a, b.
  - now rewrite IH1, IH2.
Qed.

(** The matcher decides the language of the pattern. *)
Lemma test_denotes (r : JS.RegExp) (s : string) :
  JS.test r s = true <-> denotes r s.
Proof.
  revert r; induction s as [| c s IH]; intros r; simpl.
  - apply nullable_denotes.
  - now rewrite IH, deriv_denotes.
Qed.

End Patterns.

Section AssessorPatterns.

Import AIEnhancedFileProcessingService.

Lemma inRange_iff (lo hi c : ascii) :
  JS.inRange lo hi c = true <->
  nat_of_ascii lo <= nat_of_ascii c <= nat_of_ascii hi.
Proof.
  unfold JS.inRange. now rewrite andb_true_iff, !Nat.leb_le.
Qed.

Lemma code_inj (c d : ascii) : nat_of_ascii c = nat_of_ascii d -> c = d.
Proof.
  intros H. rewrite <- (ascii_nat_embedding c), <- (ascii_nat_embedding d).
  now rewrite H.
Qed.

(** Replaces the code of a literal character by its number. *)
Ltac eval_codes :=
  repeat match goal with
         | |- context [nat_of_ascii (Ascii ?a ?b ?c ?d ?e ?f ?g ?h)] =>
             let v := eval vm_compute in
                        (nat_of_ascii (Ascii a b c d e f g h)) in
             change (nat_of_ascii (Ascii a b c d e f g h)) with v
         | H : context [nat_of_ascii (Ascii ?a ?b ?c ?d ?e ?f ?g ?h)] |- _ =>
             let v := eval vm_compute in
                        (nat_of_ascii (Ascii a b c d e f g h)) in
             change (nat_of_ascii (Ascii a b c d e f g h)) with v in H
         end.

(** Takes a membership hypothesis apart, down to its characters. *)
Ltac open_lang H :=
  unfold JS.Opt in H; cbn [denotes JS.Times JS.UpTo] in H;
  unfold JS.Opt in H; cbn [denotes JS.Times JS.UpTo] in H;
  repeat match goal with
         | H : exists _, _ |- _ => destruct H
         | H : _ /\ _ |- _ => destruct H
         | H : _ \/ _ |- _ => destruct H
         | H : JS.inRange _ _ _ = true |- _ => apply inRange_iff in H
         end;
  subst; cbn [append String.length allDecimal decimalValue]; eval_codes.

Ltac in_range := apply inRange_iff; eval_codes; lia.

(** Searches a membership proof for a text given character by
    character. *)
Ltac in_lang :=
  lazymatch goal with
  | |- _ \/ _ => first [solve [left; in_lang] | solve [right; in_lang]]
  | |- exists a b, ?s = a ++ b /\ _ /\ _ =>
      first [ solve [exists "", s; split; [reflexivity | split; in_lang]]
            | lazymatch s with
              | String ?c ?rest =>
                  solve [exists (String c ""), rest;
                         split; [reflexivity | split; in_lang]]
              end ]
  | |- exists c, _ = String c "" /\ _ =>
      eexists; split; [reflexivity | in_range]
  | |- _ = _ => solve [reflexivity | f_equal; apply code_inj; eval_codes; lia]
  end.

Lemma octet_sound (s : string) : denotes octet s -> isOctetText s.
Proof.
  unfold octet, digit, JS.Opt. intros H. open_lang H;
    unfold isOctetText;
    cbn [append String.length allDecimal decimalValue]; eval_codes;
    repeat split; try discriminate; try lia.
Qed.

Lemma octet_complete (s : string) : isOctetText s -> denotes octet s.
Proof.
  intros [Hne [Hdec [Hlen Hval]]].
  destruct s as [| c1 [| c2 [| c3 [| c4 r]]]];
    [contradiction | | | | simpl in Hlen; lia];
    cbn [allDecimal decimalValue] in Hdec, Hval;
    unfold octet, digit, JS.Opt; cbn [denotes].
  - in_lang.
  - in_lang.
  - destruct (Nat.eq_dec (nat_of_ascii c1) 50);
      destruct (Nat.eq_dec (nat_of_ascii c2) 53); in_lang.
Qed.

Lemma decimalValue_ge (s : string) (acc : Z) :
  allDecimal s -> (0 <= acc)%Z -> (acc <= decimalValue acc s)%Z.
Proof.
  revert acc; induction s as [| c s IH]; intros acc Hd Hacc; simpl.
  - lia.
  - destruct Hd as [Hc Hd].
    assert (H := IH (acc * 10 + (Z.of_nat (nat_of_ascii c) - 48))%Z Hd).
    lia.
Qed.

Lemma port_sound (s : string) : denotes portPattern s -> isPortText s.
Proof.
  unfold portPattern, digit, JS.Opt. intros H. open_lang H;
    unfold isPortText;
    cbn [append String.length allDecimal decimalValue]; eval_codes;
    (split;
     [repeat split; lia
     | split;
       [eexists; eexists; split; [reflexivity | eval_codes; lia] | lia]]).
Qed.

Lemma port_complete (s : string) : isPortText s -> denotes portPattern s.
Proof.
  intros [Hdec [[c [rest [Hs Hc]]] Hval]]. subst s.
  destruct rest as [| c2 [| c3 [| c4 [| c5 [| c6 r]]]]];
    cbn [allDecimal decimalValue] in Hdec, Hval;
    unfold portPattern, digit; cbn [denotes JS.Times JS.UpTo JS.Opt].
  - in_lang.
  - in_lang.
  - in_lang.
  - in_lang.
  - destruct (Nat.eq_dec (nat_of_ascii c) 54);
      destruct (Nat.eq_dec (nat_of_ascii c2) 53);
      destruct (Nat.eq_dec (nat_of_ascii c3) 53);
      destruct (Nat.eq_dec (nat_of_ascii c4) 51); in_lang.
  - exfalso.
    destruct Hdec as [H1 [H2 [H3 [H4 [H5 [H6 Hr]]]]]].
    match type of Hval with
    | (_ <= decimalValue ?acc r <= _)%Z =>
        assert (Hge := decimalValue_ge r acc Hr)
    end.
    lia.
Qed.

(** X1.  The port pattern of the assessor accepts a text exactly when it
    is a decimal numeral without a leading zero whose value lies between
    1 and 65535. *)
Theorem portPattern_accepts_ports (s : string) :
  JS.test portPattern s = true <-> isPortText s.
Proof.
  rewrite test_denotes. split; [apply port_sound | apply port_complete].
Qed.

(** X2.  The address pattern of the assessor accepts a text exactly when
    it is four parts joined by dots, each part one to three decimal
    digits that write a number up to 255. *)
Theorem ipPattern_accepts_dotted_quads (s : string) :
  JS.test ipPattern s = true <->
  exists a b c d,
    s = a ++ "." ++ b ++ "." ++ c ++ "." ++ d /\
    isOctetText a /\ isOctetText b /\ isOctetText c /\ isOctetText d.
Proof.
  rewrite test_denotes. unfold ipPattern. cbn [denotes JS.Times]. split.
  - intros [x [d [-> [[x1 [y1 [-> [[a [pa [-> [Ha ->]]]]
      [x2 [y2 [-> [[b [pb [-> [Hb ->]]]]
      [x3 [y3 [-> [[c [pc [-> [Hc ->]]]] ->]]]]]]]]]]]] Hd]]]].
    exists a, b, c, d.
    split; [| now repeat split; apply octet_sound].
    now rewrite append_empty_r, !append_assoc.
  - intros [a [b [c [d [-> [Ha [Hb [Hc Hd]]]]]]]].
    exists (a ++ "." ++ b ++ "." ++ c ++ "."), d.
    split; [now rewrite !append_assoc |].
    split; [| now apply octet_complete].
    exists (a ++ "."), (b ++ "." ++ c ++ ".").
    split; [now rewrite !append_assoc |].
    split; [exists a, "."; repeat split; now apply octet_complete |].
    exists (b ++ "."), (c ++ ".").
    split; [now rewrite !append_assoc |].
    split; [exists b, "."; repeat split; now apply octet_complete |].
    exists (c ++ "."), "".
    split; [now rewrite append_empty_r |].
    split; [exists c, "."; repeat split; now apply octet_complete | reflexivity].
Qed.

End AssessorPatterns.

(* ------------------------------------------------------------------ *)
(** ** Compliance compiler: attributes and the tags on the read path   *)
(* ------------------------------------------------------------------ *)

Section CompilerExtras.

Import MISPApiService.

Lemma buildAttributes_eq (d : DDoSEvent.t) :
  buildAttributes d =
    app (map (fun ip => Attribute.make "Network activity" "ip-src" ip true
                          (Some "DDoS attack source IP"))
             (DDoSEvent.attacker_ips d))
      (app (map (fun ip => Attribute.make "Network activity" "ip-dst" ip true
                             (Some "DDoS attack target IP"))
                (DDoSEvent.victim_ips d))
         (app (map (fun port => Attribute.make "Network activity" "port" port
                                  false (Some "DDoS attack target port"))
                   (DDoSEvent.attack_ports d))
            (if JS.truthy (DDoSEvent.description d)
             then [Attribute.make "Other" "comment" (DDoSEvent.description d)
                     false None]
             else []))).
Proof.
  unfold buildAttributes. cbv zeta. rewrite !push_all_app. cbn [app].
  destruct (JS.truthy (DDoSEvent.description d)); unfold JS.push.
  - rewrite <- !app_assoc. reflexivity.
  - rewrite app_nil_r, <- !app_assoc. reflexivity.
Qed.

(** X3.  The attributes of a compiled event carry, in this order, every
    attacker address, every victim address, every port and then the
    description when it is not empty, nothing dropped or reordered; the
    detection flag is set exactly on the address attributes, and a
    comment attribute exists only for a description that is not empty. *)
Theorem buildAttributes_values_in_order (d : DDoSEvent.t) :
  map Attribute.value (buildAttributes d) =
    app (DDoSEvent.attacker_ips d)
      (app (DDoSEvent.victim_ips d)
         (app (DDoSEvent.attack_ports d)
            (if JS.truthy (DDoSEvent.description d)
             then [DDoSEvent.description d] else []))) /\
  (forall a, In a (buildAttributes d) ->
     (Attribute.to_ids a = true <->
      Attribute.type a = "ip-src" \/ Attribute.type a = "ip-dst")) /\
  (forall a, In a (buildAttributes d) ->
     Attribute.type a = "comment" ->
     Attribute.value a = DDoSEvent.description d /\
     DDoSEvent.description d <> "").
Proof.
  rewrite buildAttributes_eq.
  split; [| split].
  - rewrite !map_app, !map_map. cbn [Attribute.value].
    rewrite !map_id. now destruct (JS.truthy (DDoSEvent.description d)).
  - intros a Ha.
    repeat (apply in_app_or in Ha; destruct Ha as [Ha | Ha]);
      try (apply in_map_iff in Ha; destruct Ha as [v [<- _]]; cbn;
           split; [intros H; try discriminate H; tauto
                  | intros [H | H]; try discriminate H; reflexivity]).
    destruct (JS.truthy (DDoSEvent.description d)); [| destruct Ha].
    destruct Ha as [<- | []]. cbn.
    split; [discriminate | intros [H | H]; discriminate H].
  - intros a Ha Htype.
    repeat (apply in_app_or in Ha; destruct Ha as [Ha | Ha]);
      try (apply in_map_iff in Ha; destruct Ha as [v [<- _]];
           discriminate Htype).
    destruct (JS.truthy (DDoSEvent.description d)) eqn:E; [| destruct Ha].
    destruct Ha as [<- | []]. split; [reflexivity |].
    intros Hd. rewrite Hd in E. discriminate E.
Qed.

Lemma existsb_or_false {A : Type} (f g : A -> bool) (l : list A) :
  existsb (fun x => f x || g x) l = false -> existsb f l = false.
Proof.
  induction l as [| x l IH]; [reflexivity |].
  cbn [existsb]. intros H.
  apply orb_false_iff in H. destruct H as [Hx Hl].
  apply orb_false_iff in Hx. destruct Hx as [Hx _].
  rewrite Hx. now apply IH.
Qed.

(** X4.  An event that carries the tags of a compiled record, whatever
    its attack type and severity, is never classified as TLP red: both
    read paths keep it. *)
Theorem compiled_tags_never_red (d : DDoSEvent.t) (event : MISPEvent.t) :
  map Tag.name (MISPEvent.tags event) = buildTags d ->
  isTlpRedEvent event = false /\
  getEvents_filter [event] None = [event] /\
  EventMetricsService.filterEventsByTLP [event] None = [event].
Proof.
  intros Htags.
  assert (Hred : isTlpRedEvent event = false).
  { unfold isTlpRedEvent.
    destruct (MISPEvent.tags event) as [| t1 [| t2 [| t3 [| t4 r]]]];
      destruct d as [? ? ? ? ? [] []]; try discriminate Htags;
      injection Htags as H1 H2 H3; cbn [existsb];
      rewrite H1, H2, H3; reflexivity. }
  assert (Hcolon :
    existsb (fun tag => JS.includes (JS.toLowerCase (Tag.name tag)) "tlp:red")
            (MISPEvent.tags event) = false).
  { unfold isTlpRedEvent in Hred. now apply existsb_or_false in Hred. }
  split; [exact Hred |]. split.
  - unfold getEvents_filter. cbn [filter]. now rewrite Hred.
  - unfold EventMetricsService.filterEventsByTLP. cbn [negb filter].
    now rewrite Hcolon.
Qed.

Lemma compiled_tags_never_red_witness :
  isTlpRedEvent
    (MISPEvent.make "9" "T" "2025-02-01" TL1 false
       (map (fun name => Tag.make name "#cccccc") (buildTags exampleRecord)))
  = false.
Proof.
  apply (proj1 (compiled_tags_never_red exampleRecord
                  (MISPEvent.make "9" "T" "2025-02-01" TL1 false
                     (map (fun name => Tag.make name "#cccccc")
                          (buildTags exampleRecord)))
                  eq_refl)).
Defined.

End CompilerExtras.

(* ------------------------------------------------------------------ *)
(** ** The read path and the write path of MISPApiService              *)
(* ------------------------------------------------------------------ *)

Section ApiPaths.

Import MISPApiService.

Lemma filter_filter_implied {A : Type} (p q : A -> bool) (l : list A) :
  (forall x, q x = true -> p x = true) ->
  filter p (filter q l) = filter q l.
Proof.
  intros H. induction l as [| x l IH]; [reflexivity |].
  cbn [filter]. destruct (q x) eqn:E; [| exact IH].
  cbn [filter]. now rewrite (H x E), IH.
Qed.

(** X5.  Filtering with [filterEventsByTLP] what the fetching path has
    already filtered changes nothing: every event that [getEvents] lets
    through passes the filter of the metrics as well. *)
Theorem filterEventsByTLP_after_getEvents (events : list MISPEvent.t) :
  EventMetricsService.filterEventsByTLP (getEvents_filter events None) None =
  getEvents_filter events None.
Proof.
  unfold EventMetricsService.filterEventsByTLP, getEvents_filter.
  cbn [negb]. apply filter_filter_implied.
  intros event H. apply negb_true_iff in H. apply negb_true_iff.
  unfold isTlpRedEvent in H. now apply existsb_or_false in H.
Qed.

Lemma colourOrDefault_nonempty (colour : option string) :
  colourOrDefault colour <> "".
Proof.
  unfold colourOrDefault. destruct colour as [[| c s] |]; discriminate.
Qed.

(** X6.  [transformMISPEvent] keeps the tag names of the server's event
    in their order, and no tag at all when the server sends none; every
    tag of the result has a colour that is not empty; and the result is
    published exactly when the server's field is the text 1. *)
Theorem transformMISPEvent_tags_and_flag (raw : RawEvent.t) :
  map Tag.name (MISPEvent.tags (transformMISPEvent raw)) =
    match RawEvent.Tag raw with
    | Some tags => map RawTag.name tags
    | None => []
    end /\
  (forall tag, In tag (MISPEvent.tags (transformMISPEvent raw)) ->
               Tag.colour tag <> "") /\
  (MISPEvent.published (transformMISPEvent raw) = true <->
   RawEvent.published raw = ScalarText "1").
Proof.
  unfold transformMISPEvent. cbn [MISPEvent.tags MISPEvent.published].
  split; [| split].
  - destruct (RawEvent.Tag raw) as [tags |]; [| reflexivity].
    rewrite map_map. reflexivity.
  - intros tag Hin. destruct (RawEvent.Tag raw) as [tags |]; [| destruct Hin].
    apply in_map_iff in Hin. destruct Hin as [t [<- _]].
    apply colourOrDefault_nonempty.
  - destruct (RawEvent.published raw) as [s |].
    + rewrite String.eqb_eq. split; [now intros -> | now intros [= ->]].
    + split; discriminate.
Qed.

Lemma makeRequest_calls {A : Type} (credentials : option MISPCredentials.t)
    (fetch : Call.t -> Fetched A) (endpoint : string)
    (posted : option Event.t) :
  (credentials = None ->
   snd (makeRequest credentials fetch endpoint posted) = []) /\
  (forall c, credentials = Some c ->
   snd (makeRequest credentials fetch endpoint posted) =
     [Call.make (baseUrlOf c ++ endpoint) posted]).
Proof.
  split.
  - now intros ->.
  - intros c ->. unfold makeRequest.
    destruct (fetch _) as [m | r body]; [reflexivity |].
    now destruct (negb (HttpResponse.ok r)).
Qed.

(** X7.  [getEvents] never throws and never hands out a red event: with
    the flag left out, no returned event is classified as TLP red; every
    returned event is the transform of an event of the server; at most
    one request goes out; without credentials none goes out and the
    result is empty, as it is when the server answers with an error. *)
Theorem getEvents_never_red
    (credentials : option MISPCredentials.t)
    (fetch : Call.t -> Fetched (list RawEvent.t)) (limit : option nat) :
  (forall event,
      In event (fst (getEvents credentials fetch limit None)) ->
      isTlpRedEvent event = false) /\
  (forall flag event,
      In event (fst (getEvents credentials fetch limit flag)) ->
      exists call response raw,
        fetch call = Responded response raw /\
        HttpResponse.ok response = true /\
        In event (map transformMISPEvent raw)) /\
  (forall flag,
      List.length (snd (getEvents credentials fetch limit flag)) <= 1) /\
  (credentials = None ->
   forall flag, getEvents credentials fetch limit flag = ([], [])) /\
  ((forall call response raw,
       fetch call = Responded response raw ->
       HttpResponse.ok response = false) ->
   forall flag, fst (getEvents credentials fetch limit flag) = []).
Proof.
  assert (Hshape : forall flag,
    (fst (getEvents credentials fetch limit flag) = [] /\
     List.length (snd (getEvents credentials fetch limit flag)) <= 1) \/
    (exists call response raw,
        fetch call = Responded response raw /\
        HttpResponse.ok response = true /\
        getEvents credentials fetch limit flag =
          (getEvents_filter (map transformMISPEvent raw) flag, [call]))).
  { intros flag. unfold getEvents, makeRequest.
    destruct credentials as [c |]; [| left; split; [reflexivity | simpl; lia]].
    match goal with
    | |- context [fetch ?call] => destruct (fetch call) as [m | r raw] eqn:E
    end; [left; split; [reflexivity | simpl; lia] |].
    destruct (HttpResponse.ok r) eqn:Eok; cbn [negb].
    - right. eexists; exists r, raw. repeat split; eassumption.
    - left. split; [reflexivity | simpl; lia]. }
  split; [| split; [| split; [| split]]].
  - intros event Hin.
    destruct (Hshape None) as [[Hnil _] | [call [r [raw [_ [_ Heq]]]]]].
    + rewrite Hnil in Hin. destruct Hin.
    + rewrite Heq in Hin. cbn [fst] in Hin.
      unfold getEvents_filter in Hin. apply filter_In in Hin.
      destruct Hin as [_ Hin]. now apply negb_true_iff in Hin.
  - intros flag event Hin.
    destruct (Hshape flag) as [[Hnil _] | [call [r [raw [Hf [Hok Heq]]]]]].
    + rewrite Hnil in Hin. destruct Hin.
    + exists call, r, raw. repeat split; try assumption.
      rewrite Heq in Hin. cbn [fst] in Hin.
      unfold getEvents_filter in Hin.
      destruct (match flag with Some b => b | None => true end);
        [apply filter_In in Hin; tauto | exact Hin].
  - intros flag.
    destruct (Hshape flag) as [[_ Hlen] | [call [r [raw [_ [_ Heq]]]]]];
      [exact Hlen | rewrite Heq; simpl; lia].
  - now intros ->.
  - intros Hbad flag.
    destruct (Hshape flag) as [[Hnil _] | [call [r [raw [Hf [Hok _]]]]]];
      [exact Hnil |].
    rewrite (Hbad _ _ _ Hf) in Hok. discriminate Hok.
Qed.



End ApiPaths.

(* ------------------------------------------------------------------ *)
(** ** Filters of the metrics service                                  *)
(* ------------------------------------------------------------------ *)

Section MetricsFilters.

Import EventMetricsService.

Lemma filter_ext_length {A : Type} (p q : A -> bool) (l : list A) :
  (forall x, p x = q x) -> filter p l = filter q l.
Proof.
  intros H. induction l as [| x l IH]; [reflexivity |].
  cbn [filter]. now rewrite H, IH.
Qed.

(** X9.  Filtering by one threat level selects as many events as the
    bucket of that level in [calculateMetrics] counts; filtering by all
    four levels returns the collection unchanged; and level names other
    than the four digits, such as [high], select nothing. *)
Theorem filterEventsByThreatLevel_buckets (events : list MISPEvent.t) :
  let buckets := EventMetrics.eventsByThreatLevel (calculateMetrics events) in
  List.length (filterEventsByThreatLevel events ["1"]) =
    ThreatLevelCounts.high buckets /\
  List.length (filterEventsByThreatLevel events ["2"]) =
    ThreatLevelCounts.medium buckets /\
  List.length (filterEventsByThreatLevel events ["3"]) =
    ThreatLevelCounts.low buckets /\
  List.length (filterEventsByThreatLevel events ["4"]) =
    ThreatLevelCounts.undefined buckets /\
  filterEventsByThreatLevel events ["1"; "2"; "3"; "4"] = events /\
  (forall threatLevels,
      (forall level, In level threatLevels ->
                     ~ In level ["1"; "2"; "3"; "4"]) ->
      filterEventsByThreatLevel events threatLevels = []).
Proof.
  cbn zeta. unfold calculateMetrics, filterEventsByThreatLevel.
  cbn [EventMetrics.eventsByThreatLevel ThreatLevelCounts.high
       ThreatLevelCounts.medium ThreatLevelCounts.low
       ThreatLevelCounts.undefined].
  repeat split.
  1-4: f_equal; apply filter_ext_length; intros e;
       now destruct (MISPEvent.threat_level e).
  - induction events as [| e events IH]; [reflexivity |].
    cbn [filter]. rewrite IH.
    now destruct (MISPEvent.threat_level e).
  - intros threatLevels Hnone.
    induction events as [| e events IH]; [reflexivity |].
    cbn [filter]. rewrite IH.
    destruct (existsb _ threatLevels) eqn:E; [| reflexivity].
    apply existsb_exists in E. destruct E as [level [Hin Heq]].
    apply String.eqb_eq in Heq. exfalso. apply (Hnone level Hin).
    rewrite <- Heq. destruct (MISPEvent.threat_level e); simpl; tauto.
Qed.

(** X10.  [filterEventsByDateRange] returns events of the collection
    whose date is valid and lies between the two bounds, both included;
    the result is empty when the end lies before the start and when a
    bound is no valid date. *)
Theorem filterEventsByDateRange_edges
    (parseDate : string -> option Z) (events : list MISPEvent.t)
    (startDate endDate : option Z) :
  (forall event,
      In event (filterEventsByDateRange parseDate events startDate endDate) <->
      In event events /\
      exists t s u,
        parseDate (MISPEvent.date event) = Some t /\
        startDate = Some s /\ endDate = Some u /\ (s <= t <= u)%Z) /\
  (forall s u,
      startDate = Some s -> endDate = Some u -> (u < s)%Z ->
      filterEventsByDateRange parseDate events startDate endDate = []) /\
  (startDate = None \/ endDate = None ->
   filterEventsByDateRange parseDate events startDate endDate = []).
Proof.
  assert (Hiff : forall event,
    In event (filterEventsByDateRange parseDate events startDate endDate) <->
    In event events /\
    exists t s u,
      parseDate (MISPEvent.date event) = Some t /\
      startDate = Some s /\ endDate = Some u /\ (s <= t <= u)%Z).
  { intros event. unfold filterEventsByDateRange.
    rewrite filter_In, andb_true_iff. unfold timeGe, timeLe.
    destruct (parseDate (MISPEvent.date event)) as [t |];
      destruct startDate as [s |]; destruct endDate as [u |];
      rewrite ?Z.leb_le;
      (split;
       [intros [Hin [H1 H2]];
        first [discriminate
              | split; [exact Hin |];
                eexists; eexists; eexists; repeat split; eassumption]
       | intros [Hin [t' [s' [u' [Ht [Hs [Hu [H1 H2]]]]]]]];
         first [discriminate
               | split; [exact Hin |];
                 injection Ht as <-; injection Hs as <-; injection Hu as <-;
                 now split]]). }
  assert (Hempty : forall l : list MISPEvent.t,
             (forall event, ~ In event l) -> l = []).
  { intros [| x l] H; [reflexivity | exfalso; apply (H x); now left]. }
  split; [exact Hiff | split].
  - intros s u Hs Hu Hlt. apply Hempty. intros event Hin.
    apply Hiff in Hin.
    destruct Hin as [_ [t [s' [u' [_ [Hs' [Hu' Hrange]]]]]]].
    rewrite Hs in Hs'. rewrite Hu in Hu'.
    injection Hs' as <-. injection Hu' as <-. lia.
  - intros Hnone. apply Hempty. intros event Hin. apply Hiff in Hin.
    destruct Hin as [_ [t [s' [u' [_ [Hs' [Hu' _]]]]]]].
    destruct Hnone as [H | H]; congruence.
Qed.

End MetricsFilters.

(* ------------------------------------------------------------------ *)
(** ** Trending events                                                 *)
(* ------------------------------------------------------------------ *)

Section Trending.

Import EventMetricsService.

Variable parseDate : string -> option Z.

Lemma insertByTime_In (x y : Z * MISPEvent.t) (l : list (Z * MISPEvent.t)) :
  In y (insertByTime x l) <-> y = x \/ In y l.
Proof.
  induction l as [| z l IH]; simpl.
  - split; [intros [H | []]; now left | intros [H | []]; now left].
  - destruct (Z.leb (fst z) (fst x)); simpl.
    + split; [intros [H | H]; auto | intros [H | H]; auto].
    + rewrite IH. split.
      * intros [H | [H | H]]; auto.
      * intros [H | [H | H]]; auto.
Qed.

Lemma sortLatestFirst_In (y : Z * MISPEvent.t) (l : list (Z * MISPEvent.t)) :
  In y (sortLatestFirst l) <-> In y l.
Proof.
  unfold sortLatestFirst. induction l as [| x l IH]; simpl; [reflexivity |].
  rewrite insertByTime_In, IH. split; intros [H | H]; auto.
Qed.

Lemma insertByTime_sorted (x : Z * MISPEvent.t) (l : list (Z * MISPEvent.t)) :
  StronglySorted laterFirst l -> StronglySorted laterFirst (insertByTime x l).
Proof.
  induction l as [| z l IH]; intros Hs; simpl.
  - constructor; constructor.
  - destruct (Z.leb (fst z) (fst x)) eqn:E.
    + apply Z.leb_le in E. constructor; [exact Hs |].
      inversion Hs as [| ? ? Hl Hz]; subst.
      constructor; [exact E |].
      rewrite Forall_forall in *. intros w Hw.
      specialize (Hz w Hw). unfold laterFirst in *. lia.
    + apply Z.leb_gt in E. inversion Hs as [| ? ? Hl Hz]; subst.
      constructor; [now apply IH |].
      rewrite Forall_forall in *. intros w Hw.
      apply insertByTime_In in Hw. destruct Hw as [-> | Hw].
      * unfold laterFirst. lia.
      * now apply Hz.
Qed.

Lemma sortLatestFirst_sorted (l : list (Z * MISPEvent.t)) :
  StronglySorted laterFirst (sortLatestFirst l).
Proof.
  unfold sortLatestFirst. induction l as [| x l IH]; simpl.
  - constructor.
  - now apply insertByTime_sorted.
Qed.

Lemma datedSince_In (cutoff : Z) (events : list MISPEvent.t)
    (t : Z) (event : MISPEvent.t) :
  In (t, event) (datedSince parseDate cutoff events) <->
  In event events /\ parseDate (MISPEvent.date event) = Some t /\
  (cutoff <= t)%Z.
Proof.
  induction events as [| e events IH]; simpl.
  - split; [intros [] | intros [[] _]].
  - destruct (parseDate (MISPEvent.date e)) as [te |] eqn:E.
    + destruct (Z.leb cutoff te) eqn:Ele.
      * apply Z.leb_le in Ele. simpl. rewrite IH. split.
        -- intros [H | [H1 [H2 H3]]].
           ++ injection H as <- <-. auto.
           ++ auto.
        -- intros [[<- | H1] [H2 H3]].
           ++ left. congruence.
           ++ right. auto.
      * apply Z.leb_gt in Ele. rewrite IH. split.
        -- intros [H1 [H2 H3]]. auto.
        -- intros [[<- | H1] [H2 H3]]; [| auto].
           rewrite E in H2. injection H2 as <-. lia.
    + rewrite IH. split.
      * intros [H1 [H2 H3]]. auto.
      * intros [[<- | H1] [H2 H3]]; [congruence | auto].
Qed.

Lemma firstn_In_inv {A : Type} (n : nat) (l : list A) (x : A) :
  In x (firstn n l) -> In x l.
Proof.
  revert l; induction n as [| n IH]; intros [| y l]; simpl; try tauto.
  intros [H | H]; auto.
Qed.

Lemma sorted_app_inv {A : Type} (R : A -> A -> Prop) (l1 l2 : list A) :
  StronglySorted R (app l1 l2) ->
  forall x y, In x l1 -> In y l2 -> R x y.
Proof.
  induction l1 as [| a l1 IH]; intros Hs x y Hx Hy; [destruct Hx |].
  simpl in Hs. inversion Hs as [| ? ? Hl Ha]; subst.
  destruct Hx as [<- | Hx].
  - rewrite Forall_forall in Ha. apply Ha. apply in_or_app. now right.
  - now apply IH.
Qed.

Lemma sorted_firstn {A : Type} (R : A -> A -> Prop) (n : nat) (l : list A) :
  StronglySorted R l -> StronglySorted R (firstn n l).
Proof.
  revert l; induction n as [| n IH]; intros [| a l] Hs; simpl;
    try constructor.
  - inversion Hs; subst. now apply IH.
  - inversion Hs as [| ? ? Hl Ha]; subst.
    rewrite Forall_forall in *. intros x Hx. apply Ha.
    now apply firstn_In_inv in Hx.
Qed.

(** The candidates, with their time values, in the order of the sort. *)
Lemma candidates_In (cutoff : Z) (events : list MISPEvent.t)
    (t : Z) (event : MISPEvent.t) :
  In (t, event)
     (sortLatestFirst
        (filter
           (fun dated =>
              threatLevelEqb (MISPEvent.threat_level (snd dated)) TL1 ||
              threatLevelEqb (MISPEvent.threat_level (snd dated)) TL2)
           (datedSince parseDate cutoff events))) <->
  In event events /\
  (MISPEvent.threat_level event = TL1 \/ MISPEvent.threat_level event = TL2) /\
  parseDate (MISPEvent.date event) = Some t /\ (cutoff <= t)%Z.
Proof.
  rewrite sortLatestFirst_In, filter_In, datedSince_In. cbn [snd].
  assert (Hlevel :
    threatLevelEqb (MISPEvent.threat_level event) TL1 ||
    threatLevelEqb (MISPEvent.threat_level event) TL2 = true <->
    MISPEvent.threat_level event = TL1 \/ MISPEvent.threat_level event = TL2).
  { destruct (MISPEvent.threat_level event); simpl;
      (split; [intros H; try discriminate H; auto
              | intros [H | H]; try discriminate H; reflexivity]). }
  rewrite Hlevel. tauto.
Qed.

(** X11.  [getTrendingEvents] returns at most five events, each one an
    event of the collection of threat level 1 or 2 with a valid date at
    or after the cut-off. *)
Theorem getTrendingEvents_selection (cutoff : Z) (events : list MISPEvent.t) :
  List.length (getTrendingEvents parseDate cutoff events) <= 5 /\
  forall event,
    In event (getTrendingEvents parseDate cutoff events) ->
    In event events /\ trendingCandidate parseDate cutoff event.
Proof.
  unfold getTrendingEvents. split.
  - rewrite length_map. apply firstn_le_length.
  - intros event Hin. apply in_map_iff in Hin.
    destruct Hin as [[t e] [Heq Hin]]. cbn [snd] in Heq. subst e.
    apply firstn_In_inv in Hin. apply candidates_In in Hin.
    destruct Hin as [Hin [Hlevel [Hdate Hcut]]].
    split; [exact Hin |]. split; [exact Hlevel |]. now exists t.
Qed.

(** X12.  [getTrendingEvents] lists the latest first, and what it leaves
    out is not later than what it returns: every candidate of the
    collection is either returned or dated no later than each returned
    event. *)
Theorem getTrendingEvents_latest_first (cutoff : Z)
    (events : list MISPEvent.t) :
  StronglySorted (notBefore parseDate)
    (getTrendingEvents parseDate cutoff events) /\
  forall candidate,
    In candidate events -> trendingCandidate parseDate cutoff candidate ->
    In candidate (getTrendingEvents parseDate cutoff events) \/
    forall event,
      In event (getTrendingEvents parseDate cutoff events) ->
      notBefore parseDate event candidate.
Proof.
  unfold getTrendingEvents.
  set (sorted := sortLatestFirst _).
  assert (Hsorted : StronglySorted laterFirst sorted)
    by apply sortLatestFirst_sorted.
  assert (Hdated : forall t e, In (t, e) sorted ->
                               parseDate (MISPEvent.date e) = Some t).
  { intros t e Hin. apply candidates_In in Hin. tauto. }
  split.
  - assert (Hfirst : StronglySorted laterFirst (firstn 5 sorted))
      by now apply sorted_firstn.
    assert (Hsub : forall x, In x (firstn 5 sorted) -> In x sorted)
      by (intros x; apply firstn_In_inv).
    induction (firstn 5 sorted) as [| [t e] l IH]; [constructor |].
    inversion Hfirst as [| ? ? Hl Ha]; subst. simpl. constructor.
    + apply IH; [exact Hl |]. intros x Hx. apply Hsub. now right.
    + rewrite Forall_forall in *. intros e' He'.
      apply in_map_iff in He'. destruct He' as [[t' e''] [Heq Hin']].
      cbn [snd] in Heq. subst e''.
      exists t, t'. split; [apply Hdated, Hsub; now left |].
      split; [apply Hdated, Hsub; now right |].
      exact (Ha (t', e') Hin').
  - intros candidate Hin [Hlevel [t [Hdate Hcut]]].
    assert (Hc : In (t, candidate) sorted)
      by (apply candidates_In; tauto).
    rewrite <- (firstn_skipn 5 sorted) in Hc, Hsorted.
    apply in_app_or in Hc. destruct Hc as [Hc | Hc].
    + left. apply in_map_iff. now exists (t, candidate).
    + right. intros event Hevent. apply in_map_iff in Hevent.
      destruct Hevent as [[te e] [Heq Hin']]. cbn [snd] in Heq. subst e.
      exists te, t. split; [apply Hdated; now apply firstn_In_inv in Hin' |].
      split; [exact Hdate |].
      exact (sorted_app_inv _ _ _ Hsorted _ _ Hin' Hc).
Qed.

End Trending.

(* ------------------------------------------------------------------ *)
(** ** Distributions and scores of the metrics service                 *)
(* ------------------------------------------------------------------ *)

Section MetricsTables.

Import EventMetricsService.

Lemma countTag_without_tlp (tags : list Tag.t)
    (counts : list (string * Tally)) :
  (forall tag, In tag tags ->
               JS.includes (JS.toLowerCase (Tag.name tag)) "tlp:" = false) ->
  fold_left countTag tags (counts, false) = (counts, false).
Proof.
  induction tags as [| tag tags IH]; intros H; [reflexivity |].
  cbn [fold_left]. unfold countTag at 2.
  rewrite (H tag (or_introl eq_refl)). apply IH.
  intros t Ht. apply H. now right.
Qed.

Lemma countEvents_without_tlp (events : list MISPEvent.t) (k : nat) :
  (forall event tag,
      In event events -> In tag (MISPEvent.tags event) ->
      JS.includes (JS.toLowerCase (Tag.name tag)) "tlp:" = false) ->
  fold_left countEvent events [("undefined", Count (S k))] =
    [("undefined", Count (S k + List.length events))].
Proof.
  revert k; induction events as [| e events IH]; intros k H.
  - cbn. now rewrite Nat.add_0_r.
  - cbn [fold_left]. unfold countEvent at 2.
    rewrite countTag_without_tlp by (intros tag; apply H; now left).
    cbn [negb]. change (increment [("undefined", Count (S k))] "undefined")
      with [("undefined", Count (S k + 1))].
    replace (S k + 1) with (S (S k)) by lia.
    rewrite IH by (intros event tag He; apply H; now right).
    cbn [List.length]. do 3 f_equal. lia.
Qed.

(** X13.  For a collection that is not empty and none of whose tags
    mentions [tlp:], the TLP distribution is the single entry UNDEFINED
    with the size of the collection as its count. *)
Theorem calculateTlpDistribution_without_tlp (events : list MISPEvent.t) :
  events <> [] ->
  (forall event tag,
      In event events -> In tag (MISPEvent.tags event) ->
      JS.includes (JS.toLowerCase (Tag.name tag)) "tlp:" = false) ->
  calculateTlpDistribution events =
    [TlpEntry.make "UNDEFINED" (Count (List.length events))
       (JS.Str "#9e9e9e")].
Proof.
  intros Hne H. destruct events as [| e events]; [contradiction |].
  unfold calculateTlpDistribution. cbn [fold_left].
  unfold countEvent at 2.
  rewrite countTag_without_tlp by (intros tag; apply H; now left).
  cbn [negb]. change (increment [] "undefined")
    with [("undefined", Count 1)].
  rewrite countEvents_without_tlp
    by (intros event tag He; apply H; now right).
  reflexivity.
Qed.

Lemma calculateTlpDistribution_without_tlp_witness :
  calculateTlpDistribution [untaggedEvent; untaggedEvent] =
    [TlpEntry.make "UNDEFINED" (Count 2) (JS.Str "#9e9e9e")].
Proof.
  apply (calculateTlpDistribution_without_tlp [untaggedEvent; untaggedEvent]).
  - discriminate.
  - intros event tag [<- | [<- | []]] [].
Defined.

Lemma includes_weaken (s a b : string) :
  JS.includes s (a ++ b) = true -> JS.includes s a = true.
Proof.
  rewrite !includes_spec. intros [pre [post H]].
  exists pre, (b ++ post). now rewrite H, append_assoc.
Qed.

(** X14.  [extractAttackType] answers exactly for the patterns that
    contain T1498: Direct Flood when the pattern contains T1498.001,
    otherwise Amplification when it contains T1498.002, otherwise
    Network DoS; for every other pattern it answers null. *)
Theorem extractAttackType_cases (attackPattern : string) :
  (extractAttackType attackPattern = None <->
   JS.includes attackPattern "T1498" = false) /\
  (JS.includes attackPattern "T1498.001" = true ->
   extractAttackType attackPattern = Some "Direct Flood") /\
  (JS.includes attackPattern "T1498.001" = false ->
   JS.includes attackPattern "T1498.002" = true ->
   extractAttackType attackPattern = Some "Amplification") /\
  (JS.includes attackPattern "T1498.001" = false ->
   JS.includes attackPattern "T1498.002" = false ->
   JS.includes attackPattern "T1498" = true ->
   extractAttackType attackPattern = Some "Network DoS").
Proof.
  unfold extractAttackType.
  pose proof (includes_weaken attackPattern "T1498" ".001") as H1.
  pose proof (includes_weaken attackPattern "T1498" ".002") as H2.
  cbn [append] in H1, H2.
  destruct (JS.includes attackPattern "T1498.001");
    destruct (JS.includes attackPattern "T1498.002");
    destruct (JS.includes attackPattern "T1498");
    repeat split; intros; try discriminate; try reflexivity;
    try (specialize (H1 eq_refl); discriminate);
    try (specialize (H2 eq_refl); discriminate).
Qed.

(** X15.  An event that carries the tags of a compiled record is counted
    once as Network DoS and once under the attack-type text of its
    record, in this order; a direct-flood record is not counted as
    Direct Flood and an amplification record not as Amplification. *)
Theorem calculateAttackTypes_of_compiled
    (d : DDoSEvent.t) (event : MISPEvent.t) :
  map Tag.name (MISPEvent.tags event) = MISPApiService.buildTags d ->
  calculateAttackTypes [event] =
    Some [("Network DoS", 1); (attackKind (DDoSEvent.attack_type d), 1)].
Proof.
  intros Htags. unfold calculateAttackTypes, attackTypeCounts.
  cbn [fold_left].
  destruct (MISPEvent.tags event) as [| [n1 c1] [| [n2 c2] [| [n3 c3] [| t4 r]]]];
    destruct d as [? ? ? ? ? [] []]; try discriminate Htags;
    injection Htags as -> -> ->; reflexivity.
Qed.

Lemma calculateAttackTypes_of_compiled_witness :
  calculateAttackTypes
    [MISPEvent.make "9" "T" "2025-02-01" TL1 false
       (map (fun name => Tag.make name "#cccccc")
            (MISPApiService.buildTags exampleRecord))] =
    Some [("Network DoS", 1); ("volumetric", 1)].
Proof.
  apply (calculateAttackTypes_of_compiled exampleRecord
           (MISPEvent.make "9" "T" "2025-02-01" TL1 false
              (map (fun name => Tag.make name "#cccccc")
                   (MISPApiService.buildTags exampleRecord)))
           eq_refl).
Defined.

End MetricsTables.

(* ------------------------------------------------------------------ *)
(** ** Bounds of the posture score and the event velocity              *)
(* ------------------------------------------------------------------ *)

Section PostureBounds.

Import EventMetricsService.
Local Open Scope Q_scope.





(** X17.  The event velocity over a positive number of days, for fewer
    than 2^53 days and events, is a finite double that is not negative,
    that is zero exactly when no event is dated at or after the cut-off,
    and that differs from the quotient of the events by the days by at
    most the 2^-53-th part of the quotient and the spacing of the
    smallest doubles; over zero days it is NaN when there is no such
    event and positive infinity otherwise. *)
Theorem calculateEventVelocity_edges
    (parseDate : string -> option Z) (cutoff : Z)
    (events : list MISPEvent.t) (days : nat) :
  let recent := List.length (datedSince parseDate cutoff events) in
  ((0 < days)%nat ->
   (Z.of_nat recent < 2 ^ 53)%Z -> (Z.of_nat days < 2 ^ 53)%Z ->
   exists q,
     calculateEventVelocity parseDate cutoff events days = JS.Finite q /\
     0 <= q /\
     (q == 0 <-> recent = 0%nat) /\
     Qabs (q - ratio recent days) <=
       ratio recent days * (1 # 2 ^ 53) + JS.pow2 (-1075)) /\
  (days = 0%nat -> recent = 0%nat ->
   calculateEventVelocity parseDate cutoff events days = JS.NaN) /\
  (days = 0%nat -> (0 < recent)%nat ->
   calculateEventVelocity parseDate cutoff events days = JS.PosInfinity).
Proof.
  cbn zeta. unfold calculateEventVelocity, ratio.
  set (recent := List.length _). split; [| split].
  - intros Hdays Hrecent Hbound. destruct days as [| d]; [lia |].
    rewrite div_counts.
    set (rq := inject_Z (Z.of_nat recent)).
    set (dq := inject_Z (Z.of_nat (S d))).
    assert (Hd1 : 1 <= dq).
    { unfold dq. change 1 with (inject_Z 1). rewrite <- Zle_Qle. lia. }
    assert (Hd53 : dq <= inject_Z (2 ^ 53)).
    { unfold dq. rewrite <- Zle_Qle. lia. }
    assert (Hr0 : 0 <= rq).
    { unfold rq. change 0 with (inject_Z 0). rewrite <- Zle_Qle. lia. }
    assert (Hr53 : rq <= inject_Z (2 ^ 53)).
    { unfold rq. rewrite <- Zle_Qle. lia. }
    assert (Hpos : 0 < dq) by lra.
    assert (Ht0 : 0 <= rq / dq).
    { apply Qle_shift_div_l; [exact Hpos | lra]. }
    assert (Ht1 : rq / dq <= inject_Z (2 ^ 53)).
    { apply Qle_shift_div_r; [exact Hpos |].
      assert (H : inject_Z (2 ^ 53) * 1 <= inject_Z (2 ^ 53) * dq)
        by (apply Qmult_le_l; [reflexivity | exact Hd1]).
      lra. }
    rewrite (small_is_finite (rq / dq) (inject_Z (2 ^ 53)));
      [| now apply abs_of_nonneg | vm_compute; discriminate].
    eexists. split; [reflexivity |].
    split; [now apply round64_nonneg |].
    split.
    + split.
      * intros Hzero.
        destruct recent as [| k] eqn:Ek; [reflexivity | exfalso].
        assert (Hr1 : 1 <= rq).
        { unfold rq. change 1 with (inject_Z 1). rewrite <- Zle_Qle. lia. }
        assert (Hsmall : 1 # 2 ^ 53 <= rq / dq).
        { apply Qle_shift_div_l; [exact Hpos |].
          assert (H : (1 # 2 ^ 53) * dq <= (1 # 2 ^ 53) * inject_Z (2 ^ 53))
            by (apply Qmult_le_l; [reflexivity | exact Hd53]).
          assert (H1 : (1 # 2 ^ 53) * inject_Z (2 ^ 53) == 1)
            by (vm_compute; reflexivity).
          lra. }
        pose proof (round64_mono _ _ Hsmall Ht0) as Hm.
        assert (Hc : 0 < JS.round64 (1 # 2 ^ 53)) by (vm_compute; reflexivity).
        lra.
      * intros Hzero. apply round64_zero.
        unfold rq. rewrite Hzero. unfold Qdiv. apply Qmult_0_l.
    + pose proof (round64_close (rq / dq)) as Hc.
      rewrite (Qabs_pos (rq / dq) Ht0) in Hc.
      assert (Hu : JS.pow2 (-53) == 1 # 2 ^ 53) by (vm_compute; reflexivity).
      rewrite Hu in Hc. exact Hc.
  - intros -> ->. reflexivity.
  - intros -> Hpos. destruct recent as [| n]; [lia |]. reflexivity.
Qed.

End PostureBounds.

(* ------------------------------------------------------------------ *)
(** ** Structural validation of JSON files and of files as a whole     *)
(* ------------------------------------------------------------------ *)

Section JsonValidation.

Import FileProcessingService.

Lemma own_is_key {A : Type} (props : list (string * A)) (key : string) :
  match JS.own props key with
  | Some _ => true
  | None => false
  end = existsb (String.eqb key) (map fst props).
Proof.
  induction props as [| [k v] props IH]; [reflexivity |].
  cbn [JS.own map fst existsb].
  rewrite (String.eqb_sym key k).
  destruct (String.eqb k key); [reflexivity | exact IH].
Qed.

Lemma required_not_inherited (field : string) :
  In field requiredFields -> JS.isInherited field = false.
Proof.
  intros Hreq. simpl in Hreq.
  destruct Hreq as [<- | [<- | [<- | [<- | [<- | [<- | []]]]]]];
    reflexivity.
Qed.

Lemma has_structured (event : JSON.t) (field : string) :
  structured event -> In field requiredFields ->
  JSON.has field event =
    Some (existsb (String.eqb field) (keysOfEvent event)).
Proof.
  intros Hs Hreq. pose proof (required_not_inherited field Hreq) as Hinh.
  destruct event as [| | b | x | s | items | props]; try contradiction.
  - cbn [JSON.has keysOfEvent existsb]. now rewrite Hinh.
  - cbn [JSON.has keysOfEvent]. rewrite <- own_is_key.
    destruct (JS.own props field); [reflexivity | now rewrite Hinh].
Qed.

Lemma filterMissing_structured (event : JSON.t) (fields : list string) :
  structured event ->
  (forall field, In field fields -> In field requiredFields) ->
  filterMissing event fields =
    Some (filter
            (fun field =>
               negb (existsb (String.eqb field) (keysOfEvent event)))
            fields).
Proof.
  intros Hs. induction fields as [| f fields IH]; intros Hreq.
  - reflexivity.
  - cbn [filterMissing filter].
    rewrite (has_structured event f Hs) by (apply Hreq; now left).
    rewrite IH by (intros field Hin; apply Hreq; now right).
    destruct (existsb (String.eqb f) (keysOfEvent event)); reflexivity.
Qed.

Lemma missingFields_structured (event : JSON.t) :
  structured event -> missingFields event = Some (lackingFields event).
Proof.
  intros Hs. unfold missingFields, lackingFields.
  now apply filterMissing_structured.
Qed.

Lemma missingFields_primitive (event : JSON.t) :
  ~ structured event -> missingFields event = None.
Proof.
  intros Hs.
  destruct event as [| | b | x | s | items | props];
    try reflexivity; exfalso; apply Hs; exact I.
Qed.

Lemma structured_dec (event : JSON.t) : structured event \/ ~ structured event.
Proof.
  destruct event; simpl; tauto.
Qed.

Lemma existsb_eqb_key (field : string) (keys : list string) :
  existsb (String.eqb field) keys = true <-> In field keys.
Proof.
  rewrite existsb_exists. split.
  - intros [x [Hin Heq]]. apply String.eqb_eq in Heq. now subst x.
  - intros Hin. exists field. split; [exact Hin | apply String.eqb_refl].
Qed.

Lemma complete_is_structured (event : JSON.t) :
  completeEvent event -> structured event.
Proof. intros [props [-> _]]. exact I. Qed.

Lemma lackingFields_nil_iff (event : JSON.t) :
  structured event /\ lackingFields event = [] <-> completeEvent event.
Proof.
  unfold lackingFields, completeEvent. split.
  - intros [Hs Hnil].
    assert (Hall : forall field, In field requiredFields ->
                                 In field (keysOfEvent event)).
    { intros field Hreq. apply existsb_eqb_key.
      destruct (existsb (String.eqb field) (keysOfEvent event)) eqn:E;
        [reflexivity |].
      assert (Hin : In field
                (filter (fun f => negb (existsb (String.eqb f)
                                          (keysOfEvent event)))
                        requiredFields)).
      { apply filter_In. split; [exact Hreq | now rewrite E]. }
      rewrite Hnil in Hin. destruct Hin. }
    destruct event as [| | b | x | s | items | props]; try contradiction.
    + exfalso. apply (Hall "title"). simpl. tauto.
    + exists props. split; [reflexivity | exact Hall].
  - intros [props [-> Hall]]. split; [exact I |].
    cbn [keysOfEvent].
    destruct (filter _ requiredFields) as [| f fs] eqn:E; [reflexivity |].
    assert (Hin : In f (filter (fun f => negb (existsb (String.eqb f)
                                                 (map fst props)))
                               requiredFields))
      by (rewrite E; now left).
    apply filter_In in Hin. destruct Hin as [Hreq Hmiss].
    apply negb_true_iff in Hmiss.
    apply Hall, existsb_eqb_key in Hreq. congruence.
Qed.

Lemma missingFields_nil_iff (event : JSON.t) :
  missingFields event = Some [] <-> completeEvent event.
Proof.
  rewrite <- lackingFields_nil_iff. split.
  - intros H. destruct (structured_dec event) as [Hs | Hs].
    + rewrite (missingFields_structured event Hs) in H.
      injection H as H. now split.
    + rewrite (missingFields_primitive event Hs) in H. discriminate H.
  - intros [Hs Hnil]. now rewrite (missingFields_structured event Hs), Hnil.
Qed.

Lemma completeEvent_dec (event : JSON.t) :
  completeEvent event \/ ~ completeEvent event.
Proof.
  destruct (missingFields event) as [[| f fs] |] eqn:E.
  - left. now apply missingFields_nil_iff.
  - right. intros H. apply missingFields_nil_iff in H. congruence.
  - right. intros H. apply missingFields_nil_iff in H. congruence.
Qed.

Section WithMessages.

Variable messageOf : EngineError -> string.

Lemma checkEventsFrom_complete (i : nat) (events : list JSON.t) :
  (forall event, In event events -> completeEvent event) ->
  checkEventsFrom messageOf i events = Resolved.
Proof.
  revert i; induction events as [| e events IH]; intros i H; [reflexivity |].
  cbn [checkEventsFrom].
  rewrite (proj2 (missingFields_nil_iff e)) by (apply H; now left).
  cbn. apply IH. intros event He. apply H. now right.
Qed.

Lemma checkEventsFrom_first_incomplete (i : nat)
    (good : list JSON.t) (bad : JSON.t) (rest : list JSON.t) :
  (forall event, In event good -> completeEvent event) ->
  ~ completeEvent bad ->
  checkEventsFrom messageOf i (app good (bad :: rest)) =
    match missingFields bad with
    | Some missing =>
        Thrown ("Event " ++ JS.ofNat (i + List.length good + 1) ++
                " missing required fields: " ++ JS.join ", " missing)
    | None => Thrown (messageOf (InTypeError "title" bad))
    end.
Proof.
  revert i; induction good as [| e good IH]; intros i Hgood Hbad.
  - cbn [app checkEventsFrom List.length].
    destruct (missingFields bad) as [[| f fs] |] eqn:E.
    + exfalso. apply Hbad. now apply missingFields_nil_iff.
    + cbn [List.length Nat.ltb Nat.leb]. now rewrite Nat.add_0_r.
    + reflexivity.
  - cbn [app checkEventsFrom].
    rewrite (proj2 (missingFields_nil_iff e)) by (apply Hgood; now left).
    cbn [List.length Nat.ltb Nat.leb].
    rewrite IH by (try (intros event He; apply Hgood; now right); assumption).
    replace (i + 1 + List.length good + 1)
      with (i + S (List.length good) + 1) by lia.
    reflexivity.
Qed.

Lemma incomplete_split (events : list JSON.t) :
  ~ (forall event, In event events -> completeEvent event) ->
  exists good bad rest,
    events = app good (bad :: rest) /\
    (forall event, In event good -> completeEvent event) /\
    ~ completeEvent bad.
Proof.
  induction events as [| e events IH]; intros H.
  - exfalso. apply H. intros event [].
  - destruct (completeEvent_dec e) as [E | E].
    + destruct IH as [good [bad [rest [-> [Hgood Hbad]]]]].
      { intros Hall. apply H. intros event [<- | He]; auto. }
      exists (e :: good), bad, rest. split; [reflexivity |].
      split; [| exact Hbad]. intros event [<- | He]; auto.
    + exists [], e, events. split; [reflexivity |].
      split; [intros event [] | exact E].
Qed.

Lemma all_complete_dec (events : list JSON.t) :
  (forall event, In event events -> completeEvent event) \/
  ~ (forall event, In event events -> completeEvent event).
Proof.
  induction events as [| x l IH].
  - left. intros ev [].
  - destruct (completeEvent_dec x) as [Ex | Ex].
    + destruct IH as [IH | IH].
      * left. intros ev [<- | Hev]; auto.
      * right. intros Hall. apply IH. intros ev Hev. apply Hall. now right.
    + right. intros Hall. apply Ex, Hall. now left.
Qed.

Lemma thrown_is_not_resolved (event : JSON.t) (i : nat) :
  match missingFields event with
  | Some missing =>
      Thrown ("Event " ++ JS.ofNat i ++
              " missing required fields: " ++ JS.join ", " missing)
  | None => Thrown (messageOf (InTypeError "title" event))
  end <> Resolved.
Proof. destruct (missingFields event); discriminate. Qed.

(** What the validator accepts. *)
Lemma resolved_iff_complete
    (JSON_parse : string -> option JSON.t) (content : string) :
  validateJSONContent messageOf JSON_parse content = Resolved <->
  exists data,
    JSON_parse content = Some data /\
    JSON.elements data <> [] /\
    forall event, In event (JSON.elements data) -> completeEvent event.
Proof.
  unfold validateJSONContent.
  destruct (JSON_parse content) as [data |].
  - destruct (JSON.elements data) as [| e events] eqn:E.
    + cbn. split; [discriminate |].
      intros [data' [Hd [Hne _]]]. injection Hd as <-.
      rewrite E in Hne. contradiction.
    + cbn [List.length Nat.eqb]. split.
      * intros Hres. exists data. split; [reflexivity |].
        rewrite E. split; [discriminate |].
        destruct (all_complete_dec (e :: events)) as [Hall | Hnot];
          [exact Hall |].
        apply incomplete_split in Hnot.
        destruct Hnot as [good [bad [rest [Heq [Hgood Hbad]]]]].
        rewrite Heq, checkEventsFrom_first_incomplete in Hres
          by assumption.
        exfalso. exact (thrown_is_not_resolved _ _ Hres).
      * intros [data' [Hd [_ Hall]]]. injection Hd as <-.
        rewrite E in Hall. now apply checkEventsFrom_complete.
  - split; [discriminate | intros [data [Hd _]]; discriminate Hd].
Qed.

(** X18.  [validateJSONContent] resolves exactly when the text parses,
    holds at least one event, and every event has each of the six
    required fields among its keys. *)
Theorem validateJSONContent_accepts_iff
    (JSON_parse : string -> option JSON.t) (content : string) :
  validateJSONContent messageOf JSON_parse content = Resolved <->
  exists data,
    JSON_parse content = Some data /\
    JSON.elements data <> [] /\
    forall event, In event (JSON.elements data) -> completeEvent event.
Proof. exact (resolved_iff_complete JSON_parse content). Qed.

(** X19.  When the events of a parsed file are complete up to one that
    is not, [validateJSONContent] throws the error of that event.  For
    an object or an array the message gives its position, counted from
    1, and lists the required fields that are no key of it, in the order
    of the requirement.  For [null], a number, a text or a boolean it is
    the TypeError that the engine raises on the test [title in event],
    with the message of the engine. *)
Theorem validateJSONContent_names_first_incomplete
    (JSON_parse : string -> option JSON.t) (content : string)
    (data : JSON.t) (good : list JSON.t) (bad : JSON.t)
    (rest : list JSON.t) :
  JSON_parse content = Some data ->
  JSON.elements data = app good (bad :: rest) ->
  (forall event, In event good -> completeEvent event) ->
  ~ completeEvent bad ->
  (structured bad ->
   lackingFields bad <> [] /\
   validateJSONContent messageOf JSON_parse content =
     Thrown ("Event " ++ JS.ofNat (List.length good + 1) ++
             " missing required fields: " ++
             JS.join ", " (lackingFields bad))) /\
  (~ structured bad ->
   validateJSONContent messageOf JSON_parse content =
     Thrown (messageOf (InTypeError "title" bad))).
Proof.
  intros Hparse Hevents Hgood Hbad. unfold validateJSONContent.
  rewrite Hparse, Hevents.
  assert (Hlen : Nat.eqb (List.length (app good (bad :: rest))) 0 = false).
  { rewrite length_app. simpl. apply Nat.eqb_neq. lia. }
  rewrite Hlen, checkEventsFrom_first_incomplete by assumption.
  split.
  - intros Hs. rewrite (missingFields_structured bad Hs).
    split; [| reflexivity].
    intros Hnil. apply Hbad. now apply lackingFields_nil_iff.
  - intros Hs. now rewrite (missingFields_primitive bad Hs).
Qed.

End WithMessages.

Lemma validateJSONContent_names_first_incomplete_witness :
  validateJSONContent engineMessage twoEventsParser "[{}, {}]" =
    Thrown "Event 2 missing required fields: attacker_ips, victim_ips, attack_type, severity".
Proof.
  assert (Hbad : ~ completeEvent (objectWith ["title"; "description"])).
  { intros [props [Heq H]]. injection Heq as <-.
    specialize (H "severity"). simpl in H.
    destruct H as [H | [H | []]]; try discriminate H. tauto. }
  apply (proj1 (validateJSONContent_names_first_incomplete engineMessage
                  twoEventsParser "[{}, {}]"
                  (JSON.Arr [ objectWith requiredFields;
                              objectWith ["title"; "description"] ])
                  [ objectWith requiredFields ]
                  (objectWith ["title"; "description"]) []
                  eq_refl eq_refl
                  ltac:(intros event [<- | []]; exists
                          (map (fun key => (key, JSON.Str "")) requiredFields);
                        split; [reflexivity | intros field Hin; exact Hin])
                  Hbad) I).
Defined.

End JsonValidation.

Section FileValidation.

Import AIEnhancedFileProcessingService.

Variable messageOf : EngineError -> string.

Lemma lackingFields_length (event : JSON.t) :
  List.length (lackingFields event) <= 6.
Proof.
  unfold lackingFields.
  apply (Nat.le_trans _ _ _ (filter_length_le _ _)). simpl. lia.
Qed.

(** The sum of the lacking fields over some events. *)
Lemma countMissing_structured (events : list JSON.t) (total : nat) :
  Forall structured events ->
  countMissing messageOf events total =
    Returned (total +
              list_sum (map (fun event => List.length (lackingFields event))
                            events)).
Proof.
  revert total.
  induction events as [| e events IH]; intros total Hall.
  - simpl. apply f_equal. lia.
  - inversion Hall as [| x l Hs Hrest]; subst.
    cbn [countMissing map list_sum].
    rewrite (missingFields_structured e Hs), (IH _ Hrest).
    apply f_equal. unfold list_sum. cbn [fold_right]. lia.
Qed.

Lemma countMissing_primitive (events : list JSON.t) (total : nat) :
  ~ Forall structured events ->
  exists event,
    In event events /\ ~ structured event /\
    countMissing messageOf events total =
      Threw (messageOf (InTypeError "title" event)).
Proof.
  revert total.
  induction events as [| e events IH]; intros total Hnot.
  - exfalso. apply Hnot. constructor.
  - cbn [countMissing].
    destruct (structured_dec e) as [Hs | Hs].
    + rewrite (missingFields_structured e Hs).
      destruct (IH (total + List.length (lackingFields e)))
        as [event [Hin [Hevent Heq]]].
      { intros Hrest. apply Hnot. now constructor. }
      exists event. split; [now right |]. split; assumption.
    + rewrite (missingFields_primitive e Hs).
      exists e. split; [now left |]. split; [exact Hs | reflexivity].
Qed.

Lemma sum_lacking_le (events : list JSON.t) :
  list_sum (map (fun event => List.length (lackingFields event)) events)
  <= 6 * List.length events.
Proof.
  induction events as [| e events IH]; [simpl; lia |].
  pose proof (lackingFields_length e).
  unfold list_sum in *. cbn [map fold_right List.length]. lia.
Qed.

Lemma sum_lacking_complete (events : list JSON.t) :
  (forall event, In event events -> completeEvent event) ->
  list_sum (map (fun event => List.length (lackingFields event)) events) = 0.
Proof.
  induction events as [| e events IH]; intros H; [reflexivity |].
  assert (He : completeEvent e) by (apply H; now left).
  apply lackingFields_nil_iff in He. destruct He as [_ He].
  unfold list_sum in *. cbn [map fold_right]. rewrite He.
  cbn [List.length Nat.add]. apply IH. intros event Hin. apply H. now right.
Qed.

Lemma first_five (events : list JSON.t) :
  firstn (Nat.min (List.length events) 5) events = firstn 5 events.
Proof.
  destruct (Nat.le_ge_cases (List.length events) 5) as [H | H].
  - rewrite Nat.min_l by exact H.
    now rewrite firstn_all, (firstn_all2 (n := 5)) by exact H.
  - now rewrite Nat.min_r by exact H.
Qed.

(** What the tolerant validator accepts, when it can test the first five
    events. *)
Lemma resolved_iff_tolerated
    (JSON_parse : string -> option JSON.t) (content : string)
    (data : JSON.t) :
  JSON_parse content = Some data ->
  Forall structured (firstn 5 (JSON.elements data)) ->
  (validateJSONContent messageOf JSON_parse content = Resolved <->
   JSON.elements data <> [] /\
   list_sum (map (fun event => List.length (lackingFields event))
                 (firstn 5 (JSON.elements data)))
   <= 2 * List.length (JSON.elements data)).
Proof.
  intros Hparse. set (events := JSON.elements data).
  intros Hall. unfold validateJSONContent. rewrite Hparse.
  fold events. rewrite first_five.
  destruct (Nat.eqb_spec (List.length events) 0) as [E | E].
  - split; [discriminate |]. intros [Hne _].
    destruct events; [contradiction | discriminate E].
  - rewrite (countMissing_structured _ 0 Hall). cbn [Nat.add].
    destruct (Nat.ltb_spec (List.length events * 2)
                (list_sum (map (fun event =>
                                  List.length (lackingFields event))
                               (firstn 5 events)))) as [Hlt | Hge].
    + split; [discriminate | intros [_ H]; lia].
    + split; [| reflexivity]. intros _. split; [| lia].
      intros Hnil. rewrite Hnil in E. now apply E.
Qed.

(** X20.  The validator of the AI-enhanced service looks at the first
    five events only and tolerates missing fields.  When each of the
    first five events is an object or an array, a parsed file resolves
    exactly when it holds an event and the required fields that these
    five lack are, taken together, at most twice as many as the file has
    events: the events after the fifth are counted and not looked at.
    When one of the first five is [null], a number, a text or a boolean
    the validator throws the TypeError that the engine raises on the
    test [title in event].  So a file of fifteen events or more whose
    first five are objects or arrays always resolves. *)
Theorem validateJSONContent_tolerance
    (JSON_parse : string -> option JSON.t) (content : string)
    (data : JSON.t) :
  JSON_parse content = Some data ->
  let events := JSON.elements data in
  (Forall structured (firstn 5 events) ->
   (validateJSONContent messageOf JSON_parse content = Resolved <->
    events <> [] /\
    list_sum (map (fun event => List.length (lackingFields event))
                  (firstn 5 events)) <= 2 * List.length events)) /\
  (~ Forall structured (firstn 5 events) ->
   exists event,
     In event (firstn 5 events) /\ ~ structured event /\
     validateJSONContent messageOf JSON_parse content =
       Thrown (messageOf (InTypeError "title" event))) /\
  (Forall structured (firstn 5 events) -> 15 <= List.length events ->
   validateJSONContent messageOf JSON_parse content = Resolved).
Proof.
  intros Hparse events.
  pose proof (resolved_iff_tolerated JSON_parse content data Hparse) as Hiff.
  fold events in Hiff.
  split; [exact Hiff |]. split.
  - intros Hnot. unfold validateJSONContent. rewrite Hparse.
    fold events. rewrite first_five.
    destruct (Nat.eqb_spec (List.length events) 0) as [E | E].
    { exfalso. apply Hnot. destruct events; [constructor | discriminate E]. }
    destruct (countMissing_primitive _ 0 Hnot) as [event [Hin [Hs ->]]].
    exists event. split; [exact Hin |]. split; [exact Hs | reflexivity].
  - intros Hall Hlen. apply Hiff; [exact Hall |].
    split; [intros Hnil; rewrite Hnil in Hlen; simpl in Hlen; lia |].
    pose proof (sum_lacking_le (firstn 5 events)) as Hsum.
    pose proof (firstn_le_length 5 events) as Hfive.
    assert (Hfive' : List.length (firstn 5 events) <= 5).
    { rewrite length_firstn. apply Nat.le_min_l. }
    lia.
Qed.

Lemma validateCSVContent_same_verdict (content : string) :
  FileProcessingService.validateCSVContent content = Resolved <->
  validateCSVContent content = Resolved.
Proof.
  unfold FileProcessingService.validateCSVContent, validateCSVContent.
  destruct (Nat.ltb _ 2); [split; discriminate |].
  destruct (Nat.ltb 0 _); split; try discriminate; reflexivity.
Qed.

(** X21.  Every file that the validation of the plain service accepts
    is accepted by the validation of the AI-enhanced service: the same
    file types, a size limit twice as large, the same verdict on CSV
    texts and a more tolerant one on JSON texts. *)
Theorem validateFile_ai_accepts_more
    (JSON_parse : string -> option JSON.t) (file : BrowserFile.t) :
  FileProcessingService.validateFile messageOf JSON_parse file = Resolved ->
  validateFile messageOf JSON_parse file = Resolved.
Proof.
  unfold FileProcessingService.validateFile, validateFile.
  destruct (negb _ && negb _); [discriminate |].
  destruct (N.ltb_spec FileProcessingService.maxSize (BrowserFile.size file))
    as [Hbig | Hsmall]; [discriminate |].
  assert (Hsize : N.ltb maxSize (BrowserFile.size file) = false).
  { apply N.ltb_ge. unfold maxSize, FileProcessingService.maxSize in *. lia. }
  rewrite Hsize.
  destruct (BrowserFile.content file) as [content |]; [| discriminate].
  destruct (JS.endsWith _ ".csv"); [apply validateCSVContent_same_verdict |].
  destruct (JS.endsWith _ ".json"); [| reflexivity].
  intros Hbase. apply resolved_iff_complete in Hbase.
  destruct Hbase as [data [Hparse [Hne Hall]]].
  assert (Hfive : forall event,
             In event (firstn 5 (JSON.elements data)) -> completeEvent event).
  { intros event Hin. apply Hall. now apply firstn_In_inv in Hin. }
  apply (resolved_iff_tolerated JSON_parse content data Hparse).
  - apply Forall_forall. intros event Hin.
    now apply complete_is_structured, Hfive.
  - split; [exact Hne |].
    rewrite (sum_lacking_complete _ Hfive). lia.
Qed.

End FileValidation.

Section FileGates.

Lemma validateJSONContent_tolerance_witness :
  AIEnhancedFileProcessingService.validateJSONContent engineMessage
    twoEventsParser "[{}, {}]" = Resolved.
Proof.
  apply (proj1 (validateJSONContent_tolerance engineMessage
                  twoEventsParser "[{}, {}]"
                  _ eq_refl)).
  - repeat constructor.
  - split; [discriminate | simpl; lia].
Defined.

Lemma validateFile_ai_accepts_more_witness :
  AIEnhancedFileProcessingService.validateFile engineMessage noJson
    goodCsvFile = Resolved.
Proof.
  apply (validateFile_ai_accepts_more engineMessage noJson goodCsvFile).
  reflexivity.
Defined.

(** X22.  The gates of [validateFile]: a file with neither an allowed
    type nor an allowed extension is rejected whatever its size and
    content; a file above 50 MB is rejected without its content being
    read; a file of exactly 50 MB passes the size check; and a file of an
    allowed type whose name ends in neither [.csv] nor [.json] is
    accepted whatever its text is. *)
Theorem validateFile_gates
    (messageOf : EngineError -> string)
    (JSON_parse : string -> option JSON.t) (file : BrowserFile.t) :
  let name := JS.toLowerCase (BrowserFile.name file) in
  (~ In (BrowserFile.type file) FileProcessingService.allowedTypes ->
   JS.endsWith name ".csv" = false -> JS.endsWith name ".json" = false ->
   FileProcessingService.validateFile messageOf JSON_parse file =
     Thrown "Invalid file type. Only CSV and JSON files are allowed.") /\
  (In (BrowserFile.type file) FileProcessingService.allowedTypes \/
   JS.endsWith name ".csv" = true \/ JS.endsWith name ".json" = true ->
   (52428800 < BrowserFile.size file)%N ->
   FileProcessingService.validateFile messageOf JSON_parse file =
     Thrown "File size exceeds 50MB limit.") /\
  (In (BrowserFile.type file) FileProcessingService.allowedTypes ->
   JS.endsWith name ".csv" = false -> JS.endsWith name ".json" = false ->
   (BrowserFile.size file <= 52428800)%N ->
   forall content,
     BrowserFile.content file = Some content ->
     FileProcessingService.validateFile messageOf JSON_parse file = Resolved).
Proof.
  cbn zeta. unfold FileProcessingService.validateFile.
  assert (Htype :
    existsb (String.eqb (BrowserFile.type file))
            FileProcessingService.allowedTypes = true <->
    In (BrowserFile.type file) FileProcessingService.allowedTypes).
  { rewrite existsb_exists. split.
    - intros [x [Hin Heq]]. apply String.eqb_eq in Heq. now subst x.
    - intros Hin. exists (BrowserFile.type file).
      split; [exact Hin | apply String.eqb_refl]. }
  cbn [existsb FileProcessingService.allowedExtensions].
  split; [| split].
  - intros Hnot Hcsv Hjson. rewrite Hcsv, Hjson.
    destruct (existsb _ FileProcessingService.allowedTypes) eqn:E;
      [exfalso; apply Hnot; now apply Htype | reflexivity].
  - intros Hallowed Hsize.
    assert (Hgate :
      negb (existsb (String.eqb (BrowserFile.type file))
                    FileProcessingService.allowedTypes) &&
      negb (JS.endsWith (JS.toLowerCase (BrowserFile.name file)) ".csv" ||
            (JS.endsWith (JS.toLowerCase (BrowserFile.name file)) ".json" ||
             false)) = false).
    { destruct Hallowed as [H | [H | H]].
      - apply Htype in H. now rewrite H.
      - rewrite H. apply andb_false_r.
      - rewrite H, orb_true_r. apply andb_false_r. }
    rewrite Hgate.
    assert (Hlt : N.ltb FileProcessingService.maxSize (BrowserFile.size file)
                  = true) by (apply N.ltb_lt; exact Hsize).
    now rewrite Hlt.
  - intros Hallowed Hcsv Hjson Hsize content Hcontent.
    apply Htype in Hallowed. rewrite Hallowed. cbn [negb andb].
    assert (Hle : N.ltb FileProcessingService.maxSize (BrowserFile.size file)
                  = false) by (apply N.ltb_ge; exact Hsize).
    now rewrite Hle, Hcontent, Hcsv, Hjson.
Qed.

Lemma validateFile_gates_witness :
  FileProcessingService.validateFile engineMessage twoEventsParser
    (BrowserFile.make "notes.txt" "text/plain" 52428800%N
       (Some "no columns at all")) = Resolved.
Proof.
  apply (proj2 (proj2 (validateFile_gates engineMessage twoEventsParser
                         (BrowserFile.make "notes.txt" "text/plain"
                            52428800%N (Some "no columns at all"))))
           (or_intror (or_intror (or_introl eq_refl))) eq_refl eq_refl)
    with (content := "no columns at all").
  - discriminate.
  - reflexivity.
Defined.

End FileGates.

(* ------------------------------------------------------------------ *)
(** ** Uploads and status queries                                      *)
(* ------------------------------------------------------------------ *)

Section Uploads.

Import FileProcessingService.

Variable messageOf : EngineError -> string.
Variable JSON_parse : string -> option JSON.t.
Variable btoa : string -> option string.
Variable config : GitHubConfig.t.
Variable fetch : Request.t -> Fetched (option JSON.t).



End Uploads.

Section AIUploads.

Import AIEnhancedFileProcessingService.

Variable messageOf : EngineError -> string.
Variable ToNumber : JSON.t -> JS.Number.
Variable JSON_parse : string -> option JSON.t.
Variable config : GitHubConfig.t.
Variable fetch : Request.t -> Fetched (option JSON.t).



End AIUploads.

Section StatusQueries.

Lemma statusMap_cases (status : string) :
  (status = "completed" /\
   JS.orElse (JS.get statusMap status) (JS.Str "pending") =
     JS.Str "completed") \/
  (status = "in_progress" /\
   JS.orElse (JS.get statusMap status) (JS.Str "pending") =
     JS.Str "processing") \/
  (status <> "completed" /\ status <> "in_progress" /\
   JS.orElse (JS.get statusMap status) (JS.Str "pending") <>
     JS.Str "completed" /\
   JS.orElse (JS.get statusMap status) (JS.Str "pending") <>
     JS.Str "processing").
Proof.
  unfold JS.get, statusMap. cbn [JS.own].
  destruct (String.eqb_spec "queued" status) as [<- | Hq].
  { right; right. repeat split; discriminate. }
  destruct (String.eqb_spec "in_progress" status) as [<- | Hp].
  { right; left. now split. }
  destruct (String.eqb_spec "completed" status) as [<- | Hc].
  { left. now split. }
  right; right.
  destruct (String.eqb_spec "failure" status) as [<- | Hf];
    [repeat split; discriminate |].
  destruct (String.eqb_spec "cancelled" status) as [<- | Hx];
    [repeat split; discriminate |].
  destruct (JS.isInherited status);
    repeat split; try discriminate; congruence.
Qed.

(** X25. [getProcessingStatus] answers null exactly when the run list could
    not be fetched, the response was not ok, or no run named
    "Process DDoS Data Files" mentions the processing id in its commit
    message; a report it returns has progress 100 when its status is
    "completed" and progress 50 otherwise (the progress follows the run's
    raw status, which the status table maps to "completed" only for
    "completed"). *)
Theorem getProcessingStatus_report
    (fetched : Fetched (list WorkflowRun.t)) (processingId : string) :
  (FileProcessingService.getProcessingStatus fetched processingId = None <->
   forall response runs,
     fetched = Responded response runs -> HttpResponse.ok response = true ->
     forall run,
       In run runs ->
       WorkflowRun.name run = "Process DDoS Data Files" ->
       mentions (WorkflowRun.head_commit_message run) processingId = false) /\
  (forall report,
      FileProcessingService.getProcessingStatus fetched processingId =
        Some report ->
      (StatusReport.progress report = 100 /\
       StatusReport.status report = JS.Str "completed") \/
      (StatusReport.progress report = 50 /\
       StatusReport.status report <> JS.Str "completed")).
Proof.
  split.
  - unfold FileProcessingService.getProcessingStatus.
    destruct fetched as [m | response runs].
    + split; [intros _ r rs H; discriminate H | reflexivity].
    + destruct (HttpResponse.ok response) eqn:Eok; cbn [negb].
      * destruct (find _ runs) as [run |] eqn:Efind.
        -- split; [discriminate |]. intros H.
           apply find_some in Efind. destruct Efind as [Hin Hp].
           apply andb_true_iff in Hp. destruct Hp as [Hname Hm].
           apply String.eqb_eq in Hname.
           rewrite (H response runs eq_refl Eok run Hin Hname) in Hm.
           discriminate Hm.
        -- split; [| reflexivity]. intros _ r rs Heq Hok run Hin Hname.
           injection Heq as <- <-.
           apply find_none with (x := run) in Efind; [| exact Hin].
           apply andb_false_iff in Efind. destruct Efind as [Hn | Hm];
             [| exact Hm].
           rewrite Hname in Hn. discriminate Hn.
      * split; [| reflexivity]. intros _ r rs Heq Hok.
        injection Heq as <- <-. congruence.
  - intros report. unfold FileProcessingService.getProcessingStatus.
    destruct fetched as [m | response runs]; [discriminate |].
    destruct (negb (HttpResponse.ok response)); [discriminate |].
    destruct (find _ runs) as [run |]; [| discriminate].
    intros H. injection H as <-.
    cbn [StatusReport.progress StatusReport.status].
    destruct (statusMap_cases (WorkflowRun.status run))
      as [[-> Hs] | [[-> Hs] | [Hc [Hp [Hs1 Hs2]]]]].
    + left. now split.
    + right. split; [reflexivity | rewrite Hs; discriminate].
    + right. split; [| exact Hs1].
      destruct (String.eqb_spec (WorkflowRun.status run) "completed");
        [contradiction | reflexivity].
Qed.

(** X26. A report returned by [getAIProcessingStatus] has progress 100 with
    status "completed", progress 75 with status "processing", or progress 25
    with any other status. *)
Theorem getAIProcessingStatus_progress
    (fetched : Fetched (list WorkflowRun.t)) (processingId : string)
    (report : StatusReport.t) :
  AIEnhancedFileProcessingService.getAIProcessingStatus fetched
    processingId = Some report ->
  (StatusReport.progress report = 100 /\
   StatusReport.status report = JS.Str "completed") \/
  (StatusReport.progress report = 75 /\
   StatusReport.status report = JS.Str "processing") \/
  (StatusReport.progress report = 25 /\
   StatusReport.status report <> JS.Str "completed" /\
   StatusReport.status report <> JS.Str "processing").
Proof.
  unfold AIEnhancedFileProcessingService.getAIProcessingStatus.
  destruct fetched as [m | response runs]; [discriminate |].
  destruct (negb (HttpResponse.ok response)); [discriminate |].
  destruct (find _ runs) as [run |]; [| discriminate].
  intros H. injection H as <-.
  cbn [StatusReport.progress StatusReport.status].
  destruct (statusMap_cases (WorkflowRun.status run))
    as [[-> Hs] | [[-> Hs] | [Hc [Hp [Hs1 Hs2]]]]].
  - left. now split.
  - right; left. now split.
  - right; right. split; [| now split].
    destruct (String.eqb_spec (WorkflowRun.status run) "completed");
      [contradiction |].
    destruct (String.eqb_spec (WorkflowRun.status run) "in_progress");
      [contradiction | reflexivity].
Qed.

Lemma getAIProcessingStatus_progress_witness :
  exists report,
    AIEnhancedFileProcessingService.getAIProcessingStatus
      (Responded (HttpResponse.make true 200 "OK") [ queuedAIRun ])
      "upload_1700000000000" = Some report /\
    StatusReport.progress report = 25 /\
    StatusReport.status report = JS.Str "pending".
Proof.
  eexists. split; [reflexivity |].
  match goal with
  | |- StatusReport.progress ?r = 25 /\ _ =>
      destruct (getAIProcessingStatus_progress
                  (Responded (HttpResponse.make true 200 "OK") [ queuedAIRun ])
                  "upload_1700000000000" r eq_refl)
        as [[_ H] | [[_ H] | [H _]]]
  end.
  - discriminate H.
  - discriminate H.
  - split; [exact H | reflexivity].
Defined.

End StatusQueries.

(* ------------------------------------------------------------------ *)
(** ** What the quality assessor counts                                 *)
(* ------------------------------------------------------------------ *)

Section AssessorCounts.

Import AIEnhancedFileProcessingService.

Lemma countMismatches_filter (pattern : JS.RegExp) (values : list string)
    (dataIssues : nat) :
  countMismatches pattern dataIssues values =
  dataIssues + List.length (filter (mismatch pattern) values).
Proof.
  unfold countMismatches. revert dataIssues.
  induction values as [| v values IH]; intros dataIssues; simpl.
  - lia.
  - rewrite IH. unfold mismatch at 2.
    destruct (JS.truthy v && negb (JS.test pattern v)); simpl; lia.
Qed.

Lemma cells_beyond (row : list string) (i : nat) :
  List.length row <= i -> cells row i = [].
Proof.
  intros H. unfold cells.
  now rewrite (proj2 (nth_error_None row i) H).
Qed.

Lemma filter_nil_iff {A : Type} (p : A -> bool) (l : list A) :
  List.length (filter p l) = 0 <-> forall x, In x l -> p x = false.
Proof.
  induction l as [| a l IH]; simpl.
  - split; [intros _ x [] | reflexivity].
  - destruct (p a) eqn:E; simpl.
    + split; [discriminate |]. intros H.
      specialize (H a (or_introl eq_refl)). congruence.
    + rewrite IH. split.
      * intros H x [<- | Hx]; auto.
      * intros H x Hx. apply H. now right.
Qed.

Lemma mismatch_false (pattern : JS.RegExp) (value : string) :
  mismatch pattern value = false <->
  value = "" \/ JS.test pattern value = true.
Proof.
  unfold mismatch. destruct value as [| c rest]; cbn [JS.truthy andb].
  - split; [intros _; left; reflexivity | reflexivity].
  - destruct (JS.test pattern (String c rest)) eqn:E; cbn [negb].
    + split; [intros _; right; reflexivity | reflexivity].
    + split; [discriminate | intros [H | H]; discriminate H].
Qed.

(** X27. One data row of a CSV file adds to the correction count the
    number of non-empty cells of its third and fourth columns that the
    address pattern rejects plus the number of non-empty cells of its
    fifth column that the port pattern rejects, the cells of a column
    being its parts between semicolons, trimmed; the two length guards of
    the loop change nothing.  The row adds nothing exactly when every such
    cell is empty or accepted. *)
Theorem checkRow_counts (dataIssues : nat) (line : string) :
  let row := JS.split "," line in
  checkRow dataIssues line =
    dataIssues +
    List.length (filter (mismatch ipPattern) (app (cells row 2) (cells row 3))) +
    List.length (filter (mismatch portPattern) (cells row 4)) /\
  (checkRow dataIssues line = dataIssues <->
   (forall value,
       In value (app (cells row 2) (cells row 3)) ->
       value = "" \/ JS.test ipPattern value = true) /\
   (forall value,
       In value (cells row 4) ->
       value = "" \/ JS.test portPattern value = true)).
Proof.
  cbn zeta.
  assert (Heq : checkRow dataIssues line =
    dataIssues +
    List.length (filter (mismatch ipPattern)
                   (app (cells (JS.split "," line) 2)
                        (cells (JS.split "," line) 3))) +
    List.length (filter (mismatch portPattern) (cells (JS.split "," line) 4))).
  { unfold checkRow.
    destruct (Nat.ltb_spec 2 (List.length (JS.split "," line))) as [H2 | H2];
      destruct (Nat.ltb_spec 4 (List.length (JS.split "," line))) as [H4 | H4];
      rewrite ?countMismatches_filter.
    - reflexivity.
    - rewrite (cells_beyond _ 4 H4). simpl. lia.
    - lia.
    - rewrite (cells_beyond _ 2 H2), (cells_beyond _ 3), (cells_beyond _ 4);
        simpl; lia. }
  split; [exact Heq |].
  rewrite Heq. split.
  - intros H.
    assert (H1 : List.length (filter (mismatch ipPattern)
                   (app (cells (JS.split "," line) 2)
                        (cells (JS.split "," line) 3))) = 0) by lia.
    assert (H3 : List.length (filter (mismatch portPattern)
                   (cells (JS.split "," line) 4)) = 0) by lia.
    rewrite filter_nil_iff in H1, H3.
    split; intros value Hin; apply mismatch_false; auto.
  - intros [H1 H3].
    assert (H1' : List.length (filter (mismatch ipPattern)
                   (app (cells (JS.split "," line) 2)
                        (cells (JS.split "," line) 3))) = 0).
    { apply filter_nil_iff. intros x Hx. apply mismatch_false. auto. }
    assert (H3' : List.length (filter (mismatch portPattern)
                   (cells (JS.split "," line) 4)) = 0).
    { apply filter_nil_iff. intros x Hx. apply mismatch_false. auto. }
    lia.
Qed.







Lemma nullish_dec (event : JSON.t) : {nullish event} + {~ nullish event}.
Proof.
  unfold nullish.
  destruct event;
    first [ left; now left | left; now right
          | right; intros [H | H]; discriminate H ].
Qed.









Local Open Scope Q_scope.

Lemma quotient_ge (t c d : Q) : 0 < d -> (t <= c / d <-> t * d <= c).
Proof.
  intros Hd. split.
  - intros H.
    assert (Hm : t * d <= c / d * d).
    { apply Qmult_le_compat_r; [exact H | now apply Qlt_le_weak]. }
    rewrite Qmult_comm with (x := c / d) in Hm.
    rewrite Qmult_div_r in Hm; [exact Hm |].
    intros H0. rewrite H0 in Hd. now apply Qlt_irrefl in Hd.
  - intros H. now apply Qle_shift_div_l.
Qed.

Lemma gt_qualityScore (c n : nat) (bound t : Q) :
  0 <= bound -> bound == 100 - t * 100 ->
  JS.gt (qualityScore JS.exact c n) (JS.Finite bound) = true <->
  ~ (t <= inject_Z (Z.of_nat c) / inject_Z (Z.of_nat (Nat.max n 1))).
Proof.
  intros Hbound Ht.
  unfold qualityScore, issueRatio, JS.exact.
  destruct (max_one_succ n) as [m ->].
  rewrite div_counts. cbn [JS.mul JS.sub].
  set (x := inject_Z (Z.of_nat c) / inject_Z (Z.of_nat (S m))).
  clearbody x. unfold JS.max.
  destruct (Qle_bool 0 (100 - x * 100)) eqn:E; cbn [JS.gt].
  - rewrite negb_true_iff. split.
    + intros H Hx.
      assert (Hle : 100 - x * 100 <= bound) by lra.
      apply Qle_bool_iff in Hle. congruence.
    + intros H. destruct (Qle_bool (100 - x * 100) bound) eqn:E2;
        [| reflexivity].
      apply Qle_bool_iff in E2. exfalso. apply H. lra.
  - assert (Hneg : ~ 0 <= 100 - x * 100).
    { intros H. apply Qle_bool_iff in H. congruence. }
    rewrite negb_true_iff. split.
    + intros H Hx.
      assert (Hle : 0 <= bound) by exact Hbound.
      apply Qle_bool_iff in Hle. congruence.
    + intros H. exfalso. apply H. lra.
Qed.

Lemma count_pos (n : nat) : 0 < inject_Z (Z.of_nat (S n)).
Proof. unfold Qlt; simpl. lia. Qed.

Lemma gt_iff (x y : Q) : JS.gt (JS.Finite x) (JS.Finite y) = true <-> y < x.
Proof.
  cbn [JS.gt]. rewrite negb_true_iff. split.
  - intros H. apply Qnot_le_lt. intros Hle.
    apply Qle_bool_iff in Hle. congruence.
  - intros H. destruct (Qle_bool x y) eqn:E; [| reflexivity].
    apply Qle_bool_iff in E. exfalso. apply (Qlt_not_le _ _ H E).
Qed.

(** The doubles of the program fall on the same side of the two
    thresholds as the exact score. *)
Lemma gt_qualityScore_double (c n : nat) (k : Z) :
  (Z.of_nat c < 2 ^ 53)%Z -> (Z.of_nat n < 2 ^ 40)%Z ->
  k = 80%Z \/ k = 60%Z ->
  JS.gt (qualityScore JS.toDouble c n) (JS.Finite (inject_Z k)) =
  JS.gt (qualityScore JS.exact c n) (JS.Finite (inject_Z k)).
Proof.
  intros Hc Hn Hk.
  destruct (qualityScore_double_facts c n Hc)
    as [s [-> [_ [_ [Hgt [Hle80 Hle60]]]]]].
  destruct (Hgt Hn) as [Hgt80 Hgt60].
  destruct (qualityScore_spec c n) as [q [-> Hq]].
  assert (Hsame : inject_Z k < s <-> inject_Z k < q).
  { rewrite Hq.
    destruct Hk as [-> | ->];
      change (inject_Z 80) with 80; change (inject_Z 60) with 60; split;
      intros H.
    - apply Qnot_le_lt. intros Hf. apply Hle80 in Hf.
      apply (Qlt_not_le _ _ H Hf).
    - now apply Hgt80.
    - apply Qnot_le_lt. intros Hf. apply Hle60 in Hf.
      apply (Qlt_not_le _ _ H Hf).
    - now apply Hgt60. }
  destruct (JS.gt (JS.Finite s) (JS.Finite (inject_Z k))) eqn:Es;
    destruct (JS.gt (JS.Finite q) (JS.Finite (inject_Z k))) eqn:Eq;
    try reflexivity.
  - apply gt_iff in Es. apply Hsame in Es. apply gt_iff in Es. congruence.
  - apply gt_iff in Eq. apply Hsame in Eq. apply gt_iff in Eq. congruence.
Qed.

(** X29.  In exact arithmetic the confidence level of an assessment is
    read off the counts: it is high exactly when fewer than one record in
    five needs a correction (5 c < m, with m the larger of the record
    count and 1), low exactly when at least two in five do (2 m <= 5 c),
    and medium in between.  The doubles of the program give the same
    level for fewer than 2^53 corrections and fewer than 2^40 records. *)
Theorem report_confidence_thresholds (c n : nat) :
  let m := Nat.max n 1 in
  ((AIProcessingResult.confidenceLevel (report JS.exact c n) =
      ConfidenceHigh <-> (5 * c < m)%nat) /\
   (AIProcessingResult.confidenceLevel (report JS.exact c n) =
      ConfidenceMedium <-> (m <= 5 * c)%nat /\ (5 * c < 2 * m)%nat) /\
   (AIProcessingResult.confidenceLevel (report JS.exact c n) =
      ConfidenceLow <-> (2 * m <= 5 * c)%nat)) /\
  ((Z.of_nat c < 2 ^ 53)%Z -> (Z.of_nat n < 2 ^ 40)%Z ->
   AIProcessingResult.confidenceLevel (report JS.toDouble c n) =
   AIProcessingResult.confidenceLevel (report JS.exact c n)).
Proof.
  cbn zeta. split.
  2: { intros Hc Hn. unfold report.
       cbn [AIProcessingResult.confidenceLevel].
       pose proof (gt_qualityScore_double c n 80 Hc Hn (or_introl eq_refl))
         as H80.
       pose proof (gt_qualityScore_double c n 60 Hc Hn (or_intror eq_refl))
         as H60.
       change (inject_Z 80) with 80 in H80.
       change (inject_Z 60) with 60 in H60.
       now rewrite H80, H60. }
  assert (H80 : JS.gt (qualityScore JS.exact c n) (JS.Finite 80) = true <->
                (5 * c < Nat.max n 1)%nat).
  { rewrite (gt_qualityScore c n 80 (1 # 5)) by (discriminate || reflexivity).
    destruct (max_one_succ n) as [m ->].
    rewrite (quotient_ge _ _ _ (count_pos m)).
    unfold Qle, Qmult, inject_Z. cbn [Qnum Qden]. lia. }
  assert (H60 : JS.gt (qualityScore JS.exact c n) (JS.Finite 60) = true <->
                (5 * c < 2 * Nat.max n 1)%nat).
  { rewrite (gt_qualityScore c n 60 (2 # 5)) by (discriminate || reflexivity).
    destruct (max_one_succ n) as [m ->].
    rewrite (quotient_ge _ _ _ (count_pos m)).
    unfold Qle, Qmult, inject_Z. cbn [Qnum Qden]. lia. }
  unfold report. cbn [AIProcessingResult.confidenceLevel].
  destruct (JS.gt (qualityScore JS.exact c n) (JS.Finite 80)) eqn:E80;
    destruct (JS.gt (qualityScore JS.exact c n) (JS.Finite 60)) eqn:E60.
  - assert (A : (5 * c < Nat.max n 1)%nat) by now apply H80.
    repeat split; try discriminate; try lia.
  - assert (A : (5 * c < Nat.max n 1)%nat) by now apply H80.
    repeat split; try discriminate; try lia.
  - assert (A : ~ (5 * c < Nat.max n 1)%nat).
    { intros H. apply H80 in H. discriminate H. }
    assert (B : (5 * c < 2 * Nat.max n 1)%nat) by now apply H60.
    repeat split; try discriminate; try lia.
  - assert (A : ~ (5 * c < Nat.max n 1)%nat).
    { intros H. apply H80 in H. discriminate H. }
    assert (B : ~ (5 * c < 2 * Nat.max n 1)%nat).
    { intros H. apply H60 in H. discriminate H. }
    repeat split; try discriminate; try lia.
Qed.

End AssessorCounts.
